(** * LumixEngine: [src/graphics/render_scene.cpp]

    A shallow embedding of the scene-management layer of the renderer:
    the terrain level-of-detail quad-tree ([TerrainQuad], [Terrain]) and
    the scene facade ([RenderSceneImpl]) with its component registries,
    serialization, debug-line buffer and ray casting.

    Number model.  The C++ type [float] is modelled by the real numbers
    [R]: rounding, overflow and NaN are not represented.  The sizes the
    quad-tree is built from are texture widths (integers converted to
    [float]), for which halving is exact.  The C++ types [int], [int32_t],
    [int64_t] and [uint32_t] are modelled by [Z]; no arithmetic of this
    file leaves their range except where written out. *)

From Stdlib Require Import Reals Lra Lia ZArith Bool String Ascii List Permutation.
Import ListNotations.

Open Scope string_scope.
Open Scope list_scope.
Open Scope R_scope.

(** ** Comparisons of [float] values as booleans *)

Definition Rltb (a b : R) : bool := if Rlt_dec a b then true else false.
Definition Rgtb (a b : R) : bool := Rltb b a.
Definition Rleb (a b : R) : bool := if Rle_dec a b then true else false.

(** ** [Vec3] (core/vec3.h): three [float] coordinates *)

Module Vec3.
(** Modelled from the spec: core/vec3.h is not under src/.  A vector is
    its three coordinates; the constructor is named after [Vec3::set]. *)
Record t : Type := set { x : R; y : R; z : R }.

(** Modelled from the spec: [operator-] of core/vec3.h, by coordinates. *)
Definition sub (a b : t) : t := set (x a - x b) (y a - y b) (z a - z b).
(** Modelled from the spec: [operator+] of core/vec3.h, by coordinates. *)
Definition add (a b : t) : t := set (x a + x b) (y a + y b) (z a + z b).
(** Modelled from the spec: [operator*] by a scalar, core/vec3.h. *)
Definition mul (a : t) (k : R) : t := set (x a * k) (y a * k) (z a * k).
End Vec3.

(** Modelled from the spec: [dotProduct] of core/vec3.h, the sum of the
    products of the coordinates. *)
Definition dotProduct (a b : Vec3.t) : R :=
  Vec3.x a * Vec3.x b + Vec3.y a * Vec3.y b + Vec3.z a * Vec3.z b.

(** ** [Array<T>] (core/array.h), as far as this file uses it *)

Module Array.
Section Ops.
Context {T : Type}.

(** Modelled from the spec: core/array.h is not under src/.  An array is a
    dense sequence indexed from 0; [size] is its number of entries. *)
Definition size (a : list T) : Z := Z.of_nat (length a).

(** Modelled from the spec: [a[i]] of core/array.h; [None] stands for an
    access outside the array. *)
Definition get (a : list T) (i : Z) : option T :=
  if (i <? 0)%Z then None else nth_error a (Z.to_nat i).

(** Modelled from the spec: the write [a[i] = v] of core/array.h at a
    natural index; outside the array nothing is written. *)
Fixpoint set_nat (a : list T) (i : nat) (v : T) : list T :=
  match a, i with
  | [], _ => []
  | _ :: a', O => v :: a'
  | h :: a', S i' => h :: set_nat a' i' v
  end.

(** Modelled from the spec: the write [a[i] = v] of core/array.h;
    outside the array nothing is written. *)
Definition set (a : list T) (i : Z) (v : T) : list T :=
  if (i <? 0)%Z then a else set_nat a (Z.to_nat i) v.

(** Modelled from the spec: [push] (and [pushEmpty] followed by the
    assignments to the new entry) of core/array.h: a new entry at the end. *)
Definition push (a : list T) (v : T) : list T := a ++ [v].

(** Modelled from the spec: [resize] of core/array.h truncates from the
    tail or appends default-constructed entries, here [fresh]. *)
Definition resize (a : list T) (n : nat) (fresh : T) : list T :=
  firstn n a ++ repeat fresh (n - length a).

(** Modelled from the spec: [eraseFast] of core/array.h is the swap-style
    removal: the last entry takes the erased entry's place and the array
    shrinks by one; an index outside the array erases nothing. *)
Definition eraseFast (a : list T) (i : nat) : list T :=
  match nth_error a i, nth_error a (length a - 1) with
  | Some _, Some lst =>
      if Nat.eqb i (length a - 1) then removelast a
      else set_nat (removelast a) i lst
  | _, _ => a
  end.
End Ops.
End Array.

(** ** [crc32] (core/crc32.h) *)

(** Modelled from the spec: core/crc32.h is not under src/.  One bit of
    the usual reflected CRC-32 (polynomial 0xEDB88320). *)
Definition crc32_bit (crc : Z) : Z :=
  Z.lxor (Z.shiftr crc 1) (if Z.testbit crc 0 then 0xEDB88320 else 0)%Z.

(** Modelled from the spec: one byte of the CRC-32 of core/crc32.h. *)
Definition crc32_byte (crc : Z) (c : ascii) : Z :=
  Nat.iter 8 crc32_bit (Z.lxor crc (Z.of_N (N_of_ascii c))).

(** Modelled from the spec: core/crc32.h is not under src/.  The component
    type discriminators are stable 32-bit hashes of the literal strings;
    the model is the usual CRC-32 of the string's bytes. *)
Definition crc32 (s : string) : Z :=
  Z.lxor (fold_left crc32_byte (list_ascii_of_string s) 0xFFFFFFFF%Z) 0xFFFFFFFF%Z.

Definition RENDERABLE_HASH : Z := Eval vm_compute in crc32 "renderable".
Definition LIGHT_HASH : Z := Eval vm_compute in crc32 "light".
Definition CAMERA_HASH : Z := Eval vm_compute in crc32 "camera".
Definition TERRAIN_HASH : Z := Eval vm_compute in crc32 "terrain".

(** ** [Entity] and [Component] (universe/) *)

Module Entity.
(** Modelled from the spec: universe/entity.h is not under src/.  An entity
    is an index with a back-reference to its graph (an address, 0 for
    none). *)
Record t : Type := mk { universe : Z; index : Z }.
End Entity.

Module Component.
(** Modelled from the spec: universe/component.h is not under src/.  A
    component is the (entity, type tag, registry index) triple; the
    pointer to the owning scene is left out, there being one scene. *)
Record t : Type := mk { entity : Entity.t; type : Z; index : Z }.
(** Modelled from the spec: [Component::INVALID], the invalid component:
    no graph, no type, index -1. *)
Definition INVALID : t := mk (Entity.mk 0 (-1)) 0 (-1).
End Component.

(** ** [Matrix] (core/matrix.h): sixteen [float]s, [m11] first *)

Module Matrix.
(** Modelled from the spec: core/matrix.h is not under src/.  The sixteen
    components in declared order, row by row. *)
Record t : Type := mk {
  m11 : R; m12 : R; m13 : R; m14 : R;
  m21 : R; m22 : R; m23 : R; m24 : R;
  m31 : R; m32 : R; m33 : R; m34 : R;
  m41 : R; m42 : R; m43 : R; m44 : R
}.

(** The components as the array [(&m.m11)[0 .. 15]]. *)
Definition to_list (m : t) : list R :=
  [m11 m; m12 m; m13 m; m14 m; m21 m; m22 m; m23 m; m24 m;
   m31 m; m32 m; m33 m; m34 m; m41 m; m42 m; m43 m; m44 m].

Definition of_list (l : list R) : option t :=
  match l with
  | [a1; a2; a3; a4; b1; b2; b3; b4; c1; c2; c3; c4; d1; d2; d3; d4] =>
      Some (mk a1 a2 a3 a4 b1 b2 b3 b4 c1 c2 c3 c4 d1 d2 d3 d4)
  | _ => None
  end.

(** [(&m.m11)[j]], for [j] from 0 to 15. *)
Definition at_ (m : t) (j : nat) : R := nth j (to_list m) 0.

(** [(&m.m11)[j] = v]. *)
Definition set_at (m : t) (j : nat) (v : R) : t :=
  match of_list (Array.set_nat (to_list m) j v) with
  | Some m' => m'
  | None => m
  end.

(** Modelled from the spec: [getTranslation] of core/matrix.h, the
    instance's world position: the first three components of the last
    row. *)
Definition getTranslation (m : t) : Vec3.t := Vec3.set (m41 m) (m42 m) (m43 m).
End Matrix.

(** ** Resources: [Material], [Model], [ModelInstance], [Mesh] *)

Module RayCastModelHit.
(** Modelled from the spec: graphics/ray_cast_model_hit.h is not under
    src/.  The fields [castRay] reads and writes. *)
Record t : Type := mk { m_is_hit : bool; m_t : R; m_renderable : Component.t }.
End RayCastModelHit.

Module Material.
(** Modelled from the spec: graphics/material.h is not under src/.  A
    resource handle carries the path it was loaded from. *)
Record t : Type := mk { getPath : string }.
End Material.

Module Model.
(** Modelled from the spec: graphics/model.h is not under src/.  A model
    carries its path, its bounding radius and its own precise ray cast
    (origin, direction, instance matrix, scale). *)
Record t : Type := mk {
  getPath : string;
  getBoundingRadius : R;
  castRay : Vec3.t -> Vec3.t -> Matrix.t -> R -> RayCastModelHit.t
}.
End Model.

Module ModelInstance.
(** Modelled from the spec: graphics/model_instance.h is not under src/.
    The binding of a renderable to a shared model ([None] for no model)
    with the instance's transform. *)
Record t : Type := mk { getModel : option Model.t; getMatrix : Matrix.t }.
(** Modelled from the spec: [setModel] binds the model and keeps the
    transform. *)
Definition setModel (mi : t) (m : option Model.t) : t := mk m (getMatrix mi).
(** Modelled from the spec: [setMatrix] stores the transform. *)
Definition setMatrix (mi : t) (mtx : Matrix.t) : t := mk (getModel mi) mtx.
End ModelInstance.

Module Mesh.
(** Modelled from the spec: graphics/geometry.h is not under src/.  A mesh
    refers to a material and has an index count. *)
Record t : Type := mk { getMaterial : option Material.t; getCount : Z }.
(** Modelled from the spec: [setMaterial] stores the material. *)
Definition setMaterial (m : t) (mat : option Material.t) : t := mk mat (getCount m).
End Mesh.

(** ** [TerrainQuad] *)

Module TerrainQuad.

(** [enum ChildType]; [CHILD_COUNT] is 4. *)
Inductive ChildType : Type := TOP_LEFT | TOP_RIGHT | BOTTOM_LEFT | BOTTOM_RIGHT.

Definition child_index (i : ChildType) : Z :=
  match i with
  | TOP_LEFT => 0 | TOP_RIGHT => 1 | BOTTOM_LEFT => 2 | BOTTOM_RIGHT => 3
  end%Z.

(** A value of type [TerrainQuad*]: either [NULL] or the address of a
    node holding [m_min], [m_size], [m_lod] and the array
    [m_children[CHILD_COUNT]] of four such pointers, which the node owns. *)
Inductive ptr : Type :=
| NULL : ptr
| Quad (m_min : Vec3.t) (m_size : R) (m_lod : Z)
       (top_left top_right bottom_left bottom_right : ptr) : ptr.

Definition is_null (p : ptr) : bool :=
  match p with NULL => true | Quad _ _ _ _ _ _ _ => false end.

Definition m_children (p : ptr) (i : ChildType) : ptr :=
  match p with
  | NULL => NULL
  | Quad _ _ _ c0 c1 c2 c3 =>
      match i with
      | TOP_LEFT => c0 | TOP_RIGHT => c1 | BOTTOM_LEFT => c2 | BOTTOM_RIGHT => c3
      end
  end.

(** The constructor leaves the four children [NULL]; [createChildren]
    fills them when [m_lod < 8 && m_size > 16] and recurses into each.
    The recursion of the source ends because [m_lod] grows by one per
    level and stops at 8; [depth] is that measure, [8 - m_lod]. *)
Fixpoint createChildren_rec (depth : nat) (m_min : Vec3.t) (m_size : R) (m_lod : Z)
  : ptr :=
  match depth with
  | O => Quad m_min m_size m_lod NULL NULL NULL NULL
  | S depth' =>
      if (m_lod <? 8)%Z && Rgtb m_size 16 then
        let child := fun c_min => createChildren_rec depth' c_min (m_size / 2) (m_lod + 1)%Z in
        Quad m_min m_size m_lod
          (child m_min)
          (child (Vec3.set (Vec3.x m_min + m_size / 2) 0 (Vec3.z m_min)))
          (child (Vec3.set (Vec3.x m_min) 0 (Vec3.z m_min + m_size / 2)))
          (child (Vec3.set (Vec3.x m_min + m_size / 2) 0 (Vec3.z m_min + m_size / 2)))
      else Quad m_min m_size m_lod NULL NULL NULL NULL
  end.

(** [createChildren] on a node with the given fields; the result is the
    node with its subtree.  [createChildren_eq] below is the equation the
    source is written as. *)
Definition createChildren (m_min : Vec3.t) (m_size : R) (m_lod : Z) : ptr :=
  createChildren_rec (Z.to_nat (8 - m_lod)) m_min m_size m_lod.

Definition getDistance (m_min : Vec3.t) (m_size : R) (camera_pos : Vec3.t) : R :=
  let _max := Vec3.set (Vec3.x m_min + m_size) (Vec3.y m_min) (Vec3.z m_min + m_size) in
  let dist := 0 in
  let dist :=
    if Rltb (Vec3.x camera_pos) (Vec3.x m_min)
    then let d := Vec3.x m_min - Vec3.x camera_pos in dist + d * d else dist in
  let dist :=
    if Rgtb (Vec3.x camera_pos) (Vec3.x _max)
    then let d := Vec3.x _max - Vec3.x camera_pos in dist + d * d else dist in
  let dist :=
    if Rltb (Vec3.z camera_pos) (Vec3.z m_min)
    then let d := Vec3.z m_min - Vec3.z camera_pos in dist + d * d else dist in
  let dist :=
    if Rgtb (Vec3.z camera_pos) (Vec3.z _max)
    then let d := Vec3.z _max - Vec3.z camera_pos in dist + d * d else dist in
  sqrt dist.

Definition getRadiusOuter (size : R) : R :=
  (if Rgtb size 17 then 2 else 1) * sqrt (2 * size * size) + size * (1 / 4).

Definition getRadiusInner (size : R) : R :=
  let lower_level_size := size / 2 in
  let lower_level_diagonal := sqrt (2 * size / 2 * size / 2) in
  getRadiusOuter lower_level_size + lower_level_diagonal.

(** What one pass of the loop body hands to the shader and the geometry:
    the three uniforms and the index range of [geometry.draw]. *)
Record DrawCall : Type := mkDrawCall {
  morph_const : Vec3.t;
  quad_size : R;
  quad_min : Vec3.t;
  draw_first : Z;
  draw_count : Z
}.

(** [render] returns its [bool] together with the draw calls it issued,
    in order.  [count] is [mesh->getCount()].  The source never calls
    [render] through a [NULL] child (the test [!m_children[i]] comes
    first); on [NULL] the model answers [false] with no draw, which is
    what that test amounts to. *)
Fixpoint render (q : ptr) (count : Z) (camera_pos : Vec3.t) : bool * list DrawCall :=
  match q with
  | NULL => (false, [])
  | Quad m_min m_size m_lod c0 c1 c2 c3 =>
      let dist := getDistance m_min m_size camera_pos in
      let r := getRadiusOuter m_size in
      if Rgtb dist r && (m_lod >? 1)%Z then (false, [])
      else
        let morph := Vec3.set r (getRadiusInner m_size) 0 in
        let pass := fun (i : Z) (c : ptr) =>
          if negb (fst (render c count camera_pos))
          then [mkDrawCall morph m_size m_min (count / 4 * i)%Z (count / 4)%Z]
          else snd (render c count camera_pos) in
        (true, pass 0%Z c0 ++ pass 1%Z c1 ++ pass 2%Z c2 ++ pass 3%Z c3)
  end.

End TerrainQuad.

(** ** [Terrain]: the quad-tree root and the fixed geometry *)

Module Terrain.

Definition GRID_SIZE : Z := 16.

(** [generateQuadTree]: the root has LOD 1, min corner (0,0,0) and the
    given size. *)
Definition generateQuadTree (size : R) : TerrainQuad.ptr :=
  TerrainQuad.createChildren (Vec3.set 0 0 0) size 1.

(** [generateGeometry] fills the index buffer with four calls of
    [generateSubgrid], at grid offsets (0,0), (8,0), (0,8) and (8,8) in
    this order; each call appends 8*8*6 indices.  [subgrid_start k] is
    the offset of the [k]-th call. *)
Definition subgrid_start (k : Z) : Z * Z :=
  if (k =? 0)%Z then (0, 0)%Z
  else if (k =? 1)%Z then (8, 0)%Z
  else if (k =? 2)%Z then (0, 8)%Z
  else (8, 8)%Z.

(** [indices.size()], the count the mesh is created with. *)
Definition index_count : Z := GRID_SIZE * GRID_SIZE * 6.

(** [Terrain::render]: nothing is drawn without a root. *)
Definition render (m_root : TerrainQuad.ptr) (camera_pos : Vec3.t)
  : list TerrainQuad.DrawCall :=
  if TerrainQuad.is_null m_root then []
  else snd (TerrainQuad.render m_root index_count camera_pos).

(** The contents of the vertex and index buffers while [generateGeometry]
    fills them: [points], [indices] and the running [indices_offset]. *)
Record Buffers : Type := mkBuffers {
  points : list Vec3.t;
  indices : list Z;
  indices_offset : Z
}.

(** [for (int i = first; i < first + n; ++i) body]. *)
Fixpoint for_each {S : Type} (n : nat) (i : Z) (body : Z -> S -> S) (s : S) : S :=
  match n with
  | O => s
  | S n' => for_each n' (i + 1)%Z body (body i s)
  end.

(** The body of the inner loop of [generateSubgrid] for the cell [(i, j)]:
    four vertices and two triangles. *)
Definition generateSubgrid_cell (j i : Z) (b : Buffers) : Buffers :=
  let idx := (4 * (i + j * GRID_SIZE))%Z in
  let g := IZR GRID_SIZE in
  let pts := points b in
  let pts := Array.set pts idx (Vec3.set (IZR i / g) 0 (IZR j / g)) in
  let pts := Array.set pts (idx + 1)%Z (Vec3.set (IZR (i + 1) / g) 0 (IZR j / g)) in
  let pts := Array.set pts (idx + 2)%Z (Vec3.set (IZR (i + 1) / g) 0 (IZR (j + 1) / g)) in
  let pts := Array.set pts (idx + 3)%Z (Vec3.set (IZR i / g) 0 (IZR (j + 1) / g)) in
  let off := indices_offset b in
  let ids := indices b in
  let ids := Array.set ids off idx in
  let ids := Array.set ids (off + 1)%Z (idx + 3)%Z in
  let ids := Array.set ids (off + 2)%Z (idx + 2)%Z in
  let ids := Array.set ids (off + 3)%Z idx in
  let ids := Array.set ids (off + 4)%Z (idx + 2)%Z in
  let ids := Array.set ids (off + 5)%Z (idx + 1)%Z in
  mkBuffers pts ids (off + 6)%Z.

Definition generateSubgrid (b : Buffers) (start_x start_y : Z) : Buffers :=
  for_each 8 start_y (fun j b' => for_each 8 start_x (generateSubgrid_cell j) b') b.

(** [generateGeometry], up to the copy into the geometry: both arrays are
    resized, their new entries holding [fresh_point] and [fresh_index]
    until they are assigned, and the four sub-grids are generated. *)
Definition generateGeometry (fresh_point : Vec3.t) (fresh_index : Z) : Buffers :=
  let pts := Array.resize [] (Z.to_nat (GRID_SIZE * GRID_SIZE * 4)) fresh_point in
  let ids := Array.resize [] (Z.to_nat (GRID_SIZE * GRID_SIZE * 6)) fresh_index in
  let b := mkBuffers pts ids 0 in
  let b := generateSubgrid b 0 0 in
  let b := generateSubgrid b 8 0 in
  let b := generateSubgrid b 0 8 in
  generateSubgrid b 8 8.

End Terrain.

(** ** The registry entries *)

Module TerrainData.
(** [struct Terrain], the fields the scene reads and writes. *)
Record t : Type := mk {
  m_width : Z;
  m_height : Z;
  m_material : option Material.t;
  m_mesh : option Mesh.t;
  m_matrix : Matrix.t;
  m_entity : Entity.t;
  m_layer_mask : Z;
  m_root : TerrainQuad.ptr;
  m_xz_scale : R;
  m_y_scale : R
}.

Definition set_material (t0 : t) (mat : option Material.t) (mesh : option Mesh.t) : t :=
  mk (m_width t0) (m_height t0) mat mesh (m_matrix t0) (m_entity t0)
     (m_layer_mask t0) (m_root t0) (m_xz_scale t0) (m_y_scale t0).
Definition set_layer_mask (t0 : t) (v : Z) : t :=
  mk (m_width t0) (m_height t0) (m_material t0) (m_mesh t0) (m_matrix t0) (m_entity t0)
     v (m_root t0) (m_xz_scale t0) (m_y_scale t0).
Definition set_xz_scale (t0 : t) (v : R) : t :=
  mk (m_width t0) (m_height t0) (m_material t0) (m_mesh t0) (m_matrix t0) (m_entity t0)
     (m_layer_mask t0) (m_root t0) v (m_y_scale t0).
Definition set_y_scale (t0 : t) (v : R) : t :=
  mk (m_width t0) (m_height t0) (m_material t0) (m_mesh t0) (m_matrix t0) (m_entity t0)
     (m_layer_mask t0) (m_root t0) (m_xz_scale t0) v.

(** [onMaterialLoaded] in the ready state: the texture's width and height
    are stored and the quad-tree is rebuilt from the width. *)
Definition onMaterialLoaded (t0 : t) (ready : bool) (tex_width tex_height : Z) : t :=
  if ready then
    mk tex_width tex_height (m_material t0) (m_mesh t0) (m_matrix t0) (m_entity t0)
       (m_layer_mask t0) (Terrain.generateQuadTree (IZR tex_width))
       (m_xz_scale t0) (m_y_scale t0)
  else t0.
End TerrainData.

Module Renderable.
Record t : Type := mk {
  m_model : ModelInstance.t;
  m_entity : Entity.t;
  m_layer_mask : Z;
  m_scale : R
}.
End Renderable.

Module Light.
(** [enum class Type : int32_t { DIRECTIONAL }], kept as its [int32_t]. *)
Definition DIRECTIONAL : Z := 0.
Record t : Type := mk { m_type : Z; m_entity : Entity.t }.
End Light.

Module Camera.
Definition MAX_SLOT_LENGTH : nat := 30.
Record t : Type := mk {
  m_entity : Entity.t;
  m_fov : R;
  m_aspect : R;
  m_near : R;
  m_far : R;
  m_width : R;
  m_height : R;
  m_is_active : bool;
  m_slot : string
}.
End Camera.

Module DebugLine.
Record t : Type := mk { m_from : Vec3.t; m_to : Vec3.t; m_color : Vec3.t; m_life : R }.
End DebugLine.

(** ** [ISerializer] (core/iserializer.h) *)

Module ISerializer.
(** Modelled from the spec: core/iserializer.h is not under src/.  The
    values the scene hands to the serializer: [int32_t] and [int64_t],
    [float], [bool] and strings. *)
Inductive value : Type :=
| VInt (n : Z)
| VFloat (f : R)
| VBool (b : bool)
| VString (s : string).

(** Modelled from the spec: the serializer is an ordered key/value and
    array writer; a record is what one call writes: [serialize(label, v)],
    [beginArray(label)], [serializeArrayItem(v)] or [endArray()]. *)
Inductive record : Type :=
| Named (label : string) (v : value)
| BeginArray (label : string)
| ArrayItem (v : value)
| EndArray.

(** Modelled from the spec: the stream is the sequence of the records
    written, read back in the same order. *)
Definition stream : Type := list record.

(** Modelled from the spec: a read consumes a prefix of the stream, or
    fails with the collaborator's hard error, [None]. *)
Definition reader (A : Type) : Type := stream -> option (A * stream).

(** Sequencing of reads. *)
Definition ret {A} (a : A) : reader A := fun s => Some (a, s).
Definition bind {A B} (m : reader A) (k : A -> reader B) : reader B :=
  fun s => match m s with Some (a, s') => k a s' | None => None end.
Definition fail {A} : reader A := fun _ => None.

(** Modelled from the spec: [deserialize(label, int32_t&)] reads the next
    record, which has to be a named integer. *)
Definition deserialize (label : string) : reader Z :=
  fun s => match s with Named _ (VInt n) :: s' => Some (n, s') | _ => None end.
(** Modelled from the spec: [deserializeArrayBegin(label)]. *)
Definition deserializeArrayBegin (label : string) : reader unit :=
  fun s => match s with BeginArray _ :: s' => Some (tt, s') | _ => None end.
(** Modelled from the spec: [deserializeArrayEnd()]. *)
Definition deserializeArrayEnd : reader unit :=
  fun s => match s with EndArray :: s' => Some (tt, s') | _ => None end.
(** Modelled from the spec: [deserializeArrayItem] into an [int32_t] or
    [int64_t]. *)
Definition deserializeArrayItem_int : reader Z :=
  fun s => match s with ArrayItem (VInt n) :: s' => Some (n, s') | _ => None end.
(** Modelled from the spec: [deserializeArrayItem] into a [float]. *)
Definition deserializeArrayItem_float : reader R :=
  fun s => match s with ArrayItem (VFloat f) :: s' => Some (f, s') | _ => None end.
(** Modelled from the spec: [deserializeArrayItem] into a [bool]. *)
Definition deserializeArrayItem_bool : reader bool :=
  fun s => match s with ArrayItem (VBool b) :: s' => Some (b, s') | _ => None end.
(** Modelled from the spec: [deserializeArrayItem] into a [char] buffer;
    at most [max_length] characters are kept. *)
Definition deserializeArrayItem_string (max_length : nat) : reader string :=
  fun s => match s with
           | ArrayItem (VString str) :: s' => Some (substring 0 max_length str, s')
           | _ => None
           end.
End ISerializer.

Notation "x <- m ;; k" := (ISerializer.bind m (fun x => k))
  (at level 61, m at next level, right associativity).

(** Modelled from the spec: [LUMIX_MAX_PATH] of core/lumix.h, which is not
    under src/: the size of the path buffers. *)
Definition LUMIX_MAX_PATH : nat := 260.

(** ** [Math::getRaySphereIntersection] (core/math_utils.h) *)

Module Math.
(** Modelled from the spec: core/math_utils.h is not under src/.  The test
    answers whether the ray from [origin] along [dir] meets the sphere:
    whether some point [origin + t * dir] with [0 <= t] lies within
    [radius] of [center].  The nearest such point is at [t = 0] when the
    centre is not ahead of the origin and at the foot of the perpendicular
    otherwise. *)
Definition getRaySphereIntersection
  (center : Vec3.t) (radius : R) (origin dir : Vec3.t) : bool :=
  let L := Vec3.sub center origin in
  let b := dotProduct L dir in
  let a := dotProduct dir dir in
  if Rleb b 0 then Rleb (dotProduct L L) (radius * radius)
  else Rleb (dotProduct L L * a - b * b) (radius * radius * a).
End Math.

(** ** The collaborators and the allocator *)

(** Modelled from the spec: what the scene obtains from outside.  The
    contents of objects before any field is assigned
    ([LUMIX_NEW(Renderable)], whose constructor body is empty, the entries
    [Array::resize] and [pushEmpty] append, the local [RayCastModelHit]),
    the resource managers' [load], which answers a handle at once, and the
    transform an entity has in the universe. *)
Record Environment : Type := mkEnvironment {
  new_Renderable : Renderable.t;
  new_Camera : Camera.t;
  new_Light : Light.t;
  new_RayCastModelHit : RayCastModelHit.t;
  load_model : string -> option Model.t;
  load_material : string -> option Material.t;
  entity_getMatrix : Entity.t -> Matrix.t
}.

(** ** [TerrainInfo] (graphics/render_scene.h) *)

Module TerrainInfo.
(** Modelled from the spec: graphics/render_scene.h is not under src/.  The
    fields [getTerrainInfos] assigns: entity, material, index and the two
    scales. *)
Record t : Type := mk {
  m_entity : Entity.t;
  m_material : option Material.t;
  m_index : Z;
  m_xz_scale : R;
  m_y_scale : R
}.
End TerrainInfo.

(** ** [RenderSceneImpl] *)

Module RenderSceneImpl.

Record t : Type := mk {
  m_renderables : list Renderable.t;
  m_lights : list Light.t;
  m_cameras : list Camera.t;
  m_terrains : list TerrainData.t;
  (** the address of the universe the scene was created for *)
  m_universe : Z;
  (** what [Universe::addComponent] has registered, oldest first *)
  universe_components : list Component.t;
  m_debug_lines : list DebugLine.t
}.

(** The scene right after its constructor. *)
Definition create (universe : Z) : t := mk [] [] [] [] universe [] [].

Definition with_renderables (s : t) (v : list Renderable.t) : t :=
  mk v (m_lights s) (m_cameras s) (m_terrains s) (m_universe s)
     (universe_components s) (m_debug_lines s).
Definition with_lights (s : t) (v : list Light.t) : t :=
  mk (m_renderables s) v (m_cameras s) (m_terrains s) (m_universe s)
     (universe_components s) (m_debug_lines s).
Definition with_cameras (s : t) (v : list Camera.t) : t :=
  mk (m_renderables s) (m_lights s) v (m_terrains s) (m_universe s)
     (universe_components s) (m_debug_lines s).
Definition with_terrains (s : t) (v : list TerrainData.t) : t :=
  mk (m_renderables s) (m_lights s) (m_cameras s) v (m_universe s)
     (universe_components s) (m_debug_lines s).
Definition with_debug_lines (s : t) (v : list DebugLine.t) : t :=
  mk (m_renderables s) (m_lights s) (m_cameras s) (m_terrains s) (m_universe s)
     (universe_components s) v.

(** [m_universe.addComponent(entity, type, this, index)]. *)
Definition addComponent (s : t) (entity : Entity.t) (type index : Z) : Component.t * t :=
  let cmp := Component.mk entity type index in
  (cmp, mk (m_renderables s) (m_lights s) (m_cameras s) (m_terrains s) (m_universe s)
           (universe_components s ++ [cmp]) (m_debug_lines s)).

Section WithEnvironment.
Variable env : Environment.

(** *** Debug lines *)

Definition addDebugLine (s : t) (from to color : Vec3.t) (life : R) : t :=
  with_debug_lines s (Array.push (m_debug_lines s) (DebugLine.mk from to color life)).

(** The loop of [update], entered with [i = n - 1] and run down to 0.
    [life] is a local copy of [m_life]; nothing is stored back. *)
Fixpoint update_loop (n : nat) (dt : R) (lines : list DebugLine.t) : list DebugLine.t :=
  match n with
  | O => lines
  | S i =>
      match nth_error lines i with
      | Some line =>
          let life := DebugLine.m_life line in
          let life := life - dt in
          update_loop i dt (if Rltb life 0 then Array.eraseFast lines i else lines)
      | None => update_loop i dt lines
      end
  end.

Definition update (s : t) (dt : R) : t :=
  with_debug_lines s (update_loop (length (m_debug_lines s)) dt (m_debug_lines s)).

(** *** Creation *)

(** [LUMIX_NEW(Terrain)] followed by the assignments of [createComponent]:
    the constructor clears [m_mesh], [m_material] and [m_root], and
    [generateGeometry] creates the mesh over [m_material]. *)
Definition new_Terrain (entity : Entity.t) : TerrainData.t :=
  TerrainData.mk 0 0 None (Some (Mesh.mk None Terrain.index_count))
    (entity_getMatrix env entity) entity 1 TerrainQuad.NULL 1 1.

(** The component-created signal that follows [addComponent] has no
    effect on the scene and is left out. *)
Definition createComponent (s : t) (type : Z) (entity : Entity.t) : Component.t * t :=
  if (type =? TERRAIN_HASH)%Z then
    let s1 := with_terrains s (Array.push (m_terrains s) (new_Terrain entity)) in
    addComponent s1 entity type (Array.size (m_terrains s1) - 1)
  else if (type =? CAMERA_HASH)%Z then
    let camera := Camera.mk entity 60 (800 / 600) (1 / 10) 10000 800 600 false "" in
    let s1 := with_cameras s (Array.push (m_cameras s) camera) in
    addComponent s1 entity type (Array.size (m_cameras s1) - 1)
  else if (type =? RENDERABLE_HASH)%Z then
    let r := Renderable.mk
               (ModelInstance.setModel (Renderable.m_model (new_Renderable env)) None)
               entity 1 1 in
    let s1 := with_renderables s (Array.push (m_renderables s) r) in
    addComponent s1 entity type (Array.size (m_renderables s1) - 1)
  else if (type =? LIGHT_HASH)%Z then
    let light := Light.mk Light.DIRECTIONAL entity in
    let s1 := with_lights s (Array.push (m_lights s) light) in
    addComponent s1 entity type (Array.size (m_lights s1) - 1)
  else (Component.INVALID, s).

(** [None]: [cmp.index] is outside [m_terrains]. *)
Definition setTerrainMaterial (s : t) (cmp : Component.t) (path : string) : option t :=
  match Array.get (m_terrains s) (Component.index cmp) with
  | Some terrain =>
      let material := load_material env path in
      let mesh :=
        match TerrainData.m_mesh terrain with
        | Some mesh => Some (Mesh.setMaterial mesh material)
        | None => None
        end in
      Some (with_terrains s
              (Array.set (m_terrains s) (Component.index cmp)
                 (TerrainData.set_material terrain material mesh)))
  | None => None
  end.

Definition setRenderableLayer (s : t) (cmp : Component.t) (layer : Z) : option t :=
  match Array.get (m_renderables s) (Component.index cmp) with
  | Some r =>
      Some (with_renderables s
              (Array.set (m_renderables s) (Component.index cmp)
                 (Renderable.mk (Renderable.m_model r) (Renderable.m_entity r)
                    (Z.shiftl 1 layer) (Renderable.m_scale r))))
  | None => None
  end.

(** *** Lights *)

(** [None]: a negative [index], which reads outside [m_lights]. *)
Definition getLight (s : t) (index : Z) : option (Component.t * t) :=
  if (index >=? Array.size (m_lights s))%Z then Some (Component.INVALID, s)
  else
    match Array.get (m_lights s) index with
    | Some light => Some (Component.mk (Light.m_entity light) (crc32 "light") index, s)
    | None => None
    end.

(** *** Ray casting *)

Definition castRay_broad_phase
  (r : Renderable.t) (model : Model.t) (origin dir : Vec3.t) : bool :=
  let pos := Matrix.getTranslation (ModelInstance.getMatrix (Renderable.m_model r)) in
  let radius := Model.getBoundingRadius model in
  let scale := Renderable.m_scale r in
  Rltb (dotProduct (Vec3.sub pos origin) (Vec3.sub pos origin)) (radius * radius)
  || Math.getRaySphereIntersection pos (radius * scale) origin dir.

(** One pass of the loop body of [castRay] for [m_renderables[i]]. *)
Definition castRay_step (r : Renderable.t) (i : Z) (origin dir : Vec3.t)
  (hit : RayCastModelHit.t) : RayCastModelHit.t :=
  match ModelInstance.getModel (Renderable.m_model r) with
  | Some model =>
      if castRay_broad_phase r model origin dir then
        let new_hit :=
          Model.castRay model origin dir
            (ModelInstance.getMatrix (Renderable.m_model r)) (Renderable.m_scale r) in
        if RayCastModelHit.m_is_hit new_hit
           && (negb (RayCastModelHit.m_is_hit hit)
               || Rltb (RayCastModelHit.m_t new_hit) (RayCastModelHit.m_t hit))
        then
          RayCastModelHit.mk true (RayCastModelHit.m_t new_hit)
            (Component.mk (Renderable.m_entity r) (crc32 "renderable") i)
        else hit
      else hit
  | None => hit
  end.

Fixpoint castRay_loop (rs : list Renderable.t) (i : Z) (origin dir : Vec3.t)
  (hit : RayCastModelHit.t) : RayCastModelHit.t :=
  match rs with
  | [] => hit
  | r :: rs' => castRay_loop rs' (i + 1)%Z origin dir (castRay_step r i origin dir hit)
  end.

Definition castRay (s : t) (origin dir : Vec3.t) : RayCastModelHit.t :=
  let hit := new_RayCastModelHit env in
  let hit := RayCastModelHit.mk false (RayCastModelHit.m_t hit)
               (RayCastModelHit.m_renderable hit) in
  castRay_loop (m_renderables s) 0%Z origin dir hit.

(** *** Serialization *)

Definition item_int (n : Z) := ISerializer.ArrayItem (ISerializer.VInt n).
Definition item_float (f : R) := ISerializer.ArrayItem (ISerializer.VFloat f).
Definition item_bool (b : bool) := ISerializer.ArrayItem (ISerializer.VBool b).
Definition item_string (str : string) := ISerializer.ArrayItem (ISerializer.VString str).

Definition serializeCamera (c : Camera.t) : ISerializer.stream :=
  [item_float (Camera.m_far c); item_float (Camera.m_near c); item_float (Camera.m_fov c);
   item_bool (Camera.m_is_active c); item_float (Camera.m_width c);
   item_float (Camera.m_height c); item_int (Entity.index (Camera.m_entity c));
   item_string (Camera.m_slot c)].

Definition serializeCameras (s : t) : ISerializer.stream :=
  [ISerializer.Named "camera_count" (ISerializer.VInt (Array.size (m_cameras s)));
   ISerializer.BeginArray "cameras"]
  ++ flat_map serializeCamera (m_cameras s)
  ++ [ISerializer.EndArray].

Definition serializeLight (l : Light.t) : ISerializer.stream :=
  [item_int (Entity.index (Light.m_entity l)); item_int (Light.m_type l)].

Definition serializeLights (s : t) : ISerializer.stream :=
  [ISerializer.Named "light_count" (ISerializer.VInt (Array.size (m_lights s)));
   ISerializer.BeginArray "lights"]
  ++ flat_map serializeLight (m_lights s)
  ++ [ISerializer.EndArray].

Definition serializeRenderable (r : Renderable.t) : ISerializer.stream :=
  [item_int (Entity.index (Renderable.m_entity r));
   item_string
     match ModelInstance.getModel (Renderable.m_model r) with
     | Some model => Model.getPath model
     | None => ""
     end;
   item_float (Renderable.m_scale r)]
  ++ (let mtx := ModelInstance.getMatrix (Renderable.m_model r) in
      map (fun j => item_float (Matrix.at_ mtx j)) (seq 0 16)).

Definition serializeRenderables (s : t) : ISerializer.stream :=
  [ISerializer.Named "renderable_count" (ISerializer.VInt (Array.size (m_renderables s)));
   ISerializer.BeginArray "renderables"]
  ++ flat_map serializeRenderable (m_renderables s)
  ++ [ISerializer.EndArray].

(** [m_material->getPath()] is read without a test: a terrain without
    a material has no record, [None]. *)
Definition serializeTerrain (tr : TerrainData.t) : option ISerializer.stream :=
  match TerrainData.m_material tr with
  | Some material =>
      Some [item_int (Entity.index (TerrainData.m_entity tr));
            item_int (TerrainData.m_layer_mask tr);
            item_string (Material.getPath material);
            item_float (TerrainData.m_xz_scale tr);
            item_float (TerrainData.m_y_scale tr)]
  | None => None
  end.

Fixpoint serializeTerrain_items (ts : list TerrainData.t) : option ISerializer.stream :=
  match ts with
  | [] => Some []
  | tr :: ts' =>
      match serializeTerrain tr, serializeTerrain_items ts' with
      | Some a, Some b => Some (a ++ b)
      | _, _ => None
      end
  end.

Definition serializeTerrains (s : t) : option ISerializer.stream :=
  match serializeTerrain_items (m_terrains s) with
  | Some items =>
      Some ([ISerializer.Named "terrain_count" (ISerializer.VInt (Array.size (m_terrains s)));
             ISerializer.BeginArray "terrains"]
            ++ items ++ [ISerializer.EndArray])
  | None => None
  end.

Definition serialize (s : t) : option ISerializer.stream :=
  match serializeTerrains s with
  | Some terrains =>
      Some (serializeCameras s ++ serializeRenderables s ++ serializeLights s ++ terrains)
  | None => None
  end.

(** *** Deserialization *)

(** [for (int i = first; i < first + n; ++i) body], reading as it goes. *)
Fixpoint for_loop {S : Type} (n : nat) (i : Z)
  (body : Z -> S -> ISerializer.reader S) (s : S) : ISerializer.reader S :=
  match n with
  | O => ISerializer.ret s
  | S n' => s' <- body i s ;; for_loop n' (i + 1)%Z body s'
  end.

(** The element count handed to [Array::resize]; a negative count is
    outside what the array accepts. *)
Definition resize_count (size : Z) : ISerializer.reader nat :=
  if (size <? 0)%Z then ISerializer.fail else ISerializer.ret (Z.to_nat size).

Definition deserializeCamera (i : Z) (s : t) : ISerializer.reader t :=
  far <- ISerializer.deserializeArrayItem_float ;;
  near <- ISerializer.deserializeArrayItem_float ;;
  fov <- ISerializer.deserializeArrayItem_float ;;
  is_active <- ISerializer.deserializeArrayItem_bool ;;
  width <- ISerializer.deserializeArrayItem_float ;;
  height <- ISerializer.deserializeArrayItem_float ;;
  entity_index <- ISerializer.deserializeArrayItem_int ;;
  slot <- ISerializer.deserializeArrayItem_string Camera.MAX_SLOT_LENGTH ;;
  let entity := Entity.mk (m_universe s) entity_index in
  let camera := Camera.mk entity fov (width / height) near far width height is_active slot in
  let s1 := with_cameras s (Array.set (m_cameras s) i camera) in
  ISerializer.ret (snd (addComponent s1 entity CAMERA_HASH i)).

Definition deserializeCameras (s : t) : ISerializer.reader t :=
  size <- ISerializer.deserialize "camera_count" ;;
  _ <- ISerializer.deserializeArrayBegin "cameras" ;;
  n <- resize_count size ;;
  let s1 := with_cameras s (Array.resize (m_cameras s) n (new_Camera env)) in
  s2 <- for_loop n 0%Z deserializeCamera s1 ;;
  _ <- ISerializer.deserializeArrayEnd ;;
  ISerializer.ret s2.

(** The sixteen reads into [(&getMatrix().m11)[j]]. *)
Fixpoint deserializeMatrix (n j : nat) (mtx : Matrix.t) : ISerializer.reader Matrix.t :=
  match n with
  | O => ISerializer.ret mtx
  | S n' =>
      v <- ISerializer.deserializeArrayItem_float ;;
      deserializeMatrix n' (S j) (Matrix.set_at mtx j v)
  end.

Definition deserializeRenderable (i : Z) (s : t) : ISerializer.reader t :=
  match Array.get (m_renderables s) i with
  | Some r =>
      entity_index <- ISerializer.deserializeArrayItem_int ;;
      path <- ISerializer.deserializeArrayItem_string LUMIX_MAX_PATH ;;
      scale <- ISerializer.deserializeArrayItem_float ;;
      let entity := Entity.mk (m_universe s) entity_index in
      let model := ModelInstance.setModel (Renderable.m_model r) (load_model env path) in
      mtx <- deserializeMatrix 16 0 (ModelInstance.getMatrix model) ;;
      let r' := Renderable.mk (ModelInstance.setMatrix model mtx) entity
                  (Renderable.m_layer_mask r) scale in
      let s1 := with_renderables s (Array.set (m_renderables s) i r') in
      ISerializer.ret (snd (addComponent s1 entity RENDERABLE_HASH i))
  | None => ISerializer.fail
  end.

(** The entries from [size] on are deleted, the array is resized, and
    the entries from the old size on are allocated. *)
Definition deserializeRenderables (s : t) : ISerializer.reader t :=
  size <- ISerializer.deserialize "renderable_count" ;;
  _ <- ISerializer.deserializeArrayBegin "renderables" ;;
  n <- resize_count size ;;
  let s1 := with_renderables s (Array.resize (m_renderables s) n (new_Renderable env)) in
  s2 <- for_loop n 0%Z deserializeRenderable s1 ;;
  _ <- ISerializer.deserializeArrayEnd ;;
  ISerializer.ret s2.

Definition deserializeLight (i : Z) (s : t) : ISerializer.reader t :=
  entity_index <- ISerializer.deserializeArrayItem_int ;;
  type <- ISerializer.deserializeArrayItem_int ;;
  let entity := Entity.mk (m_universe s) entity_index in
  let s1 := with_lights s (Array.set (m_lights s) i (Light.mk type entity)) in
  ISerializer.ret (snd (addComponent s1 entity LIGHT_HASH i)).

Definition deserializeLights (s : t) : ISerializer.reader t :=
  size <- ISerializer.deserialize "light_count" ;;
  _ <- ISerializer.deserializeArrayBegin "lights" ;;
  n <- resize_count size ;;
  let s1 := with_lights s (Array.resize (m_lights s) n (new_Light env)) in
  s2 <- for_loop n 0%Z deserializeLight s1 ;;
  _ <- ISerializer.deserializeArrayEnd ;;
  ISerializer.ret s2.

(** The layer mask goes to [m_terrains[cmp.index]], the two scales to
    [m_terrains[i]]. *)
Definition deserializeTerrain (i : Z) (s : t) : ISerializer.reader t :=
  entity_index <- ISerializer.deserializeArrayItem_int ;;
  let e := Entity.mk (m_universe s) entity_index in
  let cmp := fst (createComponent s TERRAIN_HASH e) in
  let s1 := snd (createComponent s TERRAIN_HASH e) in
  match Array.get (m_terrains s1) (Component.index cmp) with
  | Some terrain =>
      layer_mask <- ISerializer.deserializeArrayItem_int ;;
      let s2 := with_terrains s1
                  (Array.set (m_terrains s1) (Component.index cmp)
                     (TerrainData.set_layer_mask terrain layer_mask)) in
      path <- ISerializer.deserializeArrayItem_string LUMIX_MAX_PATH ;;
      match setTerrainMaterial s2 cmp path with
      | Some s3 =>
          xz_scale <- ISerializer.deserializeArrayItem_float ;;
          match Array.get (m_terrains s3) i with
          | Some ti =>
              let s4 := with_terrains s3
                          (Array.set (m_terrains s3) i (TerrainData.set_xz_scale ti xz_scale)) in
              y_scale <- ISerializer.deserializeArrayItem_float ;;
              match Array.get (m_terrains s4) i with
              | Some ti' =>
                  ISerializer.ret
                    (with_terrains s4
                       (Array.set (m_terrains s4) i (TerrainData.set_y_scale ti' y_scale)))
              | None => ISerializer.fail
              end
          | None => ISerializer.fail
          end
      | None => ISerializer.fail
      end
  | None => ISerializer.fail
  end.

Definition deserializeTerrains (s : t) : ISerializer.reader t :=
  size <- ISerializer.deserialize "terrain_count" ;;
  _ <- ISerializer.deserializeArrayBegin "terrains" ;;
  s1 <- for_loop (Z.to_nat size) 0%Z deserializeTerrain s ;;
  _ <- ISerializer.deserializeArrayEnd ;;
  ISerializer.ret s1.

Definition deserialize (s : t) : ISerializer.reader t :=
  s1 <- deserializeCameras s ;;
  s2 <- deserializeRenderables s1 ;;
  s3 <- deserializeLights s2 ;;
  deserializeTerrains s3.

(** *** Cameras *)

(** The loop of [getCameraInSlot] from index [i] on. *)
Fixpoint getCameraInSlot_loop (cs : list Camera.t) (i : Z) (slot : string) : Component.t :=
  match cs with
  | [] => Component.INVALID
  | c :: cs' =>
      if String.eqb (Camera.m_slot c) slot
      then Component.mk (Camera.m_entity c) CAMERA_HASH i
      else getCameraInSlot_loop cs' (i + 1)%Z slot
  end.

Definition getCameraInSlot (s : t) (slot : string) : Component.t :=
  getCameraInSlot_loop (m_cameras s) 0%Z slot.

(** [None]: [camera.index] is outside [m_cameras]. *)
Definition setCameraSize (s : t) (camera : Component.t) (w h : Z) : option t :=
  match Array.get (m_cameras s) (Component.index camera) with
  | Some c =>
      Some (with_cameras s
              (Array.set (m_cameras s) (Component.index camera)
                 (Camera.mk (Camera.m_entity c) (Camera.m_fov c) (IZR w / IZR h)
                    (Camera.m_near c) (Camera.m_far c) (IZR w) (IZR h)
                    (Camera.m_is_active c) (Camera.m_slot c))))
  | None => None
  end.

(** *** Terrains *)

(** The loop of [getTerrainInfos] from index [i] on; [infos] is the array
    the caller hands in. *)
Fixpoint getTerrainInfos_loop (ts : list TerrainData.t) (i : Z) (layer_mask : Z)
  (infos : list TerrainInfo.t) : list TerrainInfo.t :=
  match ts with
  | [] => infos
  | tr :: ts' =>
      getTerrainInfos_loop ts' (i + 1)%Z layer_mask
        (if negb (Z.land (TerrainData.m_layer_mask tr) layer_mask =? 0)%Z
         then Array.push infos
                (TerrainInfo.mk (TerrainData.m_entity tr) (TerrainData.m_material tr) i
                   (TerrainData.m_xz_scale tr) (TerrainData.m_y_scale tr))
         else infos)
  end.

Definition getTerrainInfos (s : t) (infos : list TerrainInfo.t) (layer_mask : Z)
  : list TerrainInfo.t :=
  getTerrainInfos_loop (m_terrains s) 0%Z layer_mask infos.

(** *** Debug shapes *)

Definition addDebugCube (s : t) (from : Vec3.t) (size : R) (color : Vec3.t) (life : R) : t :=
  let a := from in
  let b := from in
  let b := Vec3.set (Vec3.x b + size) (Vec3.y b) (Vec3.z b) in
  let s := addDebugLine s a b color life in
  let a := Vec3.set (Vec3.x b) (Vec3.y b) (Vec3.z b + size) in
  let s := addDebugLine s a b color life in
  let b := Vec3.set (Vec3.x a - size) (Vec3.y a) (Vec3.z a) in
  let s := addDebugLine s a b color life in
  let a := Vec3.set (Vec3.x b) (Vec3.y b) (Vec3.z b - size) in
  let s := addDebugLine s a b color life in
  let a := from in
  let a := Vec3.set (Vec3.x a) (Vec3.y a + size) (Vec3.z a) in
  let b := a in
  let b := Vec3.set (Vec3.x b + size) (Vec3.y b) (Vec3.z b) in
  let s := addDebugLine s a b color life in
  let a := Vec3.set (Vec3.x b) (Vec3.y b) (Vec3.z b + size) in
  let s := addDebugLine s a b color life in
  let b := Vec3.set (Vec3.x a - size) (Vec3.y a) (Vec3.z a) in
  let s := addDebugLine s a b color life in
  let a := Vec3.set (Vec3.x b) (Vec3.y b) (Vec3.z b - size) in
  addDebugLine s a b color life.

(** The loop of [addDebugCircle], [n] passes from [i] on; the state is the
    scene with [prevx] and [prevz].  [cosf], [sinf] and [Math::PI] are the
    real cosine, sine and pi. *)
Fixpoint addDebugCircle_loop (n : nat) (i : Z) (center : Vec3.t) (radius : R)
  (color : Vec3.t) (life : R) (s : t) (prevx prevz : R) : t :=
  match n with
  | O => s
  | S n' =>
      let a := IZR i / 64 * 2 * PI in
      let x := cos a * radius in
      let z := sin a * radius in
      let s := addDebugLine s (Vec3.add center (Vec3.set x 0 z))
                 (Vec3.add center (Vec3.set prevx 0 prevz)) color life in
      addDebugCircle_loop n' (i + 1)%Z center radius color life s x z
  end.

(** [for (int i = 1; i < 64; ++i)]: 63 passes. *)
Definition addDebugCircle (s : t) (center : Vec3.t) (radius : R) (color : Vec3.t) (life : R)
  : t :=
  addDebugCircle_loop 63 1%Z center radius color life s radius 0.

End WithEnvironment.
End RenderSceneImpl.

(** * Specification vocabulary *)

(** ** Footprints *)

(** The closed square a node stands on, [[minX, minX+S] x [minZ, minZ+S]]. *)
Definition in_footprint (m_min : Vec3.t) (S : R) (px pz : R) : Prop :=
  Vec3.x m_min <= px <= Vec3.x m_min + S /\ Vec3.z m_min <= pz <= Vec3.z m_min + S.

(** The Euclidean distance in the xz-plane from the camera to a point. *)
Definition dist_xz (camera_pos : Vec3.t) (px pz : R) : R :=
  sqrt ((Vec3.x camera_pos - px) * (Vec3.x camera_pos - px)
        + (Vec3.z camera_pos - pz) * (Vec3.z camera_pos - pz)).

(** The point of the span [[lo, lo + S]] nearest to [c]. *)
Definition clamp (lo S c : R) : R :=
  if Rltb c lo then lo else if Rgtb c (lo + S) then lo + S else c.

(** A span with its far end left out, [[lo, lo + len)]. *)
Definition span (lo len p : R) : bool := Rleb lo p && Rltb p (lo + len).

(** The same square with its far edges left out, so that the four
    quadrants of a square share no point: a point is counted for the
    quadrant whose near edges it lies on. *)
Definition covers (m_min : Vec3.t) (S : R) (px pz : R) : bool :=
  span (Vec3.x m_min) S px && span (Vec3.z m_min) S pz.

(** ** Nodes of a quad-tree *)

Definition node_min (q : TerrainQuad.ptr) : Vec3.t :=
  match q with
  | TerrainQuad.NULL => Vec3.set 0 0 0
  | TerrainQuad.Quad m_min _ _ _ _ _ _ => m_min
  end.

Definition node_size (q : TerrainQuad.ptr) : R :=
  match q with
  | TerrainQuad.NULL => 0
  | TerrainQuad.Quad _ m_size _ _ _ _ _ => m_size
  end.

Definition node_lod (q : TerrainQuad.ptr) : Z :=
  match q with
  | TerrainQuad.NULL => 0%Z
  | TerrainQuad.Quad _ _ m_lod _ _ _ _ => m_lod
  end.

(** Every node reachable from a pointer, the pointed-to node first. *)
Fixpoint nodes (q : TerrainQuad.ptr) : list TerrainQuad.ptr :=
  match q with
  | TerrainQuad.NULL => []
  | TerrainQuad.Quad _ _ _ c0 c1 c2 c3 => q :: nodes c0 ++ nodes c1 ++ nodes c2 ++ nodes c3
  end.

Definition has_children (q : TerrainQuad.ptr) : Prop :=
  forall i, TerrainQuad.m_children q i <> TerrainQuad.NULL.

Definition childless (q : TerrainQuad.ptr) : Prop :=
  forall i, TerrainQuad.m_children q i = TerrainQuad.NULL.

(** The min corner of the quadrant a child type names. *)
Definition quadrant_min (m_min : Vec3.t) (S : R) (i : TerrainQuad.ChildType) : R * R :=
  match i with
  | TerrainQuad.TOP_LEFT => (Vec3.x m_min, Vec3.z m_min)
  | TerrainQuad.TOP_RIGHT => (Vec3.x m_min + S / 2, Vec3.z m_min)
  | TerrainQuad.BOTTOM_LEFT => (Vec3.x m_min, Vec3.z m_min + S / 2)
  | TerrainQuad.BOTTOM_RIGHT => (Vec3.x m_min + S / 2, Vec3.z m_min + S / 2)
  end.

(** What holds of one node: the conjuncts of the invariant that do not
    mention the root. *)
Definition node_ok (q : TerrainQuad.ptr) : Prop :=
  (has_children q <-> (node_lod q < 8)%Z /\ node_size q > 16)
  /\ (has_children q \/ childless q)
  /\ (forall i, TerrainQuad.m_children q i <> TerrainQuad.NULL ->
        node_size (TerrainQuad.m_children q i) = node_size q / 2
        /\ node_lod (TerrainQuad.m_children q i) = (node_lod q + 1)%Z
        /\ (Vec3.x (node_min (TerrainQuad.m_children q i)), Vec3.z (node_min (TerrainQuad.m_children q i)))
           = quadrant_min (node_min q) (node_size q) i)
  /\ (has_children q ->
      forall px pz,
        covers (node_min q) (node_size q) px pz = true
        <-> exists! i, covers (node_min (TerrainQuad.m_children q i)) (node_size (TerrainQuad.m_children q i))
                         px pz = true)
  /\ (childless q -> node_size q <= 16 \/ node_lod q = 8%Z).

(** ** What a draw call puts on the ground *)

(** Modelled from the spec: the shader is not under src/.  A draw of the
    index range [draw_first, draw_first + draw_count) is the sub-grid
    generated by the call of [generateSubgrid] that wrote this range; its
    vertices span eight of the sixteen grid cells from the sub-grid's
    offset in each direction, and the shader places the unit grid at
    [quad_min] with extent [quad_size]. *)
Definition draw_covers (px pz : R) (d : TerrainQuad.DrawCall) : bool :=
  let k := (TerrainQuad.draw_first d / TerrainQuad.draw_count d)%Z in
  let g := IZR Terrain.GRID_SIZE in
  let sx := IZR (fst (Terrain.subgrid_start k)) in
  let sy := IZR (snd (Terrain.subgrid_start k)) in
  let mn := TerrainQuad.quad_min d in
  let S := TerrainQuad.quad_size d in
  span (Vec3.x mn + S * (sx / g)) (S * (8 / g)) px
  && span (Vec3.z mn + S * (sy / g)) (S * (8 / g)) pz.

(** How many of the draw calls put geometry over the point. *)
Definition drawn_over (px pz : R) (draws : list TerrainQuad.DrawCall) : nat :=
  length (filter (draw_covers px pz) draws).

(** The area of the quadrant a draw call puts on the ground. *)
Definition draw_area (d : TerrainQuad.DrawCall) : R :=
  (TerrainQuad.quad_size d / 2) * (TerrainQuad.quad_size d / 2).

Definition drawn_area (draws : list TerrainQuad.DrawCall) : R :=
  fold_right (fun d acc => draw_area d + acc) 0 draws.

(** The number of nodes of a full quad-tree with [depth] levels below its
    root: 1 + 4 + ... + 4^depth. *)
Fixpoint quad_bound (depth : nat) : nat :=
  match depth with
  | O => 1
  | S depth' => 1 + 4 * quad_bound depth'
  end.

(** ** The terrain grid *)

(** The grid coordinates of vertex [idx] of the vertex buffer: vertex
    [4 * c + k] is corner [k] of cell [c], the cells being numbered row by
    row, sixteen to a row, and the corners going round the cell from its
    min corner. *)
Definition grid_x (idx : Z) : Z :=
  ((idx / 4) mod Terrain.GRID_SIZE
   + (if (idx mod 4 =? 1) || (idx mod 4 =? 2) then 1 else 0))%Z.

Definition grid_z (idx : Z) : Z :=
  ((idx / 4) / Terrain.GRID_SIZE
   + (if (idx mod 4 =? 2) || (idx mod 4 =? 3) then 1 else 0))%Z.

Definition grid_vertex (n : nat) : Vec3.t :=
  Vec3.set (IZR (grid_x (Z.of_nat n)) / IZR Terrain.GRID_SIZE) 0
    (IZR (grid_z (Z.of_nat n)) / IZR Terrain.GRID_SIZE).

(** Entry [p] of an index buffer names a vertex of the buffer that lies in
    the sub-grid of the quarter [p] falls in. *)
Definition index_in_quarter (ids : list Z) (p : nat) : bool :=
  match nth_error ids p with
  | Some idx =>
      let k := (Z.of_nat p / (Terrain.index_count / 4))%Z in
      let sx := fst (Terrain.subgrid_start k) in
      let sy := snd (Terrain.subgrid_start k) in
      (0 <=? idx)%Z && (idx <? 1024)%Z
      && (sx <=? grid_x idx)%Z && (grid_x idx <=? sx + 8)%Z
      && (sy <=? grid_z idx)%Z && (grid_z idx <=? sy + 8)%Z
  | None => false
  end.

(** A child pointer is either [NULL] or a node of half the size at the
    min corner of its quadrant; [tree_ok] asks this of every child pointer
    below a node. *)
Definition child_ok (m_min : Vec3.t) (S : R) (i : TerrainQuad.ChildType)
  (c : TerrainQuad.ptr) : Prop :=
  c = TerrainQuad.NULL
  \/ (node_size c = S / 2
      /\ (Vec3.x (node_min c), Vec3.z (node_min c)) = quadrant_min m_min S i).

Fixpoint tree_ok (q : TerrainQuad.ptr) : Prop :=
  match q with
  | TerrainQuad.NULL => True
  | TerrainQuad.Quad m_min m_size _ c0 c1 c2 c3 =>
      (child_ok m_min m_size TerrainQuad.TOP_LEFT c0 /\ tree_ok c0)
      /\ (child_ok m_min m_size TerrainQuad.TOP_RIGHT c1 /\ tree_ok c1)
      /\ (child_ok m_min m_size TerrainQuad.BOTTOM_LEFT c2 /\ tree_ok c2)
      /\ (child_ok m_min m_size TerrainQuad.BOTTOM_RIGHT c3 /\ tree_ok c3)
  end.

(** The quadrant a child index stands for, as spans. *)
Definition quadrant_covers (m_min : Vec3.t) (S : R) (i : TerrainQuad.ChildType) (px pz : R) : bool :=
  span (fst (quadrant_min m_min S i)) (S / 2) px
  && span (snd (quadrant_min m_min S i)) (S / 2) pz.

(** ** Ray casting *)

(** The point [origin + t * dir] of the ray lies within [radius] of
    [center]. *)
Definition ray_point_within (center : Vec3.t) (radius : R) (origin dir : Vec3.t)
  (t : R) : Prop :=
  let p := Vec3.sub (Vec3.add origin (Vec3.mul dir t)) center in
  dotProduct p p <= radius * radius.

(** The narrow-phase outcome for one renderable: the hit parameter its
    model's own ray cast reports, when the renderable has a model and
    passes the broad phase; [None] otherwise. *)
Definition narrow_hit (r : Renderable.t) (origin dir : Vec3.t) : option R :=
  match ModelInstance.getModel (Renderable.m_model r) with
  | Some model =>
      if RenderSceneImpl.castRay_broad_phase r model origin dir then
        let h := Model.castRay model origin dir
                   (ModelInstance.getMatrix (Renderable.m_model r)) (Renderable.m_scale r) in
        if RayCastModelHit.m_is_hit h then Some (RayCastModelHit.m_t h) else None
      else None
  | None => None
  end.

(** [hit] is the closest narrow-phase hit among [rs]: either nothing is
    hit and [m_is_hit] is false, or [hit] is the outcome for the renderable
    at some index [i], no outcome is smaller, and every outcome at an
    earlier index is strictly larger. *)
Definition closest_of (rs : list Renderable.t) (origin dir : Vec3.t)
  (hit : RayCastModelHit.t) : Prop :=
  (RayCastModelHit.m_is_hit hit = false
   /\ forall k r, nth_error rs k = Some r -> narrow_hit r origin dir = None)
  \/ (RayCastModelHit.m_is_hit hit = true
      /\ exists i r t,
           nth_error rs i = Some r
           /\ narrow_hit r origin dir = Some t
           /\ RayCastModelHit.m_t hit = t
           /\ RayCastModelHit.m_renderable hit
              = Component.mk (Renderable.m_entity r) RENDERABLE_HASH (Z.of_nat i)
           /\ forall j r' t',
                nth_error rs j = Some r' -> narrow_hit r' origin dir = Some t' ->
                t <= t' /\ ((j < i)%nat -> t < t')).

(** ** An example scene for ray casts

    Two renderables on the ray from the origin along z, the first at
    distance 10 and the second at distance 5, each with a model of
    bounding radius 1 whose ray cast reports a hit at that distance; and
    an environment whose fresh objects are zeroed. *)
Definition far_model : Model.t :=
  Model.mk "far.msh" 1 (fun _ _ _ _ => RayCastModelHit.mk true 10 Component.INVALID).
Definition near_model : Model.t :=
  Model.mk "near.msh" 1 (fun _ _ _ _ => RayCastModelHit.mk true 5 Component.INVALID).
Definition at_z (d : R) : Matrix.t := Matrix.mk 1 0 0 0 0 1 0 0 0 0 1 0 0 0 d 1.
Definition far_r : Renderable.t :=
  Renderable.mk (ModelInstance.mk (Some far_model) (at_z 10)) (Entity.mk 1 20) 1 1.
Definition near_r : Renderable.t :=
  Renderable.mk (ModelInstance.mk (Some near_model) (at_z 5)) (Entity.mk 1 21) 1 1.
Definition along_z : Vec3.t := Vec3.set 0 0 1.
Definition zeroed_env : Environment :=
  mkEnvironment
    (Renderable.mk (ModelInstance.mk None (at_z 0)) (Entity.mk 0 0) 0 0)
    (Camera.mk (Entity.mk 0 0) 0 0 0 0 0 0 false "")
    (Light.mk 0 (Entity.mk 0 0))
    (RayCastModelHit.mk false 0 Component.INVALID)
    (fun path => if String.eqb path "" then None
                 else Some (Model.mk path 1
                              (fun _ _ _ _ => RayCastModelHit.mk false 0 Component.INVALID)))
    (fun path => Some (Material.mk path))
    (fun _ => at_z 0).

(** ** Debug lines *)

(** A line [update(dt)] does not erase: its stored lifetime less [dt] is
    not below zero. *)
Definition expires_not (dt : R) (line : DebugLine.t) : bool :=
  negb (Rltb (DebugLine.m_life line - dt) 0).

(** ** Terrain infos *)

(** What [getTerrainInfos] appends for the terrain at index [i]: its info
    when the layer masks share a bit, nothing otherwise. *)
Definition terrain_info (layer_mask : Z) (it : nat * TerrainData.t) : list TerrainInfo.t :=
  if negb (Z.land (TerrainData.m_layer_mask (snd it)) layer_mask =? 0)%Z
  then [TerrainInfo.mk (TerrainData.m_entity (snd it)) (TerrainData.m_material (snd it))
          (Z.of_nat (fst it)) (TerrainData.m_xz_scale (snd it))
          (TerrainData.m_y_scale (snd it))]
  else [].

(** ** Reading records into a registry *)

(** The entries of a registry after one record has been read into each of
    its first entries: [upd x old] is the entry that held [old] once the
    record of [x] has been read into it. *)
Fixpoint zip_entries {T : Type} (upd : T -> T -> T) (xs olds : list T) : list T :=
  match xs, olds with
  | x :: xs', old :: olds' => upd x old :: zip_entries upd xs' olds'
  | _, _ => olds
  end.

(** A camera that deserialization gives back as it was written by a scene
    of universe [u]: its entity belongs to [u], its cached aspect is
    width / height, and its slot fits the buffer. *)
Definition camera_restorable (u : Z) (c : Camera.t) : Prop :=
  Entity.universe (Camera.m_entity c) = u
  /\ Camera.m_aspect c = Camera.m_width c / Camera.m_height c
  /\ (String.length (Camera.m_slot c) <= Camera.MAX_SLOT_LENGTH)%nat.

(** The path [serializeRenderables] writes for a renderable. *)
Definition renderable_path (r : Renderable.t) : string :=
  match ModelInstance.getModel (Renderable.m_model r) with
  | Some model => Model.getPath model
  | None => ""
  end.

(** Entry [old] of the registry once the record of the renderable [x] has
    been read into it: entity, scale and matrix are the written ones, the
    model is the one loaded for the written path, and the layer mask is the
    entry's own. *)
Definition restored_renderable (env : Environment) (x old : Renderable.t) : Renderable.t :=
  Renderable.mk
    (ModelInstance.mk
       (load_model env (substring 0 LUMIX_MAX_PATH (renderable_path x)))
       (ModelInstance.getMatrix (Renderable.m_model x)))
    (Renderable.m_entity x) (Renderable.m_layer_mask old) (Renderable.m_scale x).

(** The terrain that reading the record of [tr] creates in a scene of
    universe [u]: a terrain as [createComponent] makes it for the written
    entity index, with the written layer mask and scales and the material
    loaded for the written path. *)
Definition restored_terrain (env : Environment) (u : Z) (tr : TerrainData.t)
  : TerrainData.t :=
  let path :=
    substring 0 LUMIX_MAX_PATH
      match TerrainData.m_material tr with
      | Some material => Material.getPath material
      | None => ""
      end in
  let e := Entity.mk u (Entity.index (TerrainData.m_entity tr)) in
  TerrainData.mk 0 0 (load_material env path)
    (Some (Mesh.mk (load_material env path) Terrain.index_count))
    (entity_getMatrix env e) e (TerrainData.m_layer_mask tr) TerrainQuad.NULL
    (TerrainData.m_xz_scale tr) (TerrainData.m_y_scale tr).

(** ** Debug circles *)

(** The point lies at the height of [center] and at distance [radius]
    from it. *)
Definition on_circle (center : Vec3.t) (radius : R) (p : Vec3.t) : Prop :=
  Vec3.y p = Vec3.y center
  /\ (Vec3.x p - Vec3.x center) * (Vec3.x p - Vec3.x center)
     + (Vec3.z p - Vec3.z center) * (Vec3.z p - Vec3.z center)
     = radius * radius.

(** * Facts *)

(** ** Boolean comparisons *)

Lemma Rltb_true (a b : R) : Rltb a b = true <-> a < b.
Proof. unfold Rltb. destruct (Rlt_dec a b); split; intros; try easy. Qed.

Lemma Rltb_false (a b : R) : Rltb a b = false <-> b <= a.
Proof.
  unfold Rltb. destruct (Rlt_dec a b); split; intros; try easy; lra.
Qed.

Lemma Rleb_true (a b : R) : Rleb a b = true <-> a <= b.
Proof. unfold Rleb. destruct (Rle_dec a b); split; intros; try easy. Qed.

Lemma Rleb_false (a b : R) : Rleb a b = false <-> b < a.
Proof.
  unfold Rleb. destruct (Rle_dec a b); split; intros; try easy; lra.
Qed.

Lemma Rgtb_true (a b : R) : Rgtb a b = true <-> a > b.
Proof. unfold Rgtb. rewrite Rltb_true. lra. Qed.

Lemma Rgtb_false (a b : R) : Rgtb a b = false <-> a <= b.
Proof. unfold Rgtb. rewrite Rltb_false. lra. Qed.

(** Decide every comparison in sight and keep the consistent cases. *)
Ltac cmp_cases :=
  repeat match goal with
    | |- context [Rltb ?a ?b] =>
        let E := fresh "E" in
        destruct (Rltb a b) eqn:E;
        [apply Rltb_true in E | apply Rltb_false in E]; try (exfalso; lra)
    | |- context [Rleb ?a ?b] =>
        let E := fresh "E" in
        destruct (Rleb a b) eqn:E;
        [apply Rleb_true in E | apply Rleb_false in E]; try (exfalso; lra)
    end.

(** ** [getRadiusOuter] *)

Section Radius.

Lemma sqrt_double_square_mono (a b : R) :
  0 <= a -> a <= b -> sqrt (2 * a * a) <= sqrt (2 * b * b).
Proof. intros Ha Hab. apply sqrt_le_1_alt. nra. Qed.

(** C9. For every positive size the outer radius is positive, and the
    outer radius does not decrease when the size grows, also across the
    switch of the factor at 17. *)
Theorem getRadiusOuter_positive_monotone (S1 S2 : R) :
  0 < S1 -> S1 <= S2 ->
  0 < TerrainQuad.getRadiusOuter S1
  /\ TerrainQuad.getRadiusOuter S1 <= TerrainQuad.getRadiusOuter S2.
Proof.
  intros Hpos Hle.
  pose proof (sqrt_double_square_mono S1 S2 (Rlt_le _ _ Hpos) Hle) as Hm.
  pose proof (sqrt_pos (2 * S1 * S1)) as H1.
  pose proof (sqrt_pos (2 * S2 * S2)) as H2.
  unfold TerrainQuad.getRadiusOuter, Rgtb.
  split; cmp_cases; lra.
Qed.

Lemma getRadiusOuter_positive_monotone_witness :
  0 < 17 /\ 17 <= 18
  /\ 0 < TerrainQuad.getRadiusOuter 17
  /\ TerrainQuad.getRadiusOuter 17 <= TerrainQuad.getRadiusOuter 18.
Proof.
  split; [lra | split; [lra |]].
  apply (getRadiusOuter_positive_monotone 17 18); lra.
Defined.

End Radius.

(** ** [getDistance] *)

Section Distance.

Lemma square_gap_le (c p q : R) :
  (c <= p <= q \/ q <= p <= c) -> (c - p) * (c - p) <= (c - q) * (c - q).
Proof. intros [[H1 H2] | [H1 H2]]; nra. Qed.

Lemma dist_xz_le (cam : Vec3.t) (px pz qx qz : R) :
  (Vec3.x cam - px) * (Vec3.x cam - px) <= (Vec3.x cam - qx) * (Vec3.x cam - qx) ->
  (Vec3.z cam - pz) * (Vec3.z cam - pz) <= (Vec3.z cam - qz) * (Vec3.z cam - qz) ->
  dist_xz cam px pz <= dist_xz cam qx qz.
Proof. intros Hx Hz. unfold dist_xz. apply sqrt_le_1_alt. lra. Qed.

Lemma clamp_in (lo S c : R) : 0 <= S -> lo <= clamp lo S c <= lo + S.
Proof. intros HS. unfold clamp, Rgtb. cmp_cases; lra. Qed.

Lemma clamp_nearest (lo S c q : R) :
  0 <= S -> lo <= q <= lo + S ->
  (c - clamp lo S c) * (c - clamp lo S c) <= (c - q) * (c - q).
Proof.
  intros HS Hq. unfold clamp, Rgtb. cmp_cases; apply square_gap_le; lra.
Qed.

Lemma getDistance_clamp (m_min : Vec3.t) (S : R) (cam : Vec3.t) :
  0 <= S ->
  TerrainQuad.getDistance m_min S cam
  = dist_xz cam (clamp (Vec3.x m_min) S (Vec3.x cam)) (clamp (Vec3.z m_min) S (Vec3.z cam)).
Proof.
  intros HS. unfold TerrainQuad.getDistance, dist_xz, clamp, Rgtb. cbn.
  cmp_cases; f_equal; ring.
Qed.

(** C8. For a node of size [S >= 0], [getDistance] is 0 exactly when the
    camera's (x,z) lies in the node's square, and it always is the
    Euclidean distance in the xz-plane from the camera to a nearest point
    of that square; the camera's y plays no part. *)
Theorem getDistance_nearest_point (m_min : Vec3.t) (S : R) (camera_pos : Vec3.t) :
  0 <= S ->
  (TerrainQuad.getDistance m_min S camera_pos = 0
   <-> in_footprint m_min S (Vec3.x camera_pos) (Vec3.z camera_pos))
  /\ exists px pz,
       in_footprint m_min S px pz
       /\ TerrainQuad.getDistance m_min S camera_pos = dist_xz camera_pos px pz
       /\ forall qx qz, in_footprint m_min S qx qz ->
                        dist_xz camera_pos px pz <= dist_xz camera_pos qx qz.
Proof.
  intros HS. split.
  - rewrite (getDistance_clamp _ _ _ HS). unfold dist_xz, in_footprint. split.
    + intros H0.
      apply sqrt_eq_0 in H0; [| apply Rplus_le_le_0_compat; apply Rle_0_sqr].
      apply Rplus_sqr_eq_0 in H0. destruct H0 as [Hx Hz].
      apply Rminus_diag_uniq in Hx. apply Rminus_diag_uniq in Hz.
      rewrite Hx, Hz. split; apply clamp_in; exact HS.
    + intros [Hx Hz].
      replace (clamp (Vec3.x m_min) S (Vec3.x camera_pos)) with (Vec3.x camera_pos)
        by (unfold clamp, Rgtb; cmp_cases; lra).
      replace (clamp (Vec3.z m_min) S (Vec3.z camera_pos)) with (Vec3.z camera_pos)
        by (unfold clamp, Rgtb; cmp_cases; lra).
      rewrite <- sqrt_0. f_equal. ring.
  - exists (clamp (Vec3.x m_min) S (Vec3.x camera_pos)),
           (clamp (Vec3.z m_min) S (Vec3.z camera_pos)).
    split; [| split].
    + split; apply clamp_in; exact HS.
    + apply getDistance_clamp; exact HS.
    + intros qx qz [Hqx Hqz]. apply dist_xz_le; apply clamp_nearest; assumption.
Qed.

Lemma getDistance_nearest_point_witness :
  0 <= 32
  /\ (TerrainQuad.getDistance (Vec3.set 0 0 0) 32 (Vec3.set 35 7 (-4)) = 0
      <-> in_footprint (Vec3.set 0 0 0) 32 35 (-4))
  /\ exists px pz,
       in_footprint (Vec3.set 0 0 0) 32 px pz
       /\ TerrainQuad.getDistance (Vec3.set 0 0 0) 32 (Vec3.set 35 7 (-4))
          = dist_xz (Vec3.set 35 7 (-4)) px pz
       /\ forall qx qz, in_footprint (Vec3.set 0 0 0) 32 qx qz ->
                        dist_xz (Vec3.set 35 7 (-4)) px pz
                        <= dist_xz (Vec3.set 35 7 (-4)) qx qz.
Proof.
  split; [lra |].
  apply (getDistance_nearest_point (Vec3.set 0 0 0) 32 (Vec3.set 35 7 (-4))).
  lra.
Defined.

End Distance.

(** ** The quad-tree [generateQuadTree] builds *)

Section QuadTree.

Import TerrainQuad.

Lemma span_true (lo len p : R) : span lo len p = true <-> lo <= p < lo + len.
Proof. unfold span. rewrite andb_true_iff, Rleb_true, Rltb_true. tauto. Qed.

Lemma covers_true (m_min : Vec3.t) (S px pz : R) :
  covers m_min S px pz = true
  <-> (Vec3.x m_min <= px < Vec3.x m_min + S) /\ (Vec3.z m_min <= pz < Vec3.z m_min + S).
Proof. unfold covers. rewrite andb_true_iff, !span_true. tauto. Qed.

(** [createChildren] satisfies the equation the source is written as. *)
Lemma createChildren_eq (m_min : Vec3.t) (m_size : R) (m_lod : Z) :
  createChildren m_min m_size m_lod
  = if (m_lod <? 8)%Z && Rgtb m_size 16 then
      Quad m_min m_size m_lod
        (createChildren m_min (m_size / 2) (m_lod + 1))
        (createChildren (Vec3.set (Vec3.x m_min + m_size / 2) 0 (Vec3.z m_min))
           (m_size / 2) (m_lod + 1))
        (createChildren (Vec3.set (Vec3.x m_min) 0 (Vec3.z m_min + m_size / 2))
           (m_size / 2) (m_lod + 1))
        (createChildren (Vec3.set (Vec3.x m_min + m_size / 2) 0 (Vec3.z m_min + m_size / 2))
           (m_size / 2) (m_lod + 1))
    else Quad m_min m_size m_lod NULL NULL NULL NULL.
Proof.
  unfold createChildren.
  destruct (Z.lt_ge_cases m_lod 8) as [Hlod | Hlod].
  - replace (Z.to_nat (8 - m_lod)) with (S (Z.to_nat (8 - (m_lod + 1)))) by lia.
    reflexivity.
  - replace (Z.to_nat (8 - m_lod)) with O by lia.
    replace (m_lod <? 8)%Z with false by (symmetry; apply Z.ltb_ge; lia).
    reflexivity.
Qed.

Lemma createChildren_rec_fields (depth : nat) (m_min : Vec3.t) (m_size : R) (m_lod : Z) :
  let q := createChildren_rec depth m_min m_size m_lod in
  q <> NULL /\ node_min q = m_min /\ node_size q = m_size /\ node_lod q = m_lod.
Proof.
  destruct depth; cbn; [repeat split; discriminate |].
  destruct ((m_lod <? 8)%Z && Rgtb m_size 16); repeat split; discriminate.
Qed.

Lemma nodes_self (q : ptr) : q <> NULL -> In q (nodes q).
Proof. destruct q; [congruence | intros _; left; reflexivity]. Qed.

Lemma leaf_ok (m_min : Vec3.t) (m_size : R) (m_lod : Z) :
  (m_lod <= 8)%Z ->
  (m_lod <? 8)%Z && Rgtb m_size 16 = false ->
  node_ok (Quad m_min m_size m_lod NULL NULL NULL NULL).
Proof.
  intros Hle Hcond.
  assert (Hno : ~ has_children (Quad m_min m_size m_lod NULL NULL NULL NULL)).
  { intros H. exact (H TOP_LEFT eq_refl). }
  assert (Hstop : m_size <= 16 \/ m_lod = 8%Z).
  { apply andb_false_iff in Hcond. destruct Hcond as [H | H].
    - apply Z.ltb_ge in H. right. lia.
    - apply Rgtb_false in H. left. exact H. }
  unfold node_ok; cbn [node_lod node_size node_min].
  split; [| split; [| split; [| split]]].
  - split; [intros H; contradiction |].
    intros [H1 H2]. exfalso. destruct Hstop; [lra | lia].
  - right. intros i. destruct i; reflexivity.
  - intros i Hi. exfalso. destruct i; cbn in Hi; congruence.
  - intros H. contradiction.
  - intros _. exact Hstop.
Qed.

Lemma quadrants_partition (q : ptr) :
  0 < node_size q ->
  (forall i,
      node_size (m_children q i) = node_size q / 2
      /\ (Vec3.x (node_min (m_children q i)), Vec3.z (node_min (m_children q i)))
         = quadrant_min (node_min q) (node_size q) i) ->
  forall px pz,
    covers (node_min q) (node_size q) px pz = true
    <-> exists! i, covers (node_min (m_children q i)) (node_size (m_children q i))
                     px pz = true.
Proof.
  intros HS Hq px pz.
  assert (Hc : forall i,
             covers (node_min (m_children q i)) (node_size (m_children q i)) px pz = true
             <-> (fst (quadrant_min (node_min q) (node_size q) i) <= px
                  < fst (quadrant_min (node_min q) (node_size q) i) + node_size q / 2)
                 /\ (snd (quadrant_min (node_min q) (node_size q) i) <= pz
                     < snd (quadrant_min (node_min q) (node_size q) i) + node_size q / 2)).
  { intros i. destruct (Hq i) as [Es Em]. rewrite covers_true, Es, <- Em. reflexivity. }
  rewrite covers_true. split.
  - intros [Hx Hz].
    destruct (Rlt_dec px (Vec3.x (node_min q) + node_size q / 2)) as [Lx | Lx];
      destruct (Rlt_dec pz (Vec3.z (node_min q) + node_size q / 2)) as [Lz | Lz];
      [exists TOP_LEFT | exists BOTTOM_LEFT | exists TOP_RIGHT | exists BOTTOM_RIGHT];
      (split; [apply Hc; cbn; lra |]);
      intros j Hj; apply Hc in Hj; destruct j; cbn in Hj;
      try reflexivity; exfalso; lra.
  - intros [i [Hi _]]. apply Hc in Hi. destruct i; cbn in Hi; lra.
Qed.

Lemma createChildren_rec_ok (depth : nat) :
  forall (m_min : Vec3.t) (m_size : R) (m_lod : Z),
    depth = Z.to_nat (8 - m_lod) -> (m_lod <= 8)%Z ->
    forall q, In q (nodes (createChildren_rec depth m_min m_size m_lod)) ->
              node_ok q /\ (m_lod <= node_lod q <= 8)%Z.
Proof.
  induction depth as [| depth IH]; intros m_min m_size m_lod Hd Hle q Hin.
  - cbn in Hin. destruct Hin as [<- | []].
    split; [| cbn; lia].
    apply leaf_ok; [exact Hle |].
    replace (m_lod <? 8)%Z with false; [reflexivity |].
    symmetry. apply Z.ltb_ge. lia.
  - cbn [createChildren_rec] in Hin.
    destruct ((m_lod <? 8)%Z && Rgtb m_size 16) eqn:Hcond.
    + apply andb_true_iff in Hcond. destruct Hcond as [Hlod Hsize].
      apply Z.ltb_lt in Hlod. apply Rgtb_true in Hsize.
      assert (Hd' : depth = Z.to_nat (8 - (m_lod + 1))) by lia.
      assert (Hle' : (m_lod + 1 <= 8)%Z) by lia.
      cbn [nodes In] in Hin. rewrite !in_app_iff in Hin.
      destruct Hin as [<- | [Hin | [Hin | [Hin | Hin]]]];
        try (destruct (IH _ _ _ Hd' Hle' q Hin) as [Hok Hb]; split; [exact Hok | lia]).
      split; [| cbn; lia].
      match goal with |- node_ok ?Q => set (root := Q) end.
      assert (Hchild : forall i,
                 m_children root i <> NULL
                 /\ node_size (m_children root i) = node_size root / 2
                 /\ node_lod (m_children root i) = (node_lod root + 1)%Z
                 /\ (Vec3.x (node_min (m_children root i)),
                     Vec3.z (node_min (m_children root i)))
                    = quadrant_min (node_min root) (node_size root) i).
      { intros i. destruct i; cbn [root m_children node_size node_lod node_min quadrant_min];
          match goal with
          | |- context [createChildren_rec ?d ?c ?s ?l] =>
              destruct (createChildren_rec_fields d c s l) as (Hn & -> & -> & ->)
          end; repeat split; exact Hn. }
      assert (Hhas : has_children root) by (intros i; apply Hchild).
      unfold node_ok. split; [| split; [| split; [| split]]].
      * split; [intros _; cbn; split; [lia | lra] | intros _; exact Hhas].
      * left. exact Hhas.
      * intros i _. apply Hchild.
      * intros _. apply quadrants_partition; [cbn; lra |].
        intros i. split; apply Hchild.
      * intros Hnone. exfalso. exact (Hhas TOP_LEFT (Hnone TOP_LEFT)).
    + cbn in Hin. destruct Hin as [<- | []].
      split; [| cbn; lia].
      apply leaf_ok; assumption.
Qed.

Lemma generateQuadTree_root (size : R) :
  let root := Terrain.generateQuadTree size in
  In root (nodes root)
  /\ node_lod root = 1%Z /\ node_size root = size
  /\ Vec3.x (node_min root) = 0 /\ Vec3.z (node_min root) = 0.
Proof.
  unfold Terrain.generateQuadTree, createChildren.
  destruct (createChildren_rec_fields (Z.to_nat (8 - 1)) (Vec3.set 0 0 0) size 1)
    as (Hn & Hm & Hs & Hl).
  cbv zeta. rewrite Hm, Hs, Hl. repeat split. apply nodes_self. exact Hn.
Qed.

(** C2. In the tree [generateQuadTree size] builds, every node has
    children exactly when its lod is below 8 and its size above 16, and
    otherwise has none; every child has half the size and the lod plus
    one and sits at the min corner of the quadrant its child type names;
    the four children's squares partition the parent's square; the lod
    stays between 1 and 8; a childless node has size at most 16 or lod 8. *)
Theorem generateQuadTree_invariant (size : R) (q : ptr) :
  In q (nodes (Terrain.generateQuadTree size)) ->
  (has_children q <-> (node_lod q < 8)%Z /\ node_size q > 16)
  /\ (has_children q \/ childless q)
  /\ (forall i, m_children q i <> NULL ->
        node_size (m_children q i) = node_size q / 2
        /\ node_lod (m_children q i) = (node_lod q + 1)%Z
        /\ (Vec3.x (node_min (m_children q i)), Vec3.z (node_min (m_children q i)))
           = quadrant_min (node_min q) (node_size q) i)
  /\ (has_children q ->
      forall px pz,
        covers (node_min q) (node_size q) px pz = true
        <-> exists! i, covers (node_min (m_children q i)) (node_size (m_children q i))
                         px pz = true)
  /\ (1 <= node_lod q <= 8)%Z
  /\ (childless q -> node_size q <= 16 \/ node_lod q = 8%Z).
Proof.
  intros Hin.
  destruct (createChildren_rec_ok (Z.to_nat (8 - 1)) (Vec3.set 0 0 0) size 1
              eq_refl ltac:(lia) q Hin) as [(H1 & H2 & H3 & H4 & H5) Hb].
  exact (conj H1 (conj H2 (conj H3 (conj H4 (conj Hb H5))))).
Qed.

Lemma generateQuadTree_invariant_witness :
  let q := Terrain.generateQuadTree 64 in
  In q (nodes (Terrain.generateQuadTree 64))
  /\ (has_children q <-> (node_lod q < 8)%Z /\ node_size q > 16)
  /\ (1 <= node_lod q <= 8)%Z.
Proof.
  cbv zeta.
  pose proof (proj1 (generateQuadTree_root 64)) as Hin.
  split; [exact Hin |].
  destruct (generateQuadTree_invariant 64 (Terrain.generateQuadTree 64) Hin)
    as (H1 & _ & _ & _ & H5 & _).
  split; assumption.
Defined.

End QuadTree.

(** ** Coverage of one [render] traversal *)

Section Coverage.

Import TerrainQuad.

Lemma span_ext (lo lo' len len' p : R) :
  lo = lo' -> len = len' -> span lo len p = span lo' len' p.
Proof. intros -> ->. reflexivity. Qed.

(** The two halves of a span: together the span, never both. *)
Lemma span_halves (lo S p : R) :
  span lo S p = span lo (S / 2) p || span (lo + S / 2) (S / 2) p
  /\ span lo (S / 2) p && span (lo + S / 2) (S / 2) p = false.
Proof. unfold span. split; cmp_cases; reflexivity. Qed.

Lemma quadrants_count (m_min : Vec3.t) (S px pz : R) :
  let X0 := span (Vec3.x m_min) (S / 2) px in
  let X1 := span (Vec3.x m_min + S / 2) (S / 2) px in
  let Z0 := span (Vec3.z m_min) (S / 2) pz in
  let Z1 := span (Vec3.z m_min + S / 2) (S / 2) pz in
  (Nat.b2n (X0 && Z0) + (Nat.b2n (X1 && Z0) + (Nat.b2n (X0 && Z1) + Nat.b2n (X1 && Z1))))%nat
  = Nat.b2n (covers m_min S px pz).
Proof.
  intros X0 X1 Z0 Z1. unfold covers.
  destruct (span_halves (Vec3.x m_min) S px) as [-> Hx].
  destruct (span_halves (Vec3.z m_min) S pz) as [-> Hz].
  fold X0 X1 Z0 Z1 in Hx, Hz |- *.
  destruct X0, X1, Z0, Z1; cbn in *; congruence.
Qed.

(** The draw a node issues in pass [i] lies over quadrant [i]. *)
Lemma own_draw_covers (morph m_min : Vec3.t) (S : R) (i : ChildType) (px pz : R) :
  draw_covers px pz
    (mkDrawCall morph S m_min (Terrain.index_count / 4 * child_index i)
       (Terrain.index_count / 4))
  = quadrant_covers m_min S i px pz.
Proof.
  unfold draw_covers, quadrant_covers.
  cbn [draw_first draw_count quad_min quad_size].
  destruct i; cbn; unfold Terrain.GRID_SIZE; f_equal; apply span_ext; lra.
Qed.

Lemma child_covers (m_min : Vec3.t) (S : R) (i : ChildType) (c : ptr) (px pz : R) :
  c <> NULL -> child_ok m_min S i c ->
  covers (node_min c) (node_size c) px pz = quadrant_covers m_min S i px pz.
Proof.
  intros Hn [-> | [Es Em]]; [congruence |].
  unfold covers, quadrant_covers. rewrite Es, <- Em. reflexivity.
Qed.

Lemma drawn_over_app (px pz : R) (a b : list DrawCall) :
  drawn_over px pz (a ++ b) = (drawn_over px pz a + drawn_over px pz b)%nat.
Proof. unfold drawn_over. rewrite filter_app, length_app. reflexivity. Qed.

(** A traversal that declines draws nothing; one that accepts draws over
    each point of the node's square once and over no other point. *)
Lemma render_covers (q : ptr) (camera_pos : Vec3.t) (px pz : R) :
  tree_ok q ->
  (fst (render q Terrain.index_count camera_pos) = false ->
   snd (render q Terrain.index_count camera_pos) = [])
  /\ (fst (render q Terrain.index_count camera_pos) = true ->
      drawn_over px pz (snd (render q Terrain.index_count camera_pos))
      = Nat.b2n (covers (node_min q) (node_size q) px pz)).
Proof.
  induction q as [| m_min m_size m_lod c0 IH0 c1 IH1 c2 IH2 c3 IH3]; intros Hok.
  - cbn. split; [reflexivity | discriminate].
  - cbn [tree_ok] in Hok.
    destruct Hok as ((Hc0 & Ht0) & (Hc1 & Ht1) & (Hc2 & Ht2) & (Hc3 & Ht3)).
    cbn [render node_min node_size].
    destruct (Rgtb (getDistance m_min m_size camera_pos) (getRadiusOuter m_size)
              && (m_lod >? 1)%Z).
    + cbn. split; [reflexivity | discriminate].
    + cbn [fst snd]. split; [discriminate | intros _].
      assert (Hpass : forall (i : ChildType) (c : ptr),
                 child_ok m_min m_size i c ->
                 ((fst (render c Terrain.index_count camera_pos) = false ->
                   snd (render c Terrain.index_count camera_pos) = [])
                  /\ (fst (render c Terrain.index_count camera_pos) = true ->
                      drawn_over px pz (snd (render c Terrain.index_count camera_pos))
                      = Nat.b2n (covers (node_min c) (node_size c) px pz))) ->
                 drawn_over px pz
                   (if negb (fst (render c Terrain.index_count camera_pos))
                    then [mkDrawCall
                            (Vec3.set (getRadiusOuter m_size) (getRadiusInner m_size) 0)
                            m_size m_min
                            (Terrain.index_count / 4 * child_index i)
                            (Terrain.index_count / 4)]
                    else snd (render c Terrain.index_count camera_pos))
                 = Nat.b2n (quadrant_covers m_min m_size i px pz)).
      { intros i c Hc [_ Hdrawn].
        destruct (fst (render c Terrain.index_count camera_pos)) eqn:Hb; cbn [negb].
        - rewrite (Hdrawn eq_refl). f_equal. apply child_covers; [| exact Hc].
          intros ->. cbn in Hb. discriminate.
        - unfold drawn_over. cbn [filter]. rewrite own_draw_covers.
          destruct (quadrant_covers m_min m_size i px pz); reflexivity. }
      rewrite !drawn_over_app.
      pose proof (Hpass TOP_LEFT c0 Hc0 (IH0 Ht0)) as P0.
      pose proof (Hpass TOP_RIGHT c1 Hc1 (IH1 Ht1)) as P1.
      pose proof (Hpass BOTTOM_LEFT c2 Hc2 (IH2 Ht2)) as P2.
      pose proof (Hpass BOTTOM_RIGHT c3 Hc3 (IH3 Ht3)) as P3.
      cbn [child_index] in P0, P1, P2, P3.
      rewrite P0, P1, P2, P3.
      apply quadrants_count.
Qed.

Lemma drawn_area_app (a b : list DrawCall) :
  drawn_area (a ++ b) = drawn_area a + drawn_area b.
Proof.
  unfold drawn_area. induction a as [| d a IH]; cbn [app fold_right]; [lra |].
  rewrite IH. lra.
Qed.

(** The areas of the quadrants an accepting traversal draws add up to the
    area of the node's square. *)
Lemma render_area (q : ptr) (camera_pos : Vec3.t) :
  tree_ok q ->
  fst (render q Terrain.index_count camera_pos) = true ->
  drawn_area (snd (render q Terrain.index_count camera_pos))
  = node_size q * node_size q.
Proof.
  induction q as [| m_min m_size m_lod c0 IH0 c1 IH1 c2 IH2 c3 IH3]; intros Hok.
  - cbn. discriminate.
  - cbn [tree_ok] in Hok.
    destruct Hok as ((Hc0 & Ht0) & (Hc1 & Ht1) & (Hc2 & Ht2) & (Hc3 & Ht3)).
    cbn [render node_size].
    destruct (Rgtb (getDistance m_min m_size camera_pos) (getRadiusOuter m_size)
              && (m_lod >? 1)%Z).
    + cbn. discriminate.
    + cbn [fst snd]. intros _.
      assert (Hpass : forall (i : ChildType) (k : Z) (c : ptr),
                 child_ok m_min m_size i c ->
                 (fst (render c Terrain.index_count camera_pos) = true ->
                  drawn_area (snd (render c Terrain.index_count camera_pos))
                  = node_size c * node_size c) ->
                 drawn_area
                   (if negb (fst (render c Terrain.index_count camera_pos))
                    then [mkDrawCall
                            (Vec3.set (getRadiusOuter m_size) (getRadiusInner m_size) 0)
                            m_size m_min (Terrain.index_count / 4 * k)
                            (Terrain.index_count / 4)]
                    else snd (render c Terrain.index_count camera_pos))
                 = m_size / 2 * (m_size / 2)).
      { intros i k c Hc Harea.
        destruct (fst (render c Terrain.index_count camera_pos)) eqn:Hb; cbn [negb].
        - rewrite (Harea eq_refl). destruct Hc as [-> | [-> _]]; [| reflexivity].
          cbn in Hb. discriminate.
        - cbn. unfold draw_area. cbn. lra. }
      rewrite !drawn_area_app.
      rewrite (Hpass TOP_LEFT _ c0 Hc0 (IH0 Ht0)),
        (Hpass TOP_RIGHT _ c1 Hc1 (IH1 Ht1)),
        (Hpass BOTTOM_LEFT _ c2 Hc2 (IH2 Ht2)),
        (Hpass BOTTOM_RIGHT _ c3 Hc3 (IH3 Ht3)).
      lra.
Qed.

Lemma createChildren_rec_tree_ok (depth : nat) :
  forall (m_min : Vec3.t) (m_size : R) (m_lod : Z),
    tree_ok (createChildren_rec depth m_min m_size m_lod).
Proof.
  induction depth as [| depth IH]; intros m_min m_size m_lod.
  - cbn. unfold child_ok. tauto.
  - cbn [createChildren_rec].
    destruct ((m_lod <? 8)%Z && Rgtb m_size 16).
    + cbn [tree_ok].
      repeat split; try apply IH; right;
        match goal with
        | |- context [createChildren_rec ?d ?c ?s ?l] =>
            destruct (createChildren_rec_fields d c s l) as (_ & -> & -> & _)
        end; split; reflexivity.
    + cbn. unfold child_ok. tauto.
Qed.

(** C1. In one [render] of the root of a tree built by [generateQuadTree],
    whatever the camera position, the root does not decline, and every
    point of the root's square lies under exactly one of the quadrants
    drawn. *)
Theorem render_partitions_root (size : R) (camera_pos : Vec3.t) (px pz : R) :
  0 <= px < size -> 0 <= pz < size ->
  let root := Terrain.generateQuadTree size in
  fst (render root Terrain.index_count camera_pos) = true
  /\ drawn_over px pz (snd (render root Terrain.index_count camera_pos)) = 1%nat.
Proof.
  intros Hx Hz root.
  assert (Hroot : fst (render root Terrain.index_count camera_pos) = true).
  { subst root. unfold Terrain.generateQuadTree. rewrite createChildren_eq.
    destruct ((1 <? 8)%Z && Rgtb size 16); cbn [render];
      replace (1 >? 1)%Z with false by reflexivity;
      rewrite andb_false_r; reflexivity. }
  split; [exact Hroot |].
  destruct (render_covers root camera_pos px pz
              (createChildren_rec_tree_ok _ _ _ _)) as [_ Hdrawn].
  rewrite (Hdrawn Hroot).
  destruct (generateQuadTree_root size) as (_ & _ & Hs & Hmx & Hmz).
  fold root in Hs, Hmx, Hmz.
  replace (covers (node_min root) (node_size root) px pz) with true; [reflexivity |].
  symmetry. apply covers_true. rewrite Hs, Hmx, Hmz. lra.
Qed.

Lemma render_partitions_root_witness :
  0 <= 40 < 64 /\ 0 <= 3 < 64
  /\ fst (render (Terrain.generateQuadTree 64) Terrain.index_count (Vec3.set 10 5 10)) = true
  /\ drawn_over 40 3
       (snd (render (Terrain.generateQuadTree 64) Terrain.index_count (Vec3.set 10 5 10)))
     = 1%nat.
Proof.
  split; [lra | split; [lra |]].
  apply (render_partitions_root 64 (Vec3.set 10 5 10) 40 3); lra.
Defined.

End Coverage.

(** ** Lights *)

Section Lights.

Import RenderSceneImpl.

(** C10. For a non-negative index, [getLight] answers the invalid
    component when the index is at or past the number of lights, and
    otherwise the component made of that light's entity, the light type
    tag and the index; the scene is handed back as it was. *)
Theorem getLight_component (s : t) (index : Z) :
  (0 <= index)%Z ->
  ((index >= Array.size (m_lights s))%Z ->
   getLight s index = Some (Component.INVALID, s))
  /\ ((index < Array.size (m_lights s))%Z ->
      exists light,
        nth_error (m_lights s) (Z.to_nat index) = Some light
        /\ getLight s index
           = Some (Component.mk (Light.m_entity light) LIGHT_HASH index, s)).
Proof.
  intros Hnn. unfold getLight, Array.size. split; intros Hi.
  - replace (index >=? Z.of_nat (length (m_lights s)))%Z with true; [reflexivity |].
    symmetry. apply Z.geb_le. lia.
  - replace (index >=? Z.of_nat (length (m_lights s)))%Z with false
      by (symmetry; rewrite Z.geb_leb; apply Z.leb_gt; lia).
    unfold Array.get.
    replace (index <? 0)%Z with false by (symmetry; apply Z.ltb_ge; exact Hnn).
    destruct (nth_error (m_lights s) (Z.to_nat index)) as [light |] eqn:Hnth.
    + exists light. split; reflexivity.
    + exfalso. apply nth_error_None in Hnth. lia.
Qed.

Lemma getLight_component_witness :
  let s := with_lights (create 1)
             [Light.mk Light.DIRECTIONAL (Entity.mk 1 4);
              Light.mk Light.DIRECTIONAL (Entity.mk 1 9)] in
  (0 <= 1)%Z
  /\ getLight s 1 = Some (Component.mk (Entity.mk 1 9) LIGHT_HASH 1, s)
  /\ getLight s 2 = Some (Component.INVALID, s).
Proof.
  cbv zeta. split; [lia |]. split.
  - destruct (proj2 (getLight_component
                       (with_lights (create 1)
                          [Light.mk Light.DIRECTIONAL (Entity.mk 1 4);
                           Light.mk Light.DIRECTIONAL (Entity.mk 1 9)]) 1 ltac:(lia))
                ltac:(cbn; lia)) as [light [Hnth Hget]].
    cbn in Hnth. injection Hnth as <-. exact Hget.
  - reflexivity.
Defined.

End Lights.

(** ** Debug lines *)

Section DebugLines.

Import RenderSceneImpl.

(** [update] stores no lifetime: every line it keeps is a line it found,
    with the [m_life] it had. *)
Lemma set_nat_incl {T : Type} (a : list T) (i : nat) (v : T) (x : T) :
  In x (Array.set_nat a i v) -> x = v \/ In x a.
Proof.
  revert i. induction a as [| h a IH]; intros i Hin; [destruct i; contradiction |].
  destruct i; cbn in Hin.
  - destruct Hin as [<- | Hin]; [left; reflexivity | right; right; exact Hin].
  - destruct Hin as [<- | Hin]; [right; left; reflexivity |].
    destruct (IH i Hin) as [-> | H]; [left; reflexivity | right; right; exact H].
Qed.

Lemma In_removelast {T : Type} (a : list T) (x : T) : In x (removelast a) -> In x a.
Proof.
  induction a as [| h a IH]; [contradiction |].
  cbn. destruct a as [| h' a']; [contradiction |].
  intros [<- | Hin]; [left; reflexivity | right; apply IH; exact Hin].
Qed.

Lemma eraseFast_incl {T : Type} (a : list T) (i : nat) (x : T) :
  In x (Array.eraseFast a i) -> In x a.
Proof.
  unfold Array.eraseFast.
  destruct (nth_error a i) eqn:Hi; [| tauto].
  destruct (nth_error a (length a - 1)) as [lst |] eqn:Hl; [| tauto].
  destruct (Nat.eqb i (length a - 1)).
  - apply In_removelast.
  - intros Hin. apply set_nat_incl in Hin. destruct Hin as [-> | Hin].
    + eapply nth_error_In. exact Hl.
    + apply In_removelast. exact Hin.
Qed.

Lemma update_loop_incl (n : nat) (dt : R) :
  forall lines line, In line (update_loop n dt lines) -> In line lines.
Proof.
  induction n as [| n IH]; intros lines line Hin; [exact Hin |].
  cbn [update_loop] in Hin.
  destruct (nth_error lines n) as [l |]; [| apply IH; exact Hin].
  apply IH in Hin.
  destruct (Rltb (DebugLine.m_life l - dt) 0); [apply eraseFast_incl in Hin |]; exact Hin.
Qed.

(** C5 (what the code does).  A line added with life 1.0 is still there,
    with life 1.0, after [update(0.6)] and again after [update(0.5)]:
    each call compares the stored lifetime minus its own [dt] with zero
    and stores nothing, so the decrements do not accumulate. *)
Theorem update_does_not_accumulate :
  let o := Vec3.set 0 0 0 in
  let s0 := addDebugLine (create 1) o o o 1 in
  let s1 := update s0 (6 / 10) in
  let s2 := update s1 (5 / 10) in
  m_debug_lines s1 = [DebugLine.mk o o o 1]
  /\ m_debug_lines s2 = [DebugLine.mk o o o 1].
Proof.
  cbv zeta.
  assert (H1 : update (addDebugLine (create 1) (Vec3.set 0 0 0) (Vec3.set 0 0 0)
                         (Vec3.set 0 0 0) 1) (6 / 10)
               = addDebugLine (create 1) (Vec3.set 0 0 0) (Vec3.set 0 0 0)
                   (Vec3.set 0 0 0) 1).
  { unfold update, addDebugLine, Array.push. cbn.
    replace (Rltb (1 - 6 / 10) 0) with false by (symmetry; apply Rltb_false; lra).
    reflexivity. }
  rewrite H1. split; [reflexivity |].
  unfold update, addDebugLine, Array.push. cbn.
  replace (Rltb (1 - 5 / 10) 0) with false by (symmetry; apply Rltb_false; lra).
  reflexivity.
Qed.

End DebugLines.

(** ** Ray casting *)

Section RayCast.

Import RenderSceneImpl.

Variable env : Environment.
Variables origin dir : Vec3.t.

(** One loop pass in terms of the narrow-phase outcome. *)
Lemma castRay_step_narrow (r : Renderable.t) (i : Z) (hit : RayCastModelHit.t) :
  castRay_step r i origin dir hit
  = match narrow_hit r origin dir with
    | Some t =>
        if negb (RayCastModelHit.m_is_hit hit) || Rltb t (RayCastModelHit.m_t hit)
        then RayCastModelHit.mk true t
               (Component.mk (Renderable.m_entity r) RENDERABLE_HASH i)
        else hit
    | None => hit
    end.
Proof.
  unfold castRay_step, narrow_hit.
  destruct (ModelInstance.getModel (Renderable.m_model r)) as [model |]; [| reflexivity].
  destruct (castRay_broad_phase r model origin dir); [| reflexivity].
  destruct (RayCastModelHit.m_is_hit (Model.castRay model origin dir _ _)); reflexivity.
Qed.

Lemma castRay_loop_snoc (rs : list Renderable.t) (r : Renderable.t) :
  forall (i : Z) (hit : RayCastModelHit.t),
    castRay_loop (rs ++ [r]) i origin dir hit
    = castRay_step r (i + Z.of_nat (length rs)) origin dir (castRay_loop rs i origin dir hit).
Proof.
  induction rs as [| r0 rs IH]; intros i hit.
  - cbn. rewrite Z.add_0_r. reflexivity.
  - cbn [app castRay_loop length]. rewrite IH. f_equal. lia.
Qed.

Lemma closest_of_loop (rs : list Renderable.t) (hit0 : RayCastModelHit.t) :
  RayCastModelHit.m_is_hit hit0 = false ->
  closest_of rs origin dir (castRay_loop rs 0 origin dir hit0).
Proof.
  intros H0. induction rs as [| r rs IH] using rev_ind.
  - left. split; [exact H0 |]. intros k r Hk. destruct k; discriminate.
  - rewrite castRay_loop_snoc, castRay_step_narrow. cbn [Z.add].
    set (hit := castRay_loop rs 0 origin dir hit0) in *.
    assert (Hlast : nth_error (rs ++ [r]) (length rs) = Some r).
    { rewrite nth_error_app2 by lia. rewrite Nat.sub_diag. reflexivity. }
    assert (Hsplit : forall j r', nth_error (rs ++ [r]) j = Some r' ->
                                  (j < length rs)%nat /\ nth_error rs j = Some r'
                                  \/ j = length rs /\ r' = r).
    { intros j r' Hj. destruct (Nat.lt_ge_cases j (length rs)) as [Hlt | Hge].
      - left. split; [exact Hlt |]. rewrite nth_error_app1 in Hj by exact Hlt. exact Hj.
      - right. rewrite nth_error_app2 in Hj by exact Hge.
        destruct (j - length rs)%nat as [| m] eqn:Hm.
        + cbn in Hj. injection Hj as <-. split; [lia | reflexivity].
        + cbn in Hj. destruct m; discriminate. }
    destruct (narrow_hit r origin dir) as [t |] eqn:Hr.
    + destruct IH as [[Hno Hnone] | [Hyes (i & ri & ti & Hi & Hti & Ht & Hc & Hbest)]].
      * rewrite Hno. cbn [negb orb]. right. split; [reflexivity |].
        exists (length rs), r, t. repeat split; try assumption.
        -- destruct (Hsplit _ _ H) as [[_ Hj] | [_ ->]].
           ++ rewrite (Hnone _ _ Hj) in H1. discriminate.
           ++ rewrite Hr in H1. injection H1 as <-. lra.
        -- intros Hlt. destruct (Hsplit _ _ H) as [[_ Hj] | [-> _]]; [| lia].
           rewrite (Hnone _ _ Hj) in H1. discriminate.
      * rewrite Hyes. cbn [negb orb].
        destruct (Rltb t (RayCastModelHit.m_t hit)) eqn:Hcmp.
        -- apply Rltb_true in Hcmp. right. split; [reflexivity |].
           exists (length rs), r, t. repeat split; try assumption.
           ++ destruct (Hsplit _ _ H) as [[_ Hj] | [_ ->]].
              ** destruct (Hbest _ _ _ Hj H1) as [Hle _]. lra.
              ** rewrite Hr in H1. injection H1 as <-. lra.
           ++ intros Hlt. destruct (Hsplit _ _ H) as [[_ Hj] | [-> _]]; [| lia].
              destruct (Hbest _ _ _ Hj H1) as [Hle _]. lra.
        -- apply Rltb_false in Hcmp. right. split; [exact Hyes |].
           exists i, ri, ti.
           assert (Hilt : (i < length rs)%nat).
           { apply nth_error_Some. rewrite Hi. discriminate. }
           repeat split; try assumption.
           ++ rewrite nth_error_app1 by exact Hilt. exact Hi.
           ++ destruct (Hsplit _ _ H) as [[_ Hj] | [_ ->]].
              ** destruct (Hbest _ _ _ Hj H1) as [Hle _]. exact Hle.
              ** rewrite Hr in H1. injection H1 as <-. lra.
           ++ intros Hlt. destruct (Hsplit _ _ H) as [[_ Hj] | [-> _]]; [| lia].
              destruct (Hbest _ _ _ Hj H1) as [_ Hstrict]. apply Hstrict. exact Hlt.
    + destruct IH as [[Hno Hnone] | [Hyes (i & ri & ti & Hi & Hti & Ht & Hc & Hbest)]].
      * left. split; [exact Hno |]. intros k r' Hk.
        destruct (Hsplit _ _ Hk) as [[_ Hj] | [_ ->]]; [exact (Hnone _ _ Hj) | exact Hr].
      * right. split; [exact Hyes |]. exists i, ri, ti.
        assert (Hilt : (i < length rs)%nat).
        { apply nth_error_Some. rewrite Hi. discriminate. }
        repeat split; try assumption.
        -- rewrite nth_error_app1 by exact Hilt. exact Hi.
        -- destruct (Hsplit _ _ H) as [[_ Hj] | [_ ->]].
           ++ destruct (Hbest _ _ _ Hj H1) as [Hle _]. exact Hle.
           ++ rewrite Hr in H1. discriminate.
        -- intros Hlt. destruct (Hsplit _ _ H) as [[_ Hj] | [-> _]]; [| lia].
           destruct (Hbest _ _ _ Hj H1) as [_ Hstrict]. apply Hstrict. exact Hlt.
Qed.

(** C7. [castRay] answers the narrow-phase hit with the smallest [t]
    among the renderables that have a model, pass the broad phase and
    are hit, the first in iteration order among equals, and the component
    it returns carries that renderable's entity and index; when there is
    no such renderable the answer has [m_is_hit] false. *)
Theorem castRay_closest (s : t) :
  let rs := m_renderables s in
  let hit := castRay env s origin dir in
  (RayCastModelHit.m_is_hit hit = false
   /\ forall k r, nth_error rs k = Some r -> narrow_hit r origin dir = None)
  \/ (RayCastModelHit.m_is_hit hit = true
      /\ exists i r t,
           nth_error rs i = Some r
           /\ narrow_hit r origin dir = Some t
           /\ RayCastModelHit.m_t hit = t
           /\ RayCastModelHit.m_renderable hit
              = Component.mk (Renderable.m_entity r) RENDERABLE_HASH (Z.of_nat i)
           /\ forall j r' t',
                nth_error rs j = Some r' -> narrow_hit r' origin dir = Some t' ->
                t <= t' /\ ((j < i)%nat -> t < t')).
Proof.
  cbv zeta. unfold castRay.
  pose proof (closest_of_loop (m_renderables s)
                (RayCastModelHit.mk false
                   (RayCastModelHit.m_t (new_RayCastModelHit env))
                   (RayCastModelHit.m_renderable (new_RayCastModelHit env)))
                eq_refl) as Hloop.
  unfold closest_of in Hloop. exact Hloop.
Qed.

End RayCast.

Section RayCastExample.

Import RenderSceneImpl.

Lemma narrow_hit_far : narrow_hit far_r (Vec3.set 0 0 0) along_z = Some 10.
Proof.
  unfold narrow_hit, castRay_broad_phase, Math.getRaySphereIntersection, dotProduct,
    Vec3.sub. cbn.
  replace (Rltb _ (1 * 1)) with false by (symmetry; apply Rltb_false; lra).
  cmp_cases; reflexivity.
Qed.

Lemma narrow_hit_near : narrow_hit near_r (Vec3.set 0 0 0) along_z = Some 5.
Proof.
  unfold narrow_hit, castRay_broad_phase, Math.getRaySphereIntersection, dotProduct,
    Vec3.sub. cbn.
  replace (Rltb _ (1 * 1)) with false by (symmetry; apply Rltb_false; lra).
  cmp_cases; reflexivity.
Qed.

Lemma castRay_closest_witness :
  let hit := castRay zeroed_env (with_renderables (create 1) [far_r; near_r])
               (Vec3.set 0 0 0) along_z in
  RayCastModelHit.m_is_hit hit = true
  /\ RayCastModelHit.m_t hit = 5
  /\ RayCastModelHit.m_renderable hit = Component.mk (Entity.mk 1 21) RENDERABLE_HASH 1.
Proof.
  cbv zeta.
  destruct (castRay_closest zeroed_env (Vec3.set 0 0 0) along_z
              (with_renderables (create 1) [far_r; near_r]))
    as [[_ Hnone] | [Hhit (i & r & t & Hi & Hr & Ht & Hc & Hbest)]].
  - exfalso. specialize (Hnone 0%nat far_r eq_refl).
    rewrite narrow_hit_far in Hnone. discriminate.
  - split; [exact Hhit |].
    destruct (Hbest 1%nat near_r 5 eq_refl narrow_hit_near) as [Hle _].
    destruct i as [| [| i]]; cbn in Hi.
    + exfalso. injection Hi as <-. rewrite narrow_hit_far in Hr.
      injection Hr as <-. lra.
    + injection Hi as <-. rewrite narrow_hit_near in Hr. injection Hr as <-.
      split; [exact Ht | exact Hc].
    + destruct i; discriminate.
Defined.

End RayCastExample.

(** ** The broad phase of [castRay] *)

Section BroadPhase.

Import RenderSceneImpl.

(** The model of [Math::getRaySphereIntersection] answers the geometric
    question: some point of the ray lies within [radius] of [center]. *)
Lemma getRaySphereIntersection_meets (center : Vec3.t) (radius : R) (origin dir : Vec3.t) :
  Math.getRaySphereIntersection center radius origin dir = true
  <-> exists t, 0 <= t /\ ray_point_within center radius origin dir t.
Proof.
  unfold Math.getRaySphereIntersection, ray_point_within, dotProduct, Vec3.sub,
    Vec3.add, Vec3.mul.
  destruct center as [cx cy cz], origin as [ox oy oz], dir as [dx dy dz].
  cbn [Vec3.x Vec3.y Vec3.z].
  set (lx := cx - ox). set (ly := cy - oy). set (lz := cz - oz).
  set (b := lx * dx + ly * dy + lz * dz).
  set (a := dx * dx + dy * dy + dz * dz).
  set (ll := lx * lx + ly * ly + lz * lz).
  assert (Ha : 0 <= a) by (unfold a; nra).
  assert (Hzero : a = 0 -> 0 < b -> False).
  { unfold a, b. intros Hz Hb.
    assert (dx * dx = 0 /\ dy * dy = 0 /\ dz * dz = 0) as (Hx & Hy & Hz') by nra.
    apply Rmult_integral in Hx, Hy, Hz'.
    assert (dx = 0) by tauto. assert (dy = 0) by tauto. assert (dz = 0) by tauto.
    subst dx dy dz. lra. }
  assert (Hexp : forall t,
             (ox + dx * t - cx) * (ox + dx * t - cx)
             + (oy + dy * t - cy) * (oy + dy * t - cy)
             + (oz + dz * t - cz) * (oz + dz * t - cz)
             = t * t * a - 2 * t * b + ll).
  { intros t. unfold a, b, ll, lx, ly, lz. ring. }
  clearbody a b ll. clear lx ly lz.
  destruct (Rleb b 0) eqn:Hb; [apply Rleb_true in Hb | apply Rleb_false in Hb];
    rewrite Rleb_true.
  - split.
    + intros Hin. exists 0. split; [lra |]. rewrite Hexp. lra.
    + intros [t [Ht Hin]]. rewrite Hexp in Hin.
      assert (0 <= t * t * a) by (apply Rmult_le_pos; [nra | exact Ha]).
      nra.
  - assert (Hapos : 0 < a).
    { destruct (Rle_lt_or_eq_dec 0 a Ha) as [Hlt | Heq]; [exact Hlt |].
      exfalso. apply Hzero; [symmetry; exact Heq | exact Hb]. }
    split.
    + intros Hin. exists (b / a). split.
      * apply Rlt_le. apply Rdiv_lt_0_compat; assumption.
      * rewrite Hexp.
        replace (b / a * (b / a) * a - 2 * (b / a) * b + ll) with (ll - b * b / a)
          by (field; lra).
        apply Rmult_le_reg_r with a; [exact Hapos |].
        replace ((ll - b * b / a) * a) with (ll * a - b * b) by (field; lra).
        lra.
    + intros [t [Ht Hin]]. rewrite Hexp in Hin.
      pose proof (Rle_0_sqr (t * a - b)) as Hsq. unfold Rsqr in Hsq.
      assert (Hmul : (t * t * a - 2 * t * b + ll) * a <= radius * radius * a)
        by (apply Rmult_le_compat_r; lra).
      nra.
Qed.

(** C6 (what the code does).  A renderable at the origin of the world
    with bounding radius 1 and scale 1/2, a ray from (3/4, 0, 0) pointing
    away along x: the ray starts outside the scaled sphere (radius 1/2)
    and no point of it is within the scaled sphere, yet the broad phase
    passes, because the inside test compares with the unscaled radius. *)
Theorem castRay_broad_phase_inside_unscaled :
  let mtx := Matrix.mk 1 0 0 0 0 1 0 0 0 0 1 0 0 0 0 1 in
  let model := Model.mk "m.msh" 1
                 (fun _ _ _ _ => RayCastModelHit.mk false 0 Component.INVALID) in
  let r := Renderable.mk (ModelInstance.mk (Some model) mtx) (Entity.mk 1 0) 1 (1 / 2) in
  let pos := Matrix.getTranslation mtx in
  let origin := Vec3.set (3 / 4) 0 0 in
  let dir := Vec3.set 1 0 0 in
  let scaled := Model.getBoundingRadius model * Renderable.m_scale r in
  castRay_broad_phase r model origin dir = true
  /\ Rltb (dotProduct (Vec3.sub pos origin) (Vec3.sub pos origin)) (scaled * scaled) = false
  /\ Math.getRaySphereIntersection pos scaled origin dir = false
  /\ ~ exists t, 0 <= t /\ ray_point_within pos scaled origin dir t.
Proof.
  cbv zeta.
  assert (Hmiss : Math.getRaySphereIntersection
                    (Matrix.getTranslation (Matrix.mk 1 0 0 0 0 1 0 0 0 0 1 0 0 0 0 1))
                    (1 * (1 / 2)) (Vec3.set (3 / 4) 0 0) (Vec3.set 1 0 0) = false).
  { unfold Math.getRaySphereIntersection, dotProduct, Vec3.sub. cbn.
    cmp_cases; reflexivity. }
  cbn [Model.getBoundingRadius Renderable.m_scale].
  split; [| split; [| split]].
  - unfold castRay_broad_phase, dotProduct, Vec3.sub. cbn.
    replace (Rltb _ (1 * 1)) with true; [reflexivity |].
    symmetry. apply Rltb_true. lra.
  - unfold dotProduct, Vec3.sub. cbn. apply Rltb_false. lra.
  - exact Hmiss.
  - intros Hex. apply getRaySphereIntersection_meets in Hex.
    rewrite Hmiss in Hex. discriminate.
Qed.

End BroadPhase.

(** ** The registries that are resized *)

Section Resized.

Import RenderSceneImpl.

Variable env : Environment.

Lemma length_set_nat {T : Type} (a : list T) (i : nat) (v : T) :
  length (Array.set_nat a i v) = length a.
Proof.
  revert i. induction a as [| h a IH]; intros i; [destruct i; reflexivity |].
  destruct i; cbn; [reflexivity | rewrite IH; reflexivity].
Qed.

Lemma length_set {T : Type} (a : list T) (i : Z) (v : T) :
  length (Array.set a i v) = length a.
Proof. unfold Array.set. destruct (i <? 0)%Z; [reflexivity | apply length_set_nat]. Qed.

Lemma length_resize {T : Type} (a : list T) (n : nat) (fresh : T) :
  length (Array.resize a n fresh) = n.
Proof.
  unfold Array.resize. rewrite length_app, length_firstn, repeat_length. lia.
Qed.

(** A property every pass of a loop keeps is kept by the loop. *)
Lemma for_loop_keeps {S : Type} (P : S -> Prop) (body : Z -> S -> ISerializer.reader S) :
  (forall i s st s' st', P s -> body i s st = Some (s', st') -> P s') ->
  forall n i s st s' st', P s -> for_loop n i body s st = Some (s', st') -> P s'.
Proof.
  intros Hbody. induction n as [| n IH]; intros i s st s' st' HP Hrun.
  - cbn in Hrun. injection Hrun as <- _. exact HP.
  - cbn [for_loop] in Hrun. unfold ISerializer.bind in Hrun.
    destruct (body i s st) as [[s1 st1] |] eqn:Hb; [| discriminate].
    eapply IH; [| exact Hrun]. eapply Hbody; eassumption.
Qed.

(** Take a successful read apart, bind by bind. *)
Ltac read_inv H :=
  unfold ISerializer.bind in H;
  repeat match type of H with
    | match ?c with _ => _ end = Some _ =>
        let E := fresh "E" in destruct c as [[? ?] |] eqn:E; [| discriminate H]
    end.

Lemma deserializeCamera_length (i : Z) (s : t) st s' st' :
  deserializeCamera i s st = Some (s', st') ->
  length (m_cameras s') = length (m_cameras s).
Proof.
  unfold deserializeCamera. intros H. read_inv H.
  unfold ISerializer.ret in H. injection H as <- _. cbn. apply length_set.
Qed.

Lemma deserializeLight_length (i : Z) (s : t) st s' st' :
  deserializeLight i s st = Some (s', st') ->
  length (m_lights s') = length (m_lights s).
Proof.
  unfold deserializeLight. intros H. read_inv H.
  unfold ISerializer.ret in H. injection H as <- _. cbn. apply length_set.
Qed.

Lemma deserializeRenderable_length (i : Z) (s : t) st s' st' :
  deserializeRenderable env i s st = Some (s', st') ->
  length (m_renderables s') = length (m_renderables s).
Proof.
  unfold deserializeRenderable. intros H.
  destruct (Array.get (m_renderables s) i) as [r |]; [| discriminate].
  read_inv H.
  unfold ISerializer.ret in H. injection H as <- _. cbn. apply length_set.
Qed.

Lemma resize_count_some (size : Z) (n : nat) st st' :
  resize_count size st = Some (n, st') -> Z.of_nat n = size.
Proof.
  unfold resize_count. destruct (size <? 0)%Z eqn:Hs; [discriminate |].
  unfold ISerializer.ret. intros H. injection H as <- _.
  apply Z.ltb_ge in Hs. lia.
Qed.

(** The three registries that [deserialize] resizes hold exactly the
    recorded number of entries afterwards, whatever they held before. *)
Lemma deserializeCameras_size (s : t) label size rest s' st' :
  deserializeCameras env s (ISerializer.Named label (ISerializer.VInt size) :: rest)
  = Some (s', st') ->
  Array.size (m_cameras s') = size.
Proof.
  unfold deserializeCameras. cbn [ISerializer.bind ISerializer.deserialize].
  intros H. read_inv H. unfold ISerializer.ret in H. injection H as <- _.
  match goal with E : resize_count _ _ = Some _ |- _ => apply resize_count_some in E; rewrite <- E end.
  unfold Array.size. f_equal.
  match goal with
  | E : for_loop ?n _ _ _ _ = Some _ |- _ =>
      apply (for_loop_keeps (fun s0 => length (m_cameras s0) = n)) in E; [exact E | |]
  end.
  - intros i sa sta sb stb HP Hb. rewrite (deserializeCamera_length _ _ _ _ _ Hb). exact HP.
  - cbn. apply length_resize.
Qed.

Lemma deserializeRenderables_size (s : t) label size rest s' st' :
  deserializeRenderables env s (ISerializer.Named label (ISerializer.VInt size) :: rest)
  = Some (s', st') ->
  Array.size (m_renderables s') = size.
Proof.
  unfold deserializeRenderables. cbn [ISerializer.bind ISerializer.deserialize].
  intros H. read_inv H. unfold ISerializer.ret in H. injection H as <- _.
  match goal with E : resize_count _ _ = Some _ |- _ => apply resize_count_some in E; rewrite <- E end.
  unfold Array.size. f_equal.
  match goal with
  | E : for_loop ?n _ _ _ _ = Some _ |- _ =>
      apply (for_loop_keeps (fun s0 => length (m_renderables s0) = n)) in E; [exact E | |]
  end.
  - intros i sa sta sb stb HP Hb. rewrite (deserializeRenderable_length _ _ _ _ _ Hb). exact HP.
  - cbn. apply length_resize.
Qed.

Lemma deserializeLights_size (s : t) label size rest s' st' :
  deserializeLights env s (ISerializer.Named label (ISerializer.VInt size) :: rest)
  = Some (s', st') ->
  Array.size (m_lights s') = size.
Proof.
  unfold deserializeLights. cbn [ISerializer.bind ISerializer.deserialize].
  intros H. read_inv H. unfold ISerializer.ret in H. injection H as <- _.
  match goal with E : resize_count _ _ = Some _ |- _ => apply resize_count_some in E; rewrite <- E end.
  unfold Array.size. f_equal.
  match goal with
  | E : for_loop ?n _ _ _ _ = Some _ |- _ =>
      apply (for_loop_keeps (fun s0 => length (m_lights s0) = n)) in E; [exact E | |]
  end.
  - intros i sa sta sb stb HP Hb. rewrite (deserializeLight_length _ _ _ _ _ Hb). exact HP.
  - cbn. apply length_resize.
Qed.

(** [deserializeTerrains] resizes nothing: each record read adds one
    terrain to those already held. *)
Lemma for_loop_counts {S : Type} (f : S -> nat) (body : Z -> S -> ISerializer.reader S) :
  (forall i s st s' st', body i s st = Some (s', st') -> f s' = Datatypes.S (f s)) ->
  forall n i s st s' st', for_loop n i body s st = Some (s', st') -> f s' = (n + f s)%nat.
Proof.
  intros Hbody. induction n as [| n IH]; intros i s st s' st' Hrun.
  - cbn in Hrun. injection Hrun as <- _. reflexivity.
  - cbn [for_loop] in Hrun. unfold ISerializer.bind in Hrun.
    destruct (body i s st) as [[s1 st1] |] eqn:Hb; [| discriminate].
    rewrite (IH _ _ _ _ _ Hrun), (Hbody _ _ _ _ _ Hb). lia.
Qed.

Lemma deserializeTerrain_length (i : Z) (s : t) st s' st' :
  deserializeTerrain env i s st = Some (s', st') ->
  length (m_terrains s') = Datatypes.S (length (m_terrains s)).
Proof.
  unfold deserializeTerrain, ISerializer.bind. intros H.
  destruct (ISerializer.deserializeArrayItem_int st) as [[entity_index st1] |];
    [| discriminate].
  assert (Hcreate : length (m_terrains
                              (snd (createComponent env s TERRAIN_HASH
                                      (Entity.mk (m_universe s) entity_index))))
                    = Datatypes.S (length (m_terrains s))).
  { unfold createComponent. rewrite Z.eqb_refl. cbn. unfold Array.push.
    rewrite length_app. cbn. lia. }
  set (s1 := snd (createComponent env s TERRAIN_HASH
                    (Entity.mk (m_universe s) entity_index))) in *.
  set (cmp := fst (createComponent env s TERRAIN_HASH
                     (Entity.mk (m_universe s) entity_index))) in *.
  destruct (Array.get (m_terrains s1) (Component.index cmp)) as [terrain |];
    [| discriminate].
  destruct (ISerializer.deserializeArrayItem_int st1) as [[layer_mask st2] |];
    [| discriminate].
  destruct (ISerializer.deserializeArrayItem_string LUMIX_MAX_PATH st2) as [[path st3] |];
    [| discriminate].
  destruct (setTerrainMaterial env _ cmp path) as [s3 |] eqn:Hmat; [| discriminate].
  assert (H3 : length (m_terrains s3) = Datatypes.S (length (m_terrains s))).
  { unfold setTerrainMaterial in Hmat. cbn [m_terrains with_terrains] in Hmat.
    destruct (Array.get _ (Component.index cmp)); [| discriminate].
    injection Hmat as <-. cbn [m_terrains with_terrains].
    rewrite !length_set. exact Hcreate. }
  destruct (ISerializer.deserializeArrayItem_float st3) as [[xz_scale st4] |];
    [| discriminate].
  destruct (Array.get (m_terrains s3) i) as [ti |]; [| discriminate].
  destruct (ISerializer.deserializeArrayItem_float st4) as [[y_scale st5] |];
    [| discriminate].
  cbn [m_terrains with_terrains] in H.
  destruct (Array.get _ i) as [ti' |]; [| discriminate].
  unfold ISerializer.ret in H. injection H as <- _.
  cbn [m_terrains with_terrains]. rewrite !length_set. exact H3.
Qed.

Lemma deserializeTerrains_size (s : t) label size rest s' st' :
  deserializeTerrains env s (ISerializer.Named label (ISerializer.VInt size) :: rest)
  = Some (s', st') ->
  Array.size (m_terrains s') = (Array.size (m_terrains s) + Z.max 0 size)%Z.
Proof.
  unfold deserializeTerrains. cbn [ISerializer.bind ISerializer.deserialize].
  intros H. read_inv H. unfold ISerializer.ret in H. injection H as <- _.
  match goal with
  | E : for_loop _ _ _ _ _ = Some _ |- _ =>
      apply (for_loop_counts (fun s0 => length (m_terrains s0))) in E;
      [| intros i sa sta sb stb Hb; exact (deserializeTerrain_length _ _ _ _ _ Hb)]
  end.
  unfold Array.size. lia.
Qed.

End Resized.

(** ** Serialization *)

Section Serialization.

Import RenderSceneImpl.

(** The record of a renderable does not depend on its layer mask. *)
Lemma serializeRenderable_ignores_layer_mask
  (model : ModelInstance.t) (entity : Entity.t) (mask mask' : Z) (scale : R) :
  serializeRenderable (Renderable.mk model entity mask scale)
  = serializeRenderable (Renderable.mk model entity mask' scale).
Proof. reflexivity. Qed.

(** C3 (what the code does).  Two scenes with one renderable each that
    differ in nothing but the renderable's layer mask (4 and 1) are
    written as the same stream: the renderable record holds the entity
    index, the model path, the scale and the matrix, and no layer mask.
    Read into a fresh scene, the stream gives a renderable whose layer
    mask is whatever the freshly allocated object held. *)
Theorem serialize_omits_renderable_layer_mask :
  let mtx := Matrix.mk 1 0 0 0 0 1 0 0 0 0 1 0 2 3 4 1 in
  let scene := fun mask =>
    with_renderables (create 1)
      [Renderable.mk (ModelInstance.mk None mtx) (Entity.mk 1 7) mask 2] in
  serialize (scene 4%Z) = serialize (scene 1%Z)
  /\ m_renderables (scene 4%Z) <> m_renderables (scene 1%Z)
  /\ forall env : Environment,
       exists stream s',
         serialize (scene 4%Z) = Some stream
         /\ deserialize env (create 1) stream = Some (s', [])
         /\ map Renderable.m_layer_mask (m_renderables s')
            = [Renderable.m_layer_mask (new_Renderable env)]
         /\ map Renderable.m_scale (m_renderables s') = [2]
         /\ map Renderable.m_entity (m_renderables s') = [Entity.mk 1 7].
Proof.
  cbv zeta. split; [reflexivity |]. split; [cbn; congruence |].
  intros env. eexists. eexists.
  split; [lazy; reflexivity |]. split; [lazy; reflexivity |].
  lazy. repeat split.
Qed.

(** C4 (what the code does).  A scene that already holds one terrain
    reads a stream recording one terrain: [deserializeTerrains] does not
    resize [m_terrains]; it appends through [createComponent], so two
    terrains are held afterwards, and the two scales read for the new
    terrain are stored in entry 0, the terrain that was there before. *)
Theorem deserializeTerrains_appends (env : Environment) :
  let mtx := Matrix.mk 1 0 0 0 0 1 0 0 0 0 1 0 0 0 0 1 in
  let terrain := fun name entity mask xz y =>
    TerrainData.mk 0 0 (Some (Material.mk name))
      (Some (Mesh.mk (Some (Material.mk name)) Terrain.index_count))
      mtx entity mask TerrainQuad.NULL xz y in
  let before := with_terrains (create 1) [terrain "old.mat" (Entity.mk 1 3) 1%Z 1 1] in
  let recorded := with_terrains (create 1) [terrain "new.mat" (Entity.mk 1 5) 2%Z 3 5] in
  exists stream s',
    serialize recorded = Some stream
    /\ nth_error stream 9 = Some (ISerializer.Named "terrain_count" (ISerializer.VInt 1))
    /\ deserialize env before stream = Some (s', [])
    /\ Array.size (m_terrains s') = 2%Z
    /\ map TerrainData.m_entity (m_terrains s') = [Entity.mk 1 3; Entity.mk 1 5]
    /\ map TerrainData.m_layer_mask (m_terrains s') = [1%Z; 2%Z]
    /\ map TerrainData.m_xz_scale (m_terrains s') = [3; 1]
    /\ map TerrainData.m_y_scale (m_terrains s') = [5; 1].
Proof.
  cbv zeta. eexists. eexists.
  split; [lazy; reflexivity |]. split; [reflexivity |]. split; [lazy; reflexivity |].
  lazy. repeat split.
Qed.

End Serialization.

(** * Further properties of the terrain quad-tree *)

Section RadiusInner.

Import TerrainQuad.

Lemma sqrt_quadruple (y : R) : 0 <= y -> sqrt (4 * y) = 2 * sqrt y.
Proof.
  intros Hy. rewrite sqrt_mult by lra.
  replace 4 with (2 * 2) by lra. rewrite sqrt_square by lra. reflexivity.
Qed.

(** X1. For a positive size the inner blend radius is positive and lies
    strictly below the outer radius of the same size, so the morph band
    between the two is never empty or inverted. *)
Theorem getRadiusInner_below_outer (size : R) :
  0 < size ->
  0 < getRadiusInner size < getRadiusOuter size.
Proof.
  intros Hpos. unfold getRadiusInner, getRadiusOuter.
  assert (HA : sqrt (2 * size * size) = 2 * sqrt (2 * (size / 2) * (size / 2))).
  { rewrite <- sqrt_quadruple by nra. f_equal. field. }
  assert (HC : sqrt (2 * size / 2 * size / 2) = sqrt (2 * (size / 2) * (size / 2))).
  { f_equal. field. }
  rewrite HA, HC.
  assert (HB : 0 < sqrt (2 * (size / 2) * (size / 2))) by (apply sqrt_lt_R0; nra).
  set (B := sqrt (2 * (size / 2) * (size / 2))) in *. clearbody B.
  unfold Rgtb. cmp_cases; lra.
Qed.

Lemma getRadiusInner_below_outer_witness :
  0 < 64 /\ 0 < getRadiusInner 64 < getRadiusOuter 64.
Proof.
  split; [lra |]. apply (getRadiusInner_below_outer 64). lra.
Defined.

End RadiusInner.

Section TreeShape.

Import TerrainQuad.

Lemma createChildren_rec_count (depth : nat) :
  forall (m_min : Vec3.t) (m_size : R) (m_lod : Z),
    (length (nodes (createChildren_rec depth m_min m_size m_lod)) <= quad_bound depth)%nat.
Proof.
  induction depth as [| depth IH]; intros m_min m_size m_lod.
  - cbn. lia.
  - cbn [createChildren_rec quad_bound].
    destruct ((m_lod <? 8)%Z && Rgtb m_size 16).
    + cbn [nodes length]. rewrite !length_app.
      pose proof (IH m_min (m_size / 2) (m_lod + 1)%Z).
      pose proof (IH (Vec3.set (Vec3.x m_min + m_size / 2) 0 (Vec3.z m_min))
                    (m_size / 2) (m_lod + 1)%Z).
      pose proof (IH (Vec3.set (Vec3.x m_min) 0 (Vec3.z m_min + m_size / 2))
                    (m_size / 2) (m_lod + 1)%Z).
      pose proof (IH (Vec3.set (Vec3.x m_min + m_size / 2) 0 (Vec3.z m_min + m_size / 2))
                    (m_size / 2) (m_lod + 1)%Z).
      lia.
    + cbn. lia.
Qed.

(** X2. Whatever the size of the terrain, the tree [generateQuadTree]
    builds has at most 21845 nodes (1 + 4 + ... + 4^7): memory and
    traversal are bounded independently of the resolution. *)
Theorem generateQuadTree_node_count (size : R) :
  (Z.of_nat (length (nodes (Terrain.generateQuadTree size))) <= 21845)%Z.
Proof.
  unfold Terrain.generateQuadTree, createChildren.
  pose proof (createChildren_rec_count (Z.to_nat (8 - 1)) (Vec3.set 0 0 0) size 1) as H.
  apply Nat2Z.inj_le in H.
  replace (Z.of_nat (quad_bound (Z.to_nat (8 - 1)))) with 21845%Z in H by reflexivity.
  exact H.
Qed.

Lemma createChildren_rec_geometry (depth : nat) :
  forall (m_min : Vec3.t) (m_size : R) (m_lod : Z),
    0 <= m_size ->
    forall q, In q (nodes (createChildren_rec depth m_min m_size m_lod)) ->
      (m_lod <= node_lod q)%Z
      /\ node_size q = m_size / 2 ^ Z.to_nat (node_lod q - m_lod)
      /\ Vec3.x m_min <= Vec3.x (node_min q)
      /\ Vec3.x (node_min q) + node_size q <= Vec3.x m_min + m_size
      /\ Vec3.z m_min <= Vec3.z (node_min q)
      /\ Vec3.z (node_min q) + node_size q <= Vec3.z m_min + m_size.
Proof.
  induction depth as [| depth IH]; intros m_min m_size m_lod Hs q Hin.
  - cbn in Hin. destruct Hin as [<- | []]. cbn [node_lod node_size node_min].
    rewrite Z.sub_diag. cbn. repeat split; try lia; lra.
  - cbn [createChildren_rec] in Hin.
    destruct ((m_lod <? 8)%Z && Rgtb m_size 16).
    + cbn [nodes In] in Hin. rewrite !in_app_iff in Hin.
      assert (Hh : 0 <= m_size / 2) by lra.
      assert (Hstep : forall c_min,
                 Vec3.x m_min <= Vec3.x c_min -> Vec3.x c_min + m_size / 2 <= Vec3.x m_min + m_size ->
                 Vec3.z m_min <= Vec3.z c_min -> Vec3.z c_min + m_size / 2 <= Vec3.z m_min + m_size ->
                 In q (nodes (createChildren_rec depth c_min (m_size / 2) (m_lod + 1))) ->
                 (m_lod <= node_lod q)%Z
                 /\ node_size q = m_size / 2 ^ Z.to_nat (node_lod q - m_lod)
                 /\ Vec3.x m_min <= Vec3.x (node_min q)
                 /\ Vec3.x (node_min q) + node_size q <= Vec3.x m_min + m_size
                 /\ Vec3.z m_min <= Vec3.z (node_min q)
                 /\ Vec3.z (node_min q) + node_size q <= Vec3.z m_min + m_size).
      { intros c_min Hx1 Hx2 Hz1 Hz2 Hq.
        destruct (IH c_min (m_size / 2) (m_lod + 1)%Z Hh q Hq)
          as (Hl & Hsz & Ha & Hb & Hc & Hd).
        split; [lia |]. split; [| lra].
        rewrite Hsz.
        replace (Z.to_nat (node_lod q - m_lod))
          with (S (Z.to_nat (node_lod q - (m_lod + 1)))) by lia.
        cbn [pow]. field. apply pow_nonzero. lra. }
      destruct Hin as [<- | [Hin | [Hin | [Hin | Hin]]]].
      * cbn [node_lod node_size node_min]. rewrite Z.sub_diag. cbn.
        repeat split; try lia; lra.
      * apply (Hstep m_min); try lra; exact Hin.
      * apply (Hstep (Vec3.set (Vec3.x m_min + m_size / 2) 0 (Vec3.z m_min)));
          cbn; try lra; exact Hin.
      * apply (Hstep (Vec3.set (Vec3.x m_min) 0 (Vec3.z m_min + m_size / 2)));
          cbn; try lra; exact Hin.
      * apply (Hstep (Vec3.set (Vec3.x m_min + m_size / 2) 0 (Vec3.z m_min + m_size / 2)));
          cbn; try lra; exact Hin.
    + cbn in Hin. destruct Hin as [<- | []]. cbn [node_lod node_size node_min].
      rewrite Z.sub_diag. cbn. repeat split; try lia; lra.
Qed.

(** X3. In the tree built from a size that is not negative, a node at lod
    [l] has exactly the size of the root divided by [2^(l-1)], and its
    square lies inside the square of the root, [[0, size] x [0, size]]. *)
Theorem generateQuadTree_node_geometry (size : R) (q : ptr) :
  0 <= size ->
  In q (nodes (Terrain.generateQuadTree size)) ->
  node_size q = size / 2 ^ Z.to_nat (node_lod q - 1)
  /\ 0 <= Vec3.x (node_min q) /\ Vec3.x (node_min q) + node_size q <= size
  /\ 0 <= Vec3.z (node_min q) /\ Vec3.z (node_min q) + node_size q <= size.
Proof.
  intros Hs Hin.
  destruct (createChildren_rec_geometry (Z.to_nat (8 - 1)) (Vec3.set 0 0 0) size 1 Hs q Hin)
    as (_ & Hsz & Ha & Hb & Hc & Hd).
  cbn [Vec3.x Vec3.z] in Ha, Hb, Hc, Hd.
  split; [exact Hsz |]. lra.
Qed.

Lemma generateQuadTree_node_geometry_witness :
  let q := Terrain.generateQuadTree 64 in
  0 <= 64 /\ In q (nodes (Terrain.generateQuadTree 64))
  /\ node_size q = 64 / 2 ^ Z.to_nat (node_lod q - 1)
  /\ 0 <= Vec3.x (node_min q) /\ Vec3.x (node_min q) + node_size q <= 64
  /\ 0 <= Vec3.z (node_min q) /\ Vec3.z (node_min q) + node_size q <= 64.
Proof.
  cbv zeta. split; [lra |].
  pose proof (proj1 (generateQuadTree_root 64)) as Hin. split; [exact Hin |].
  apply (generateQuadTree_node_geometry 64 (Terrain.generateQuadTree 64)); [lra | exact Hin].
Defined.

End TreeShape.

Section RenderMore.

Import TerrainQuad.

Lemma render_root_accepts (size : R) (camera_pos : Vec3.t) :
  fst (render (Terrain.generateQuadTree size) Terrain.index_count camera_pos) = true.
Proof.
  unfold Terrain.generateQuadTree. rewrite createChildren_eq.
  destruct ((1 <? 8)%Z && Rgtb size 16); cbn [render];
    replace (1 >? 1)%Z with false by reflexivity;
    rewrite andb_false_r; reflexivity.
Qed.

(** X4. In one [render] of the root of a tree built by [generateQuadTree],
    whatever the camera position, the areas of the quadrants drawn add up
    to the area of the terrain, [size * size]. *)
Theorem render_root_area (size : R) (camera_pos : Vec3.t) :
  drawn_area (snd (render (Terrain.generateQuadTree size) Terrain.index_count camera_pos))
  = size * size.
Proof.
  rewrite (render_area (Terrain.generateQuadTree size) camera_pos
             (createChildren_rec_tree_ok _ _ _ _) (render_root_accepts size camera_pos)).
  destruct (generateQuadTree_root size) as (_ & _ & -> & _). reflexivity.
Qed.

(** X5. One [render] of the root draws nothing outside the terrain: a
    point that is not in the root's square lies under none of the quadrants
    drawn. *)
Theorem render_root_nothing_outside (size : R) (camera_pos : Vec3.t) (px pz : R) :
  ~ (0 <= px < size /\ 0 <= pz < size) ->
  drawn_over px pz
    (snd (render (Terrain.generateQuadTree size) Terrain.index_count camera_pos))
  = 0%nat.
Proof.
  intros Hout.
  destruct (render_covers (Terrain.generateQuadTree size) camera_pos px pz
              (createChildren_rec_tree_ok _ _ _ _)) as [_ Hdrawn].
  rewrite (Hdrawn (render_root_accepts size camera_pos)).
  destruct (generateQuadTree_root size) as (_ & _ & Hs & Hmx & Hmz).
  destruct (covers _ _ px pz) eqn:Hc; [| reflexivity].
  exfalso. apply Hout. apply covers_true in Hc. rewrite Hs, Hmx, Hmz in Hc. lra.
Qed.

Lemma render_root_nothing_outside_witness :
  ~ (0 <= 70 < 64 /\ 0 <= 3 < 64)
  /\ drawn_over 70 3
       (snd (render (Terrain.generateQuadTree 64) Terrain.index_count (Vec3.set 10 5 10)))
     = 0%nat.
Proof.
  assert (H : ~ (0 <= 70 < 64 /\ 0 <= 3 < 64)) by lra.
  split; [exact H |].
  apply (render_root_nothing_outside 64 (Vec3.set 10 5 10) 70 3 H).
Defined.

(** X6. Every draw call one [render] issues is the draw of a node of the
    tree for one of its four quadrants: [quad_min] and [quad_size] are the
    node's, [morph_const] is (outer radius, inner radius, 0) of the node's
    size, a quarter of the index count is drawn from the start of quarter
    [i], the child [i] is missing or has declined, and the node is at lod 1
    or the camera is within its outer radius. *)
Theorem render_draw_calls (q : ptr) (count : Z) (camera_pos : Vec3.t) (d : DrawCall) :
  In d (snd (render q count camera_pos)) ->
  exists n i,
    In n (nodes q)
    /\ quad_min d = node_min n
    /\ quad_size d = node_size n
    /\ morph_const d
       = Vec3.set (getRadiusOuter (node_size n)) (getRadiusInner (node_size n)) 0
    /\ draw_first d = (count / 4 * child_index i)%Z
    /\ draw_count d = (count / 4)%Z
    /\ fst (render (m_children n i) count camera_pos) = false
    /\ ((node_lod n <= 1)%Z
        \/ getDistance (node_min n) (node_size n) camera_pos
           <= getRadiusOuter (node_size n)).
Proof.
  induction q as [| m_min m_size m_lod c0 IH0 c1 IH1 c2 IH2 c3 IH3]; intros Hin.
  - cbn in Hin. contradiction.
  - cbn [render] in Hin.
    destruct (Rgtb (getDistance m_min m_size camera_pos) (getRadiusOuter m_size)
              && (m_lod >? 1)%Z) eqn:Hcond; [cbn in Hin; contradiction |].
    cbn [snd] in Hin.
    assert (Hnear : (m_lod <= 1)%Z
                    \/ getDistance m_min m_size camera_pos <= getRadiusOuter m_size).
    { apply andb_false_iff in Hcond. destruct Hcond as [H | H].
      - right. apply Rgtb_false. exact H.
      - left. rewrite Z.gtb_ltb in H. apply Z.ltb_ge in H. exact H. }
    assert (Hpass : forall (i : ChildType) (c : ptr),
               m_children (Quad m_min m_size m_lod c0 c1 c2 c3) i = c ->
               (In d (snd (render c count camera_pos)) ->
                exists n j,
                  In n (nodes c)
                  /\ quad_min d = node_min n
                  /\ quad_size d = node_size n
                  /\ morph_const d
                     = Vec3.set (getRadiusOuter (node_size n)) (getRadiusInner (node_size n)) 0
                  /\ draw_first d = (count / 4 * child_index j)%Z
                  /\ draw_count d = (count / 4)%Z
                  /\ fst (render (m_children n j) count camera_pos) = false
                  /\ ((node_lod n <= 1)%Z
                      \/ getDistance (node_min n) (node_size n) camera_pos
                         <= getRadiusOuter (node_size n))) ->
               In d (if negb (fst (render c count camera_pos))
                     then [mkDrawCall
                             (Vec3.set (getRadiusOuter m_size) (getRadiusInner m_size) 0)
                             m_size m_min (count / 4 * child_index i) (count / 4)]
                     else snd (render c count camera_pos)) ->
               (exists n j,
                   (n = Quad m_min m_size m_lod c0 c1 c2 c3 \/ In n (nodes c))
                   /\ quad_min d = node_min n
                   /\ quad_size d = node_size n
                   /\ morph_const d
                      = Vec3.set (getRadiusOuter (node_size n)) (getRadiusInner (node_size n)) 0
                   /\ draw_first d = (count / 4 * child_index j)%Z
                   /\ draw_count d = (count / 4)%Z
                   /\ fst (render (m_children n j) count camera_pos) = false
                   /\ ((node_lod n <= 1)%Z
                       \/ getDistance (node_min n) (node_size n) camera_pos
                          <= getRadiusOuter (node_size n)))).
    { intros i c Hc IH Hd.
      destruct (fst (render c count camera_pos)) eqn:Hb; cbn [negb] in Hd.
      - destruct (IH Hd) as (n & j & Hn & Hrest). exists n, j. split; [right; exact Hn | exact Hrest].
      - destruct Hd as [<- | []].
        exists (Quad m_min m_size m_lod c0 c1 c2 c3), i.
        split; [left; reflexivity |].
        cbn [quad_min quad_size morph_const draw_first draw_count node_min node_size node_lod].
        rewrite Hc. repeat split; try reflexivity; [exact Hb | exact Hnear]. }
    rewrite !in_app_iff in Hin. cbn [nodes].
    destruct Hin as [Hin | [Hin | [Hin | Hin]]].
    + destruct (Hpass TOP_LEFT c0 eq_refl IH0 Hin) as (n & j & [-> | Hn] & Hrest);
        exists n, j || exists (Quad m_min m_size m_lod c0 c1 c2 c3), j;
        (split; [cbn [In]; rewrite ?in_app_iff; tauto | exact Hrest]).
    + destruct (Hpass TOP_RIGHT c1 eq_refl IH1 Hin) as (n & j & [-> | Hn] & Hrest);
        exists n, j || exists (Quad m_min m_size m_lod c0 c1 c2 c3), j;
        (split; [cbn [In]; rewrite ?in_app_iff; tauto | exact Hrest]).
    + destruct (Hpass BOTTOM_LEFT c2 eq_refl IH2 Hin) as (n & j & [-> | Hn] & Hrest);
        exists n, j || exists (Quad m_min m_size m_lod c0 c1 c2 c3), j;
        (split; [cbn [In]; rewrite ?in_app_iff; tauto | exact Hrest]).
    + destruct (Hpass BOTTOM_RIGHT c3 eq_refl IH3 Hin) as (n & j & [-> | Hn] & Hrest);
        exists n, j || exists (Quad m_min m_size m_lod c0 c1 c2 c3), j;
        (split; [cbn [In]; rewrite ?in_app_iff; tauto | exact Hrest]).
Qed.

Lemma render_draw_calls_witness :
  let q := Quad (Vec3.set 0 0 0) 16 1 NULL NULL NULL NULL in
  let cam := Vec3.set 100 0 100 in
  let d := mkDrawCall (Vec3.set (getRadiusOuter 16) (getRadiusInner 16) 0) 16
             (Vec3.set 0 0 0) (1536 / 4 * 2)%Z (1536 / 4)%Z in
  In d (snd (render q 1536 cam))
  /\ exists n i,
       In n (nodes q) /\ quad_min d = node_min n /\ quad_size d = node_size n
       /\ draw_first d = (1536 / 4 * child_index i)%Z.
Proof.
  cbv zeta.
  assert (Hin : In (mkDrawCall (Vec3.set (getRadiusOuter 16) (getRadiusInner 16) 0) 16
                      (Vec3.set 0 0 0) (1536 / 4 * 2)%Z (1536 / 4)%Z)
                  (snd (render (Quad (Vec3.set 0 0 0) 16 1 NULL NULL NULL NULL) 1536
                          (Vec3.set 100 0 100)))).
  { cbn [render]. replace (1 >? 1)%Z with false by reflexivity.
    rewrite andb_false_r. cbn. right. right. left. reflexivity. }
  split; [exact Hin |].
  destruct (render_draw_calls _ _ _ _ Hin) as (n & i & H1 & H2 & H3 & _ & H5 & _).
  exists n, i. repeat split; assumption.
Defined.

End RenderMore.

(** * The terrain geometry *)

Section Geometry.

Import Terrain.

Lemma generateGeometry_points (fresh_point : Vec3.t) (fresh_index : Z) :
  points (generateGeometry fresh_point fresh_index) = map grid_vertex (seq 0 1024).
Proof. vm_compute. reflexivity. Qed.

Lemma generateGeometry_indices_ok (fresh_point : Vec3.t) (fresh_index : Z) :
  forallb (index_in_quarter (indices (generateGeometry fresh_point fresh_index)))
    (seq 0 1536) = true.
Proof. vm_compute. reflexivity. Qed.

(** X7. [generateGeometry] assigns every vertex and every index: the
    buffers hold 1024 vertices and 1536 indices, the running offset ends at
    1536, and nothing in the result depends on what the arrays held after
    [resize]. *)
Theorem generateGeometry_fully_assigned
  (fresh_point fresh_point' : Vec3.t) (fresh_index fresh_index' : Z) :
  generateGeometry fresh_point fresh_index = generateGeometry fresh_point' fresh_index'
  /\ length (points (generateGeometry fresh_point fresh_index)) = 1024%nat
  /\ length (indices (generateGeometry fresh_point fresh_index)) = 1536%nat
  /\ indices_offset (generateGeometry fresh_point fresh_index) = index_count.
Proof. vm_compute. repeat split. Qed.

(** X8. Entry [p] of the index buffer names a vertex that lies, in the unit
    square of the grid, inside the sub-grid of the quarter of the buffer
    [p] falls in: quarter [k], which [render] draws for child [k], holds
    only vertices of the [k]-th quadrant (at height 0). *)
Theorem generateGeometry_quarter (fresh_point : Vec3.t) (fresh_index : Z) (p : nat) :
  (p < 1536)%nat ->
  let b := generateGeometry fresh_point fresh_index in
  let k := (Z.of_nat p / (index_count / 4))%Z in
  let sx := IZR (fst (subgrid_start k)) in
  let sy := IZR (snd (subgrid_start k)) in
  let g := IZR GRID_SIZE in
  exists idx v,
    nth_error (indices b) p = Some idx
    /\ Array.get (points b) idx = Some v
    /\ sx / g <= Vec3.x v <= (sx + 8) / g
    /\ Vec3.y v = 0
    /\ sy / g <= Vec3.z v <= (sy + 8) / g.
Proof.
  intros Hp. cbv zeta.
  pose proof (generateGeometry_indices_ok fresh_point fresh_index) as Hall.
  rewrite forallb_forall in Hall.
  specialize (Hall p). rewrite in_seq in Hall. specialize (Hall ltac:(lia)).
  unfold index_in_quarter in Hall.
  destruct (nth_error (indices (generateGeometry fresh_point fresh_index)) p)
    as [idx |]; [| discriminate].
  rewrite !andb_true_iff in Hall.
  destruct Hall as (((((H0 & H1) & Hx1) & Hx2) & Hz1) & Hz2).
  apply Z.leb_le in H0, Hx1, Hx2, Hz1, Hz2. apply Z.ltb_lt in H1.
  exists idx, (grid_vertex (Z.to_nat idx)).
  split; [reflexivity |]. split.
  - unfold Array.get.
    replace (idx <? 0)%Z with false by (symmetry; apply Z.ltb_ge; exact H0).
    rewrite generateGeometry_points.
    rewrite nth_error_map, nth_error_seq.
    replace (Z.to_nat idx <? 1024)%nat with true
      by (symmetry; apply Nat.ltb_lt; lia).
    reflexivity.
  - unfold grid_vertex. rewrite Z2Nat.id by exact H0. cbn [Vec3.x Vec3.y Vec3.z].
    apply IZR_le in Hx1, Hx2, Hz1, Hz2. rewrite plus_IZR in Hx2, Hz2.
    unfold GRID_SIZE in *.
    repeat split; try reflexivity; lra.
Qed.

Lemma generateGeometry_quarter_witness :
  (400 < 1536)%nat
  /\ exists idx v,
       nth_error (indices (generateGeometry (Vec3.set 0 0 0) 0)) 400 = Some idx
       /\ Array.get (points (generateGeometry (Vec3.set 0 0 0) 0)) idx = Some v
       /\ 8 / 16 <= Vec3.x v <= (8 + 8) / 16
       /\ Vec3.y v = 0
       /\ 0 / 16 <= Vec3.z v <= (0 + 8) / 16.
Proof.
  assert (Hp : (400 < 1536)%nat) by lia.
  split; [exact Hp |].
  exact (generateGeometry_quarter (Vec3.set 0 0 0) 0 400 Hp).
Defined.

End Geometry.

(** * Further properties of the scene *)

Section UpdateKeeps.

Import RenderSceneImpl.

Lemma nil_or_snoc {T : Type} (l : list T) : l = [] \/ exists tl y, l = tl ++ [y].
Proof.
  destruct l as [| h l]; [left; reflexivity | right].
  destruct (exists_last (l := h :: l)) as [tl [y E]]; [discriminate |].
  exists tl, y. exact E.
Qed.

Lemma eraseFast_last {T : Type} (pre : list T) (x : T) :
  Array.eraseFast (pre ++ [x]) (length pre) = pre.
Proof.
  unfold Array.eraseFast.
  rewrite length_app. cbn [length].
  replace (length pre + 1 - 1)%nat with (length pre) by lia.
  rewrite nth_error_app2 by lia. rewrite Nat.sub_diag. cbn [nth_error].
  rewrite Nat.eqb_refl. apply removelast_last.
Qed.

Lemma set_nat_app {T : Type} (pre : list T) (x y : T) (tl : list T) :
  Array.set_nat (pre ++ x :: tl) (length pre) y = pre ++ y :: tl.
Proof. induction pre as [| h pre IH]; cbn; [reflexivity | rewrite IH; reflexivity]. Qed.

Lemma eraseFast_middle {T : Type} (pre : list T) (x : T) (tl : list T) (y : T) :
  Array.eraseFast (pre ++ x :: tl ++ [y]) (length pre) = pre ++ y :: tl.
Proof.
  unfold Array.eraseFast.
  assert (Hlen : (length (pre ++ x :: tl ++ [y]) - 1 = length pre + S (length tl))%nat).
  { rewrite length_app. cbn [length]. rewrite length_app. cbn [length]. lia. }
  rewrite Hlen.
  rewrite nth_error_app2 by lia. rewrite Nat.sub_diag. cbn [nth_error].
  replace (nth_error (pre ++ x :: tl ++ [y]) (length pre + S (length tl))) with (Some y).
  - replace (Nat.eqb (length pre) (length pre + S (length tl))) with false
      by (symmetry; apply Nat.eqb_neq; lia).
    replace (pre ++ x :: tl ++ [y]) with ((pre ++ x :: tl) ++ [y])
      by (rewrite <- app_assoc; reflexivity).
    rewrite removelast_last. apply set_nat_app.
  - symmetry. rewrite nth_error_app2 by lia.
    replace (length pre + S (length tl) - length pre)%nat with (S (length tl)) by lia.
    cbn [nth_error]. rewrite nth_error_app2 by lia. rewrite Nat.sub_diag. reflexivity.
Qed.

Lemma update_loop_keeps (dt : R) (n : nat) :
  forall pre tail,
    length pre = n ->
    forallb (expires_not dt) tail = true ->
    Permutation (update_loop n dt (pre ++ tail)) (filter (expires_not dt) pre ++ tail).
Proof.
  induction n as [| n IH]; intros pre tail Hlen Htail.
  - destruct pre; [| discriminate]. cbn. apply Permutation_refl.
  - destruct (exists_last (l := pre)) as [pre' [x ->]]; [destruct pre; discriminate |].
    rewrite length_app in Hlen. cbn [length] in Hlen.
    assert (Hn : length pre' = n) by lia.
    cbn [update_loop]. rewrite <- app_assoc. cbn [app].
    rewrite <- Hn. rewrite nth_error_app2 by lia. rewrite Nat.sub_diag. cbn [nth_error].
    rewrite filter_app. cbn [filter]. unfold expires_not at 2.
    destruct (Rltb (DebugLine.m_life x - dt) 0) eqn:Hx; cbn [negb].
    + rewrite app_nil_r.
      destruct (nil_or_snoc tail) as [-> | [tl [y ->]]].
      * rewrite eraseFast_last. rewrite Hn.
        rewrite <- (app_nil_r pre') at 1. apply IH; [exact Hn | reflexivity].
      * rewrite eraseFast_middle. rewrite Hn.
        rewrite forallb_app in Htail. apply andb_true_iff in Htail.
        destruct Htail as [Htl Hy]. cbn in Hy. rewrite andb_true_r in Hy.
        eapply Permutation_trans.
        -- apply IH; [exact Hn |]. cbn [forallb]. rewrite Hy, Htl. reflexivity.
        -- apply Permutation_app_head. apply Permutation_cons_append.
    + rewrite Hn. rewrite <- app_assoc. cbn [app].
      apply IH; [exact Hn |]. cbn [forallb]. unfold expires_not at 1.
      rewrite Hx. cbn. exact Htail.
Qed.

(** X9. [update(dt)] keeps exactly the lines whose stored lifetime is at
    least [dt], each with the lifetime it had, possibly in another order,
    and removes the others; the registries and the universe are not
    touched. *)
Theorem update_keeps_unexpired (s : t) (dt : R) :
  Permutation (m_debug_lines (update s dt))
    (filter (expires_not dt) (m_debug_lines s))
  /\ with_debug_lines (update s dt) (m_debug_lines s) = s.
Proof.
  split.
  - unfold update. cbn [m_debug_lines with_debug_lines].
    pose proof (update_loop_keeps dt (length (m_debug_lines s)) (m_debug_lines s) []
                  eq_refl eq_refl) as H.
    rewrite !app_nil_r in H. exact H.
  - destruct s. reflexivity.
Qed.

End UpdateKeeps.

Section Lookups.

Import RenderSceneImpl.

Lemma getCameraInSlot_loop_first (slot : string) (cs : list Camera.t) :
  forall i0 : Z,
    (getCameraInSlot_loop cs i0 slot = Component.INVALID
     /\ forall k c, nth_error cs k = Some c -> Camera.m_slot c <> slot)
    \/ exists k c,
         nth_error cs k = Some c
         /\ Camera.m_slot c = slot
         /\ getCameraInSlot_loop cs i0 slot
            = Component.mk (Camera.m_entity c) CAMERA_HASH (i0 + Z.of_nat k)
         /\ forall j c', (j < k)%nat -> nth_error cs j = Some c' -> Camera.m_slot c' <> slot.
Proof.
  induction cs as [| c cs IH]; intros i0.
  - left. split; [reflexivity |]. intros k c Hk. destruct k; discriminate.
  - cbn [getCameraInSlot_loop]. destruct (String.eqb (Camera.m_slot c) slot) eqn:Heq.
    + apply String.eqb_eq in Heq. right. exists 0%nat, c.
      repeat split; try assumption; [rewrite Z.add_0_r; reflexivity |].
      intros j c' Hj. lia.
    + apply String.eqb_neq in Heq.
      destruct (IH (i0 + 1)%Z) as [[Hinv Hnone] | (k & c1 & Hk & Hs & Hres & Hfirst)].
      * left. split; [exact Hinv |]. intros k c1 Hk.
        destruct k; cbn in Hk; [injection Hk as <-; exact Heq | exact (Hnone _ _ Hk)].
      * right. exists (S k), c1. repeat split; try assumption.
        -- rewrite Hres. f_equal. lia.
        -- intros j c' Hj Hnth. destruct j; cbn in Hnth.
           ++ injection Hnth as <-. exact Heq.
           ++ apply (Hfirst j c'); [lia | exact Hnth].
Qed.

(** X10. [getCameraInSlot] answers the invalid component exactly when no
    camera has the slot, and otherwise the component of the first camera,
    in registry order, whose slot is the one asked for: that camera's
    entity, the camera type tag and its index. *)
Theorem getCameraInSlot_first_match (s : t) (slot : string) :
  (getCameraInSlot s slot = Component.INVALID
   /\ forall k c, nth_error (m_cameras s) k = Some c -> Camera.m_slot c <> slot)
  \/ exists k c,
       nth_error (m_cameras s) k = Some c
       /\ Camera.m_slot c = slot
       /\ getCameraInSlot s slot
          = Component.mk (Camera.m_entity c) CAMERA_HASH (Z.of_nat k)
       /\ getCameraInSlot s slot <> Component.INVALID
       /\ forall j c', (j < k)%nat -> nth_error (m_cameras s) j = Some c' ->
                       Camera.m_slot c' <> slot.
Proof.
  unfold getCameraInSlot.
  destruct (getCameraInSlot_loop_first slot (m_cameras s) 0)
    as [H | (k & c & Hk & Hs & Hres & Hfirst)]; [left; exact H | right].
  exists k, c. cbn [Z.add] in Hres. repeat split; try assumption.
  rewrite Hres. unfold Component.INVALID. intros Habs. injection Habs as _ Ht _.
  discriminate Ht.
Qed.

Lemma getTerrainInfos_loop_eq (layer_mask : Z) (ts : list TerrainData.t) :
  forall (i0 : nat) (infos : list TerrainInfo.t),
    getTerrainInfos_loop ts (Z.of_nat i0) layer_mask infos
    = infos ++ flat_map (terrain_info layer_mask) (combine (seq i0 (length ts)) ts).
Proof.
  induction ts as [| tr ts IH]; intros i0 infos.
  - cbn. rewrite app_nil_r. reflexivity.
  - cbn [getTerrainInfos_loop length seq combine flat_map].
    replace (Z.of_nat i0 + 1)%Z with (Z.of_nat (S i0)) by lia.
    rewrite IH. unfold terrain_info at 2. cbn [fst snd].
    destruct (negb (Z.land (TerrainData.m_layer_mask tr) layer_mask =? 0)%Z).
    + unfold Array.push. rewrite <- app_assoc. reflexivity.
    + reflexivity.
Qed.

Lemma in_combine_seq {T : Type} (l : list T) (i0 i : nat) (x : T) :
  In (i, x) (combine (seq i0 (length l)) l) <-> (i0 <= i)%nat /\ nth_error l (i - i0) = Some x.
Proof.
  revert i0. induction l as [| h l IH]; intros i0; cbn [length seq combine In].
  - split; [contradiction |]. intros [_ H]. destruct (i - i0)%nat; discriminate.
  - rewrite IH. split.
    + intros [E | [Hle Hn]].
      * injection E as <- <-. split; [lia |]. rewrite Nat.sub_diag. reflexivity.
      * split; [lia |]. replace (i - i0)%nat with (S (i - S i0)) by lia. exact Hn.
    + intros [Hle Hn]. destruct (i - i0)%nat as [| m] eqn:Hm.
      * left. cbn in Hn. injection Hn as <-. f_equal. lia.
      * right. split; [lia |]. replace (i - S i0)%nat with m by lia. exact Hn.
Qed.

(** X11. [getTerrainInfos] keeps the infos handed in and appends, in
    registry order, one info for every terrain whose layer mask shares a
    bit with [layer_mask] and for no other: the info carries the terrain's
    entity, material and scales and its registry index. *)
Theorem getTerrainInfos_selects (s : t) (infos : list TerrainInfo.t) (layer_mask : Z) :
  exists added,
    getTerrainInfos s infos layer_mask = infos ++ added
    /\ (forall info,
          In info added
          <-> exists i tr,
                nth_error (m_terrains s) i = Some tr
                /\ Z.land (TerrainData.m_layer_mask tr) layer_mask <> 0%Z
                /\ info = TerrainInfo.mk (TerrainData.m_entity tr) (TerrainData.m_material tr)
                            (Z.of_nat i) (TerrainData.m_xz_scale tr)
                            (TerrainData.m_y_scale tr))
    /\ (length added <= length (m_terrains s))%nat.
Proof.
  exists (flat_map (terrain_info layer_mask)
            (combine (seq 0 (length (m_terrains s))) (m_terrains s))).
  split; [apply (getTerrainInfos_loop_eq layer_mask (m_terrains s) 0) |]. split.
  - intros info. rewrite in_flat_map. split.
    + intros [[i tr] [Hin Hinfo]]. apply in_combine_seq in Hin.
      destruct Hin as [_ Hn]. rewrite Nat.sub_0_r in Hn.
      unfold terrain_info in Hinfo. cbn [fst snd] in Hinfo.
      destruct (Z.land (TerrainData.m_layer_mask tr) layer_mask =? 0)%Z eqn:Hm;
        cbn [negb] in Hinfo; [contradiction |].
      destruct Hinfo as [<- | []]. exists i, tr.
      apply Z.eqb_neq in Hm. repeat split; assumption.
    + intros (i & tr & Hn & Hm & ->). exists (i, tr). split.
      * apply in_combine_seq. split; [lia |]. rewrite Nat.sub_0_r. exact Hn.
      * unfold terrain_info. cbn [fst snd].
        apply Z.eqb_neq in Hm. rewrite Hm. cbn. left. reflexivity.
  - generalize 0%nat. induction (m_terrains s) as [| tr ts IH]; intros i0; [cbn; lia |].
    cbn [length seq combine flat_map]. rewrite length_app.
    specialize (IH (S i0)). unfold terrain_info at 1.
    destruct (negb _); cbn [length]; lia.
Qed.

(** X12. A light made by [createComponent] is found by [getLight]: the
    component returned has the index the registry had as its size, and
    [getLight] at that index answers the same component. *)
Theorem createComponent_light_getLight (env : Environment) (s : t) (entity : Entity.t) :
  let cmp := fst (createComponent env s LIGHT_HASH entity) in
  let s' := snd (createComponent env s LIGHT_HASH entity) in
  cmp = Component.mk entity LIGHT_HASH (Array.size (m_lights s))
  /\ getLight s' (Component.index cmp) = Some (cmp, s')
  /\ Array.size (m_lights s') = (Array.size (m_lights s) + 1)%Z.
Proof.
  cbv zeta. unfold createComponent. cbn.
  unfold addComponent, Array.push. cbn [fst snd m_lights with_lights].
  assert (Hsize : (Array.size (m_lights s ++ [Light.mk Light.DIRECTIONAL entity]) - 1
                   = Array.size (m_lights s))%Z).
  { unfold Array.size. rewrite length_app. cbn [length]. lia. }
  rewrite Hsize. split; [reflexivity |]. split.
  - cbn [Component.index]. unfold getLight. cbn [m_lights].
    replace (Array.size (m_lights s) >=? Array.size (m_lights s ++ [_]))%Z with false
      by (symmetry; rewrite Z.geb_leb; apply Z.leb_gt; lia).
    unfold Array.get, Array.size.
    replace (Z.of_nat (length (m_lights s)) <? 0)%Z with false
      by (symmetry; apply Z.ltb_ge; lia).
    rewrite Nat2Z.id. rewrite nth_error_app2 by lia. rewrite Nat.sub_diag. reflexivity.
  - lia.
Qed.

(** X13. A terrain made by [createComponent] is on layer mask 1 with both
    scales 1 and no material: [getTerrainInfos] reports it, under the
    index of the component returned, for every layer mask whose lowest bit
    is set. *)
Theorem createComponent_terrain_getTerrainInfos
  (env : Environment) (s : t) (entity : Entity.t) (layer_mask : Z) :
  Z.testbit layer_mask 0 = true ->
  let cmp := fst (createComponent env s TERRAIN_HASH entity) in
  let s' := snd (createComponent env s TERRAIN_HASH entity) in
  Component.index cmp = Array.size (m_terrains s)
  /\ In (TerrainInfo.mk entity None (Component.index cmp) 1 1)
       (getTerrainInfos s' [] layer_mask).
Proof.
  intros Hbit. cbv zeta.
  assert (Hidx : Component.index (fst (createComponent env s TERRAIN_HASH entity))
                 = Array.size (m_terrains s)).
  { unfold createComponent. cbn. unfold Array.size, Array.push.
    rewrite length_app. cbn [length]. lia. }
  split; [exact Hidx |].
  destruct (getTerrainInfos_selects (snd (createComponent env s TERRAIN_HASH entity)) []
              layer_mask) as (added & -> & Hiff & _).
  cbn [app]. apply Hiff.
  exists (length (m_terrains s)), (new_Terrain env entity). split; [| split].
  - unfold createComponent. cbn. unfold Array.push.
    rewrite nth_error_app2 by lia. rewrite Nat.sub_diag. reflexivity.
  - cbn [new_Terrain TerrainData.m_layer_mask].
    intros Hz. assert (Ht : Z.testbit (Z.land 1 layer_mask) 0 = true).
    { rewrite Z.land_spec, Hbit. reflexivity. }
    rewrite Hz in Ht. discriminate.
  - rewrite Hidx. reflexivity.
Qed.

Lemma createComponent_terrain_getTerrainInfos_witness :
  Z.testbit 5 0 = true
  /\ In (TerrainInfo.mk (Entity.mk 1 9) None 0 1 1)
       (getTerrainInfos (snd (createComponent zeroed_env (create 1) TERRAIN_HASH (Entity.mk 1 9)))
          [] 5).
Proof.
  split; [reflexivity |].
  exact (proj2 (createComponent_terrain_getTerrainInfos zeroed_env (create 1)
                  (Entity.mk 1 9) 5 eq_refl)).
Defined.

End Lookups.

(** * Serialization round trips *)

Section SerializeDefined.

Import RenderSceneImpl.

Lemma serializeTerrain_items_none (ts : list TerrainData.t) :
  serializeTerrain_items ts = None
  <-> exists tr, In tr ts /\ TerrainData.m_material tr = None.
Proof.
  induction ts as [| tr ts IH]; cbn [serializeTerrain_items].
  - split; [discriminate | intros [tr [[] _]]].
  - unfold serializeTerrain at 1.
    destruct (TerrainData.m_material tr) as [material |] eqn:Hm.
    + destruct (serializeTerrain_items ts) as [items |].
      * split; [discriminate |]. intros [tr' [[<- | Hin] Hnone]]; [congruence |].
        assert (Habs : Some items = None) by (apply IH; exists tr'; split; assumption).
        discriminate Habs.
      * split; [intros _ | reflexivity].
        destruct (proj1 IH eq_refl) as [tr' [Hin Hnone]].
        exists tr'. split; [right; exact Hin | exact Hnone].
    + split; [intros _ | reflexivity]. exists tr. split; [left; reflexivity | exact Hm].
Qed.

(** X14. [serialize] reads the material of every terrain without a test:
    it produces a stream exactly when every terrain has a material, and a
    terrain as [createComponent] makes it, before [setTerrainMaterial], is
    enough to make it read through a null pointer. *)
Theorem serialize_needs_terrain_materials (s : t) :
  (serialize s = None
   <-> exists tr, In tr (m_terrains s) /\ TerrainData.m_material tr = None)
  /\ forall env entity,
       serialize (snd (createComponent env s TERRAIN_HASH entity)) = None.
Proof.
  assert (Hiff : forall s0, serialize s0 = None
                            <-> exists tr, In tr (m_terrains s0)
                                           /\ TerrainData.m_material tr = None).
  { intros s0. rewrite <- serializeTerrain_items_none.
    unfold serialize, serializeTerrains.
    destruct (serializeTerrain_items (m_terrains s0)); split; intros H;
      try discriminate; reflexivity. }
  split; [apply Hiff |].
  intros env entity. apply Hiff. exists (new_Terrain env entity). split.
  - unfold createComponent. cbn. unfold Array.push. apply in_or_app. right. left. reflexivity.
  - reflexivity.
Qed.

End SerializeDefined.

Lemma firstn_set_nat {T : Type} (l : list T) (k : nat) (v old : T) :
  nth_error l k = Some old ->
  firstn (S k) (Array.set_nat l k v) = firstn k l ++ [v]
  /\ skipn (S k) (Array.set_nat l k v) = skipn (S k) l
  /\ skipn k l = old :: skipn (S k) l.
Proof.
  revert k. induction l as [| h l IH]; intros k Hk; [destruct k; discriminate |].
  destruct k as [| k].
  - cbn in Hk. injection Hk as ->. cbn. repeat split.
  - cbn in Hk. destruct (IH k Hk) as (H1 & H2 & H3).
    split; [| split].
    + change (h :: firstn (S k) (Array.set_nat l k v) = h :: (firstn k l ++ [v])).
      rewrite H1. reflexivity.
    + change (skipn (S k) (Array.set_nat l k v) = skipn (S k) l). exact H2.
    + change (skipn k l = old :: skipn (S k) l). exact H3.
Qed.

Section FillLoop.

Import RenderSceneImpl.

Context {T : Type}.
Variable get : t -> list T.
Variable put : t -> list T -> t.
Variable ser : T -> ISerializer.stream.
Variable body : Z -> t -> ISerializer.reader t.
Variable upd : T -> T -> T.
Variable ent : T -> Entity.t.
Variable tag : Z.
Variable ok : Z -> T -> Prop.

Hypothesis get_put : forall s l, get (put s l) = l.
Hypothesis get_add : forall s e ty i, get (snd (addComponent s e ty i)) = get s.
Hypothesis universe_put : forall s l, m_universe (put s l) = m_universe s.
Hypothesis components_put : forall s l, universe_components (put s l) = universe_components s.
Hypothesis body_spec :
  forall (k : nat) s x old rest,
    ok (m_universe s) x -> nth_error (get s) k = Some old ->
    body (Z.of_nat k) s (ser x ++ rest)
    = Some (snd (addComponent (put s (Array.set_nat (get s) k (upd x old)))
                   (ent x) tag (Z.of_nat k)), rest).

(** The loop that reads one record per entry into the entries from [k] on. *)
Lemma for_loop_fills (xs : list T) :
  forall (k : nat) (s : t) (rest : ISerializer.stream),
    Forall (ok (m_universe s)) xs ->
    (k + length xs <= length (get s))%nat ->
    exists s',
      for_loop (length xs) (Z.of_nat k) body s (flat_map ser xs ++ rest) = Some (s', rest)
      /\ get s' = firstn k (get s) ++ zip_entries upd xs (skipn k (get s))
      /\ m_universe s' = m_universe s
      /\ universe_components s'
         = universe_components s
           ++ map (fun ix => Component.mk (ent (snd ix)) tag (Z.of_nat (fst ix)))
                (combine (seq k (length xs)) xs)
      /\ forall (A : Type) (f : t -> A),
           (forall s0 l, f (put s0 l) = f s0) ->
           (forall s0 e ty i, f (snd (addComponent s0 e ty i)) = f s0) ->
           f s' = f s.
Proof.
  induction xs as [| x xs IH]; intros k s rest Hok Hlen.
  - exists s. cbn. rewrite app_nil_r.
    repeat split; try reflexivity. symmetry. apply firstn_skipn.
  - cbn [length] in Hlen.
    destruct (nth_error (get s) k) as [old |] eqn:Hold;
      [| apply nth_error_None in Hold; lia].
    inversion Hok as [| ? ? Hx Hxs]; subst.
    cbn [length for_loop flat_map]. unfold ISerializer.bind at 1.
    rewrite <- app_assoc. rewrite (body_spec k s x old _ Hx Hold).
    set (s1 := snd (addComponent (put s (Array.set_nat (get s) k (upd x old)))
                      (ent x) tag (Z.of_nat k))).
    assert (Hget1 : get s1 = Array.set_nat (get s) k (upd x old)).
    { unfold s1. rewrite get_add, get_put. reflexivity. }
    assert (Hu1 : m_universe s1 = m_universe s).
    { unfold s1. cbn. apply universe_put. }
    destruct (IH (S k) s1 rest) as (s' & Hrun & Hget & Hu & Hc & Hframe).
    { rewrite Hu1. exact Hxs. }
    { rewrite Hget1, length_set_nat. lia. }
    replace (Z.of_nat k + 1)%Z with (Z.of_nat (S k)) by lia.
    exists s'. split; [exact Hrun |].
    destruct (firstn_set_nat (get s) k (upd x old) old Hold) as (F1 & F2 & F3).
    split; [| split; [| split]].
    + rewrite Hget, Hget1, F1, F2, F3. cbn [zip_entries]. rewrite <- app_assoc. reflexivity.
    + rewrite Hu. exact Hu1.
    + rewrite Hc. unfold s1. cbn [addComponent snd universe_components].
      rewrite components_put. cbn [seq combine map fst snd]. rewrite <- app_assoc. reflexivity.
    + intros A f Hput Hadd. rewrite (Hframe A f Hput Hadd). unfold s1.
      rewrite Hadd, Hput. reflexivity.
Qed.

End FillLoop.

Section RoundTrips.

Import RenderSceneImpl.

Variable env : Environment.

Lemma set_of_nat {T : Type} (l : list T) (k : nat) (v : T) :
  Array.set l (Z.of_nat k) v = Array.set_nat l k v.
Proof.
  unfold Array.set.
  replace (Z.of_nat k <? 0)%Z with false by (symmetry; apply Z.ltb_ge; lia).
  rewrite Nat2Z.id. reflexivity.
Qed.

Lemma zip_entries_source {T : Type} (xs olds : list T) :
  length xs = length olds -> zip_entries (fun x _ => x) xs olds = xs.
Proof.
  revert olds. induction xs as [| x xs IH]; intros [| o olds] H; try discriminate.
  - reflexivity.
  - cbn. rewrite IH by (cbn in H; lia). reflexivity.
Qed.

Lemma nth_error_zip_entries {T : Type} (upd : T -> T -> T) (d : T) (xs : list T) :
  forall (olds : list T) (i : nat) (x : T),
    length xs = length olds ->
    nth_error xs i = Some x ->
    nth_error (zip_entries upd xs olds) i = Some (upd x (nth i olds d)).
Proof.
  induction xs as [| x0 xs IH]; intros [| o olds] i x Hlen Hi; try discriminate.
  - destruct i; discriminate.
  - destruct i as [| i]; cbn in Hi |- *.
    + injection Hi as <-. reflexivity.
    + apply IH; [cbn in Hlen; lia | exact Hi].
Qed.

Lemma length_zip_entries {T : Type} (upd : T -> T -> T) (xs : list T) :
  forall olds, length xs = length olds -> length (zip_entries upd xs olds) = length xs.
Proof.
  induction xs as [| x xs IH]; intros [| o olds] H; try discriminate; [reflexivity |].
  cbn. rewrite IH by (cbn in H; lia). reflexivity.
Qed.

Lemma nth_resize {T : Type} (l : list T) (n i : nat) (fresh d : T) :
  (i < n)%nat -> nth i (Array.resize l n fresh) d = nth i l fresh.
Proof.
  intros Hi. unfold Array.resize.
  destruct (Nat.lt_ge_cases i (length l)) as [Hl | Hl].
  - rewrite app_nth1 by (rewrite length_firstn; lia).
    rewrite nth_firstn. replace (i <? n)%nat with true by (symmetry; apply Nat.ltb_lt; lia).
    apply nth_indep. exact Hl.
  - rewrite app_nth2 by (rewrite length_firstn; lia).
    rewrite length_firstn. rewrite (nth_overflow l) by lia.
    rewrite nth_repeat_lt by lia. reflexivity.
Qed.

Lemma resize_count_size {T : Type} (l : list T) (st : ISerializer.stream) :
  resize_count (Array.size l) st = Some (length l, st).
Proof.
  unfold resize_count, Array.size.
  replace (Z.of_nat (length l) <? 0)%Z with false by (symmetry; apply Z.ltb_ge; lia).
  unfold ISerializer.ret. rewrite Nat2Z.id. reflexivity.
Qed.

Lemma substring_all (str : string) :
  forall n, (String.length str <= n)%nat -> substring 0 n str = str.
Proof.
  induction str as [| c str IH]; intros n Hn.
  - destruct n; reflexivity.
  - destruct n as [| n]; cbn in Hn; [lia |]. cbn. rewrite IH by lia. reflexivity.
Qed.

(** *** Lights *)

Lemma deserializeLight_body (k : nat) (s : t) (x old : Light.t) rest :
  Entity.universe (Light.m_entity x) = m_universe s ->
  nth_error (m_lights s) k = Some old ->
  deserializeLight (Z.of_nat k) s (serializeLight x ++ rest)
  = Some (snd (addComponent (with_lights s (Array.set_nat (m_lights s) k x))
                 (Light.m_entity x) LIGHT_HASH (Z.of_nat k)), rest).
Proof.
  intros Hu _. destruct x as [ty [u idx]]. cbn in Hu. subst u.
  unfold deserializeLight, serializeLight. cbn. rewrite set_of_nat. reflexivity.
Qed.

Lemma deserializeLights_serialized (s0 s : t) (rest : ISerializer.stream) :
  (forall l, In l (m_lights s) -> Entity.universe (Light.m_entity l) = m_universe s0) ->
  exists s',
    deserializeLights env s0 (serializeLights s ++ rest) = Some (s', rest)
    /\ m_lights s' = m_lights s
    /\ universe_components s'
       = universe_components s0
         ++ map (fun ix => Component.mk (Light.m_entity (snd ix)) LIGHT_HASH (Z.of_nat (fst ix)))
              (combine (seq 0 (length (m_lights s))) (m_lights s))
    /\ m_cameras s' = m_cameras s0
    /\ m_renderables s' = m_renderables s0
    /\ m_terrains s' = m_terrains s0
    /\ m_debug_lines s' = m_debug_lines s0
    /\ m_universe s' = m_universe s0.
Proof.
  intros Hu.
  set (s1 := with_lights s0 (Array.resize (m_lights s0) (length (m_lights s)) (new_Light env))).
  destruct (for_loop_fills m_lights with_lights serializeLight deserializeLight
              (fun x _ => x) Light.m_entity LIGHT_HASH
              (fun u x => Entity.universe (Light.m_entity x) = u)
              (fun _ _ => eq_refl) (fun _ _ _ _ => eq_refl) (fun _ _ => eq_refl)
              (fun _ _ => eq_refl) deserializeLight_body
              (m_lights s) 0%nat s1 (ISerializer.EndArray :: rest))
    as (s' & Hrun & Hget & Huniv & Hcomp & Hframe).
  { apply Forall_forall. exact Hu. }
  { cbn. rewrite length_resize. lia. }
  exists s'. split.
  - unfold deserializeLights, serializeLights.
    rewrite <- !app_assoc. cbn [app ISerializer.bind ISerializer.deserialize
                                  ISerializer.deserializeArrayBegin].
    unfold ISerializer.bind. rewrite resize_count_size.
    subst s1. cbn [Z.of_nat] in Hrun. rewrite Hrun. reflexivity.
  - subst s1. cbn [firstn skipn app m_lights with_lights] in Hget.
    rewrite zip_entries_source in Hget by (rewrite length_resize; reflexivity).
    repeat split; try assumption.
    + apply (Hframe _ m_cameras); reflexivity.
    + apply (Hframe _ m_renderables); reflexivity.
    + apply (Hframe _ m_terrains); reflexivity.
    + apply (Hframe _ m_debug_lines); reflexivity.
Qed.

(** *** Cameras *)

Lemma deserializeCamera_body (k : nat) (s : t) (x old : Camera.t) rest :
  camera_restorable (m_universe s) x ->
  nth_error (m_cameras s) k = Some old ->
  deserializeCamera (Z.of_nat k) s (serializeCamera x ++ rest)
  = Some (snd (addComponent (with_cameras s (Array.set_nat (m_cameras s) k x))
                 (Camera.m_entity x) CAMERA_HASH (Z.of_nat k)), rest).
Proof.
  intros (Hu & Ha & Hs) _.
  destruct x as [[u idx] fov aspect near far width height active slot].
  cbn in Hu, Ha, Hs. subst u aspect.
  unfold deserializeCamera, serializeCamera. cbn.
  rewrite substring_all by exact Hs. rewrite set_of_nat. reflexivity.
Qed.

Lemma deserializeCameras_serialized (s0 s : t) (rest : ISerializer.stream) :
  (forall c, In c (m_cameras s) -> camera_restorable (m_universe s0) c) ->
  exists s',
    deserializeCameras env s0 (serializeCameras s ++ rest) = Some (s', rest)
    /\ m_cameras s' = m_cameras s
    /\ universe_components s'
       = universe_components s0
         ++ map (fun ix => Component.mk (Camera.m_entity (snd ix)) CAMERA_HASH
                             (Z.of_nat (fst ix)))
              (combine (seq 0 (length (m_cameras s))) (m_cameras s))
    /\ m_lights s' = m_lights s0
    /\ m_renderables s' = m_renderables s0
    /\ m_terrains s' = m_terrains s0
    /\ m_debug_lines s' = m_debug_lines s0
    /\ m_universe s' = m_universe s0.
Proof.
  intros Hu.
  set (s1 := with_cameras s0
               (Array.resize (m_cameras s0) (length (m_cameras s)) (new_Camera env))).
  destruct (for_loop_fills m_cameras with_cameras serializeCamera deserializeCamera
              (fun x _ => x) Camera.m_entity CAMERA_HASH camera_restorable
              (fun _ _ => eq_refl) (fun _ _ _ _ => eq_refl) (fun _ _ => eq_refl)
              (fun _ _ => eq_refl) deserializeCamera_body
              (m_cameras s) 0%nat s1 (ISerializer.EndArray :: rest))
    as (s' & Hrun & Hget & Huniv & Hcomp & Hframe).
  { apply Forall_forall. exact Hu. }
  { cbn. rewrite length_resize. lia. }
  exists s'. split.
  - unfold deserializeCameras, serializeCameras.
    rewrite <- !app_assoc. cbn [app ISerializer.bind ISerializer.deserialize
                                  ISerializer.deserializeArrayBegin].
    unfold ISerializer.bind. rewrite resize_count_size.
    subst s1. cbn [Z.of_nat] in Hrun. rewrite Hrun. reflexivity.
  - subst s1. cbn [firstn skipn app m_cameras with_cameras] in Hget.
    rewrite zip_entries_source in Hget by (rewrite length_resize; reflexivity).
    repeat split; try assumption.
    + apply (Hframe _ m_lights); reflexivity.
    + apply (Hframe _ m_renderables); reflexivity.
    + apply (Hframe _ m_terrains); reflexivity.
    + apply (Hframe _ m_debug_lines); reflexivity.
Qed.

(** *** Renderables *)

Lemma deserializeMatrix_restores (mtx m0 : Matrix.t) (rest : ISerializer.stream) :
  deserializeMatrix 16 0 m0
    (map (fun j => item_float (Matrix.at_ mtx j)) (seq 0 16) ++ rest)
  = Some (mtx, rest).
Proof. destruct mtx, m0. reflexivity. Qed.

Lemma get_of_nat {T : Type} (l : list T) (k : nat) :
  Array.get l (Z.of_nat k) = nth_error l k.
Proof.
  unfold Array.get.
  replace (Z.of_nat k <? 0)%Z with false by (symmetry; apply Z.ltb_ge; lia).
  rewrite Nat2Z.id. reflexivity.
Qed.

Lemma deserializeRenderable_body (k : nat) (s : t) (x old : Renderable.t) rest :
  Entity.universe (Renderable.m_entity x) = m_universe s ->
  nth_error (m_renderables s) k = Some old ->
  deserializeRenderable env (Z.of_nat k) s (serializeRenderable x ++ rest)
  = Some (snd (addComponent
                 (with_renderables s
                    (Array.set_nat (m_renderables s) k (restored_renderable env x old)))
                 (Renderable.m_entity x) RENDERABLE_HASH (Z.of_nat k)), rest).
Proof.
  intros Hu Hold. destruct x as [[model mtx] [u idx] mask scale]. cbn in Hu. subst u.
  unfold deserializeRenderable, serializeRenderable. rewrite get_of_nat, Hold.
  cbn [Renderable.m_entity Renderable.m_model Renderable.m_scale Entity.index
       ModelInstance.getModel ModelInstance.getMatrix].
  rewrite <- app_assoc.
  cbn [app ISerializer.bind ISerializer.deserializeArrayItem_int
       ISerializer.deserializeArrayItem_string ISerializer.deserializeArrayItem_float
       item_int item_string item_float].
  unfold ISerializer.bind.
  change (fun j : nat => ISerializer.ArrayItem (ISerializer.VFloat (Matrix.at_ mtx j)))
    with (fun j : nat => item_float (Matrix.at_ mtx j)).
  rewrite deserializeMatrix_restores.
  unfold ISerializer.ret. rewrite set_of_nat. reflexivity.
Qed.

Lemma deserializeRenderables_serialized (s0 s : t) (rest : ISerializer.stream) :
  (forall r, In r (m_renderables s) ->
             Entity.universe (Renderable.m_entity r) = m_universe s0) ->
  exists s',
    deserializeRenderables env s0 (serializeRenderables s ++ rest) = Some (s', rest)
    /\ length (m_renderables s') = length (m_renderables s)
    /\ (forall i r,
          nth_error (m_renderables s) i = Some r ->
          nth_error (m_renderables s') i
          = Some (restored_renderable env r
                    (nth i (m_renderables s0) (new_Renderable env))))
    /\ universe_components s'
       = universe_components s0
         ++ map (fun ix => Component.mk (Renderable.m_entity (snd ix)) RENDERABLE_HASH
                             (Z.of_nat (fst ix)))
              (combine (seq 0 (length (m_renderables s))) (m_renderables s))
    /\ m_cameras s' = m_cameras s0
    /\ m_lights s' = m_lights s0
    /\ m_terrains s' = m_terrains s0
    /\ m_debug_lines s' = m_debug_lines s0
    /\ m_universe s' = m_universe s0.
Proof.
  intros Hu.
  set (s1 := with_renderables s0
               (Array.resize (m_renderables s0) (length (m_renderables s))
                  (new_Renderable env))).
  destruct (for_loop_fills m_renderables with_renderables serializeRenderable
              (deserializeRenderable env) (restored_renderable env)
              Renderable.m_entity RENDERABLE_HASH
              (fun u x => Entity.universe (Renderable.m_entity x) = u)
              (fun _ _ => eq_refl) (fun _ _ _ _ => eq_refl) (fun _ _ => eq_refl)
              (fun _ _ => eq_refl) deserializeRenderable_body
              (m_renderables s) 0%nat s1 (ISerializer.EndArray :: rest))
    as (s' & Hrun & Hget & Huniv & Hcomp & Hframe).
  { apply Forall_forall. exact Hu. }
  { cbn. rewrite length_resize. lia. }
  exists s'. split.
  - unfold deserializeRenderables, serializeRenderables.
    rewrite <- !app_assoc. cbn [app ISerializer.bind ISerializer.deserialize
                                  ISerializer.deserializeArrayBegin].
    unfold ISerializer.bind. rewrite resize_count_size.
    subst s1. cbn [Z.of_nat] in Hrun. rewrite Hrun. reflexivity.
  - subst s1. cbn [firstn skipn app m_renderables with_renderables] in Hget.
    split; [| split].
    + rewrite Hget. apply length_zip_entries. rewrite length_resize. reflexivity.
    + intros i r Hi. rewrite Hget.
      rewrite (nth_error_zip_entries _ (new_Renderable env) _ _ i r)
        by (rewrite ?length_resize; trivial).
      rewrite nth_resize; [reflexivity |].
      apply nth_error_Some. rewrite Hi. discriminate.
    + repeat split; try assumption.
      * apply (Hframe _ m_cameras); reflexivity.
      * apply (Hframe _ m_lights); reflexivity.
      * apply (Hframe _ m_terrains); reflexivity.
      * apply (Hframe _ m_debug_lines); reflexivity.
Qed.

(** *** Terrains *)

Lemma get_last {T : Type} (l : list T) (x : T) :
  Array.get (l ++ [x]) (Z.of_nat (length l)) = Some x.
Proof.
  rewrite get_of_nat. rewrite nth_error_app2 by lia. rewrite Nat.sub_diag. reflexivity.
Qed.

Lemma set_last {T : Type} (l : list T) (x v : T) :
  Array.set (l ++ [x]) (Z.of_nat (length l)) v = l ++ [v].
Proof.
  rewrite set_of_nat. induction l as [| h l IH]; cbn; [reflexivity |].
  rewrite IH. reflexivity.
Qed.

Lemma createComponent_terrain (s : t) (e : Entity.t) :
  createComponent env s TERRAIN_HASH e
  = (Component.mk e TERRAIN_HASH (Z.of_nat (length (m_terrains s))),
     mk (m_renderables s) (m_lights s) (m_cameras s)
       (m_terrains s ++ [new_Terrain env e]) (m_universe s)
       (universe_components s
        ++ [Component.mk e TERRAIN_HASH (Z.of_nat (length (m_terrains s)))])
       (m_debug_lines s)).
Proof.
  unfold createComponent. cbn. unfold addComponent, Array.push, with_terrains. cbn.
  replace (Array.size (m_terrains s ++ [new_Terrain env e]) - 1)%Z
    with (Z.of_nat (length (m_terrains s)))
    by (unfold Array.size; rewrite length_app; cbn [length]; lia).
  reflexivity.
Qed.

Lemma deserializeTerrain_appended (s : t) (tr : TerrainData.t) (items rest : ISerializer.stream) :
  serializeTerrain tr = Some items ->
  deserializeTerrain env (Z.of_nat (length (m_terrains s))) s (items ++ rest)
  = Some (mk (m_renderables s) (m_lights s) (m_cameras s)
            (m_terrains s ++ [restored_terrain env (m_universe s) tr]) (m_universe s)
            (universe_components s
             ++ [Component.mk (Entity.mk (m_universe s) (Entity.index (TerrainData.m_entity tr)))
                   TERRAIN_HASH (Z.of_nat (length (m_terrains s)))])
            (m_debug_lines s), rest).
Proof.
  unfold serializeTerrain. destruct (TerrainData.m_material tr) as [material |] eqn:Hm;
    [| discriminate].
  intros H. injection H as <-.
  unfold deserializeTerrain. cbn [app ISerializer.bind ISerializer.deserializeArrayItem_int item_int].
  rewrite createComponent_terrain. cbn [fst snd Component.index m_terrains].
  rewrite get_last.
  cbn [ISerializer.bind ISerializer.deserializeArrayItem_int item_int
       ISerializer.deserializeArrayItem_string item_string].
  unfold setTerrainMaterial. cbn [m_terrains with_terrains Component.index].
  rewrite set_last, get_last, set_last.
  cbn [ISerializer.bind ISerializer.deserializeArrayItem_float item_float
       m_terrains with_terrains].
  rewrite get_last, set_last.
  cbn [ISerializer.bind ISerializer.deserializeArrayItem_float item_float
       m_terrains with_terrains].
  rewrite get_last, set_last.
  unfold ISerializer.ret, with_terrains, restored_terrain. rewrite Hm. reflexivity.
Qed.

Lemma deserializeTerrain_loop (ts : list TerrainData.t) :
  forall (s : t) (items rest : ISerializer.stream),
    serializeTerrain_items ts = Some items ->
    for_loop (length ts) (Z.of_nat (length (m_terrains s))) (deserializeTerrain env) s
      (items ++ rest)
    = Some (mk (m_renderables s) (m_lights s) (m_cameras s)
              (m_terrains s ++ map (restored_terrain env (m_universe s)) ts) (m_universe s)
              (universe_components s
               ++ map (fun ix =>
                         Component.mk
                           (Entity.mk (m_universe s)
                              (Entity.index (TerrainData.m_entity (snd ix))))
                           TERRAIN_HASH (Z.of_nat (fst ix)))
                    (combine (seq (length (m_terrains s)) (length ts)) ts))
              (m_debug_lines s), rest).
Proof.
  induction ts as [| tr ts IH]; intros s items rest Hser.
  - cbn in Hser. injection Hser as <-. cbn. rewrite !app_nil_r. destruct s. reflexivity.
  - cbn [serializeTerrain_items] in Hser.
    destruct (serializeTerrain tr) as [a |] eqn:Ha; [| discriminate].
    destruct (serializeTerrain_items ts) as [b |] eqn:Hb; [| discriminate].
    injection Hser as <-.
    cbn [length for_loop]. unfold ISerializer.bind at 1.
    rewrite <- app_assoc. rewrite (deserializeTerrain_appended s tr a _ Ha).
    set (s1 := mk (m_renderables s) (m_lights s) (m_cameras s)
                 (m_terrains s ++ [restored_terrain env (m_universe s) tr]) (m_universe s)
                 (universe_components s
                  ++ [Component.mk
                        (Entity.mk (m_universe s) (Entity.index (TerrainData.m_entity tr)))
                        TERRAIN_HASH (Z.of_nat (length (m_terrains s)))])
                 (m_debug_lines s)).
    replace (Z.of_nat (length (m_terrains s)) + 1)%Z with (Z.of_nat (length (m_terrains s1)))
      by (unfold s1; cbn [m_terrains]; rewrite length_app; cbn [length]; lia).
    rewrite (IH s1 b rest eq_refl). unfold s1.
    cbn [m_renderables m_lights m_cameras m_terrains m_universe universe_components
         m_debug_lines map combine seq fst snd].
    rewrite <- !app_assoc. cbn [app].
    replace (length (m_terrains s ++ [restored_terrain env (m_universe s) tr]))
      with (S (length (m_terrains s))) by (rewrite length_app; cbn [length]; lia).
    reflexivity.
Qed.

Lemma deserializeTerrains_serialized
  (s0 s : t) (stream rest : ISerializer.stream) :
  m_terrains s0 = [] ->
  serializeTerrains s = Some stream ->
  exists s',
    deserializeTerrains env s0 (stream ++ rest) = Some (s', rest)
    /\ m_terrains s' = map (restored_terrain env (m_universe s0)) (m_terrains s)
    /\ universe_components s'
       = universe_components s0
         ++ map (fun ix =>
                   Component.mk
                     (Entity.mk (m_universe s0) (Entity.index (TerrainData.m_entity (snd ix))))
                     TERRAIN_HASH (Z.of_nat (fst ix)))
              (combine (seq 0 (length (m_terrains s))) (m_terrains s))
    /\ m_cameras s' = m_cameras s0
    /\ m_lights s' = m_lights s0
    /\ m_renderables s' = m_renderables s0
    /\ m_debug_lines s' = m_debug_lines s0
    /\ m_universe s' = m_universe s0.
Proof.
  intros Hempty Hser. unfold serializeTerrains in Hser.
  destruct (serializeTerrain_items (m_terrains s)) as [items |] eqn:Hitems; [| discriminate].
  injection Hser as <-.
  eexists. split.
  - unfold deserializeTerrains. cbn [app]. rewrite <- app_assoc.
    cbn [app ISerializer.bind ISerializer.deserialize ISerializer.deserializeArrayBegin].
    unfold ISerializer.bind, Array.size. rewrite Nat2Z.id.
    pose proof (deserializeTerrain_loop (m_terrains s) s0 items
                  (ISerializer.EndArray :: rest) Hitems) as Hloop.
    rewrite Hempty in Hloop. cbn [length Z.of_nat] in Hloop.
    rewrite Hloop. reflexivity.
  - cbn [m_terrains universe_components m_cameras m_lights m_renderables m_debug_lines
         m_universe app]. repeat split.
Qed.

(** *** The whole scene *)

(** X19. A scene that [serialize] can write (every terrain has a material)
    and whose cameras, renderables and lights belong to universe [u], with
    aspects and slots as [deserializeCameras] gives them back, is read into
    a fresh scene of universe [u] as follows: the stream is consumed to its
    end; cameras and lights are equal to the originals; every renderable
    has the original entity, scale and matrix, the model loaded for its
    path and the layer mask of the fresh allocation; every terrain is the
    one [createComponent] and [setTerrainMaterial] make from its record;
    and the universe holds the components of all four registries, each
    under the entity index and the registry index of the original. *)
Theorem deserialize_serialize_fresh (s : t) (u : Z) (stream : ISerializer.stream) :
  serialize s = Some stream ->
  (forall c, In c (m_cameras s) -> camera_restorable u c) ->
  (forall r, In r (m_renderables s) -> Entity.universe (Renderable.m_entity r) = u) ->
  (forall l, In l (m_lights s) -> Entity.universe (Light.m_entity l) = u) ->
  exists s',
    deserialize env (create u) stream = Some (s', [])
    /\ m_cameras s' = m_cameras s
    /\ m_lights s' = m_lights s
    /\ length (m_renderables s') = length (m_renderables s)
    /\ (forall i r,
          nth_error (m_renderables s) i = Some r ->
          nth_error (m_renderables s') i
          = Some (restored_renderable env r (new_Renderable env)))
    /\ m_terrains s' = map (restored_terrain env u) (m_terrains s)
    /\ universe_components s'
       = map (fun ix => Component.mk (Camera.m_entity (snd ix)) CAMERA_HASH
                          (Z.of_nat (fst ix)))
           (combine (seq 0 (length (m_cameras s))) (m_cameras s))
         ++ map (fun ix => Component.mk (Renderable.m_entity (snd ix)) RENDERABLE_HASH
                             (Z.of_nat (fst ix)))
              (combine (seq 0 (length (m_renderables s))) (m_renderables s))
         ++ map (fun ix => Component.mk (Light.m_entity (snd ix)) LIGHT_HASH
                             (Z.of_nat (fst ix)))
              (combine (seq 0 (length (m_lights s))) (m_lights s))
         ++ map (fun ix =>
                   Component.mk
                     (Entity.mk u (Entity.index (TerrainData.m_entity (snd ix))))
                     TERRAIN_HASH (Z.of_nat (fst ix)))
              (combine (seq 0 (length (m_terrains s))) (m_terrains s)).
Proof.
  intros Hser Hcams Hrends Hlights.
  unfold serialize in Hser.
  destruct (serializeTerrains s) as [terrains |] eqn:Hterr; [| discriminate].
  assert (E : stream
              = serializeCameras s ++ serializeRenderables s ++ serializeLights s ++ terrains)
    by congruence.
  rewrite E. clear E Hser.
  destruct (deserializeCameras_serialized (create u) s
              (serializeRenderables s ++ serializeLights s ++ terrains) Hcams)
    as (s1 & R1 & C1 & U1 & L1 & Rn1 & T1 & D1 & V1).
  destruct (deserializeRenderables_serialized s1 s (serializeLights s ++ terrains))
    as (s2 & R2 & Len2 & Rn2 & U2 & C2 & L2 & T2 & D2 & V2).
  { rewrite V1. exact Hrends. }
  destruct (deserializeLights_serialized s2 s terrains)
    as (s3 & R3 & L3 & U3 & C3 & Rn3 & T3 & D3 & V3).
  { rewrite V2, V1. exact Hlights. }
  destruct (deserializeTerrains_serialized s3 s terrains [])
    as (s4 & R4 & T4 & U4 & C4 & L4 & Rn4 & D4 & V4).
  { rewrite T3, T2, T1. reflexivity. }
  { exact Hterr. }
  rewrite app_nil_r in R4.
  exists s4. split.
  - unfold deserialize, ISerializer.bind. rewrite R1, R2, R3. exact R4.
  - split; [rewrite C4, C3, C2; exact C1 |].
    split; [rewrite L4; exact L3 |].
    split; [rewrite Rn4, Rn3; exact Len2 |].
    split.
    + intros i r Hi. rewrite Rn4, Rn3, (Rn2 i r Hi), Rn1. cbn [create m_renderables].
      destruct i; reflexivity.
    + split; [rewrite T4, V3, V2, V1; reflexivity |].
      rewrite U4, U3, U2, U1, V3, V2, V1. cbn [create universe_components m_universe app].
      rewrite <- !app_assoc. reflexivity.
Qed.

(** *** The round trips, registry by registry *)

(** X15. Reading back what [serializeLights] wrote restores the lights
    exactly, whatever the registry held before, when the lights' entities
    belong to the universe of the reading scene; every light is registered
    with the universe under its index, the stream is consumed up to the
    end of the array, and nothing else in the scene changes. *)
Theorem deserializeLights_restores (s0 s : t) (rest : ISerializer.stream) :
  (forall l, In l (m_lights s) -> Entity.universe (Light.m_entity l) = m_universe s0) ->
  exists s',
    deserializeLights env s0 (serializeLights s ++ rest) = Some (s', rest)
    /\ m_lights s' = m_lights s
    /\ universe_components s'
       = universe_components s0
         ++ map (fun ix => Component.mk (Light.m_entity (snd ix)) LIGHT_HASH (Z.of_nat (fst ix)))
              (combine (seq 0 (length (m_lights s))) (m_lights s))
    /\ m_cameras s' = m_cameras s0
    /\ m_renderables s' = m_renderables s0
    /\ m_terrains s' = m_terrains s0
    /\ m_debug_lines s' = m_debug_lines s0
    /\ m_universe s' = m_universe s0.
Proof. apply deserializeLights_serialized. Qed.

(** X16. Reading back what [serializeCameras] wrote restores the cameras
    exactly, whatever the registry held before, when every camera belongs
    to the universe of the reading scene, has its cached aspect equal to
    width / height (the aspect is not written but recomputed) and a slot of
    at most 30 characters; every camera is registered with the universe
    under its index and nothing else in the scene changes. *)
Theorem deserializeCameras_restores (s0 s : t) (rest : ISerializer.stream) :
  (forall c, In c (m_cameras s) -> camera_restorable (m_universe s0) c) ->
  exists s',
    deserializeCameras env s0 (serializeCameras s ++ rest) = Some (s', rest)
    /\ m_cameras s' = m_cameras s
    /\ universe_components s'
       = universe_components s0
         ++ map (fun ix => Component.mk (Camera.m_entity (snd ix)) CAMERA_HASH
                             (Z.of_nat (fst ix)))
              (combine (seq 0 (length (m_cameras s))) (m_cameras s))
    /\ m_lights s' = m_lights s0
    /\ m_renderables s' = m_renderables s0
    /\ m_terrains s' = m_terrains s0
    /\ m_debug_lines s' = m_debug_lines s0
    /\ m_universe s' = m_universe s0.
Proof. apply deserializeCameras_serialized. Qed.

(** X17. Reading back what [serializeRenderables] wrote gives as many
    renderables as were written; renderable [i] has the entity, the scale
    and the matrix that were written and the model the resource manager
    loads for the written path, while its layer mask is the one entry [i]
    of the registry held before: an earlier renderable's, or that of the
    fresh allocation. *)
Theorem deserializeRenderables_restores (s0 s : t) (rest : ISerializer.stream) :
  (forall r, In r (m_renderables s) ->
             Entity.universe (Renderable.m_entity r) = m_universe s0) ->
  exists s',
    deserializeRenderables env s0 (serializeRenderables s ++ rest) = Some (s', rest)
    /\ length (m_renderables s') = length (m_renderables s)
    /\ (forall i r,
          nth_error (m_renderables s) i = Some r ->
          nth_error (m_renderables s') i
          = Some (restored_renderable env r
                    (nth i (m_renderables s0) (new_Renderable env))))
    /\ universe_components s'
       = universe_components s0
         ++ map (fun ix => Component.mk (Renderable.m_entity (snd ix)) RENDERABLE_HASH
                             (Z.of_nat (fst ix)))
              (combine (seq 0 (length (m_renderables s))) (m_renderables s))
    /\ m_cameras s' = m_cameras s0
    /\ m_lights s' = m_lights s0
    /\ m_terrains s' = m_terrains s0
    /\ m_debug_lines s' = m_debug_lines s0
    /\ m_universe s' = m_universe s0.
Proof. apply deserializeRenderables_serialized. Qed.

(** X18. Into a scene without terrains, reading back what
    [serializeTerrains] wrote creates one terrain per record, in order:
    each is a terrain as [createComponent] makes it for the written entity
    index, with the written layer mask and scales and the material the
    resource manager loads for the written path; each is registered with
    the universe under its index and nothing else in the scene changes. *)
Theorem deserializeTerrains_restores
  (s0 s : t) (stream rest : ISerializer.stream) :
  m_terrains s0 = [] ->
  serializeTerrains s = Some stream ->
  exists s',
    deserializeTerrains env s0 (stream ++ rest) = Some (s', rest)
    /\ m_terrains s' = map (restored_terrain env (m_universe s0)) (m_terrains s)
    /\ universe_components s'
       = universe_components s0
         ++ map (fun ix =>
                   Component.mk
                     (Entity.mk (m_universe s0) (Entity.index (TerrainData.m_entity (snd ix))))
                     TERRAIN_HASH (Z.of_nat (fst ix)))
              (combine (seq 0 (length (m_terrains s))) (m_terrains s))
    /\ m_cameras s' = m_cameras s0
    /\ m_lights s' = m_lights s0
    /\ m_renderables s' = m_renderables s0
    /\ m_debug_lines s' = m_debug_lines s0
    /\ m_universe s' = m_universe s0.
Proof. apply deserializeTerrains_serialized. Qed.

End RoundTrips.

Section RoundTripExamples.

Import RenderSceneImpl.

Lemma deserializeLights_restores_witness :
  let s := with_lights (create 1)
             [Light.mk Light.DIRECTIONAL (Entity.mk 1 4);
              Light.mk Light.DIRECTIONAL (Entity.mk 1 9)] in
  (forall l, In l (m_lights s) -> Entity.universe (Light.m_entity l) = m_universe (create 1))
  /\ exists s',
       deserializeLights zeroed_env (create 1) (serializeLights s ++ []) = Some (s', [])
       /\ m_lights s' = m_lights s.
Proof.
  cbv zeta.
  assert (H : forall l,
             In l (m_lights (with_lights (create 1)
                               [Light.mk Light.DIRECTIONAL (Entity.mk 1 4);
                                Light.mk Light.DIRECTIONAL (Entity.mk 1 9)])) ->
             Entity.universe (Light.m_entity l) = m_universe (create 1)).
  { intros l [<- | [<- | []]]; reflexivity. }
  split; [exact H |].
  destruct (deserializeLights_restores zeroed_env (create 1) _ [] H)
    as (s' & Hrun & Hl & _).
  exists s'. split; assumption.
Defined.

Lemma deserializeCameras_restores_witness :
  let s := with_cameras (create 1)
             [Camera.mk (Entity.mk 1 2) 60 (800 / 600) (1 / 10) 10000 800 600 true "main"] in
  (forall c, In c (m_cameras s) -> camera_restorable (m_universe (create 1)) c)
  /\ exists s',
       deserializeCameras zeroed_env (create 1) (serializeCameras s ++ []) = Some (s', [])
       /\ m_cameras s' = m_cameras s.
Proof.
  cbv zeta.
  assert (H : forall c,
             In c (m_cameras
                     (with_cameras (create 1)
                        [Camera.mk (Entity.mk 1 2) 60 (800 / 600) (1 / 10) 10000 800 600
                           true "main"])) ->
             camera_restorable (m_universe (create 1)) c).
  { intros c [<- | []]. unfold camera_restorable, Camera.MAX_SLOT_LENGTH. cbn.
    repeat split. lia. }
  split; [exact H |].
  destruct (deserializeCameras_restores zeroed_env (create 1) _ [] H)
    as (s' & Hrun & Hc & _).
  exists s'. split; assumption.
Defined.

Lemma deserializeRenderables_restores_witness :
  let s := with_renderables (create 1) [far_r] in
  (forall r, In r (m_renderables s) ->
             Entity.universe (Renderable.m_entity r) = m_universe (create 1))
  /\ exists s',
       deserializeRenderables zeroed_env (create 1) (serializeRenderables s ++ [])
       = Some (s', [])
       /\ nth_error (m_renderables s') 0
          = Some (restored_renderable zeroed_env far_r (new_Renderable zeroed_env)).
Proof.
  cbv zeta.
  assert (H : forall r,
             In r (m_renderables (with_renderables (create 1) [far_r])) ->
             Entity.universe (Renderable.m_entity r) = m_universe (create 1)).
  { intros r [<- | []]. reflexivity. }
  split; [exact H |].
  destruct (deserializeRenderables_restores zeroed_env (create 1) _ [] H)
    as (s' & Hrun & _ & Hnth & _).
  exists s'. split; [exact Hrun |]. exact (Hnth 0%nat far_r eq_refl).
Defined.

Lemma deserializeTerrains_restores_witness :
  let tr := TerrainData.mk 0 0 (Some (Material.mk "t.mat")) None (at_z 0) (Entity.mk 1 5)
              2 TerrainQuad.NULL 3 5 in
  let s := with_terrains (create 1) [tr] in
  exists stream s',
    m_terrains (create 1) = []
    /\ serializeTerrains s = Some stream
    /\ deserializeTerrains zeroed_env (create 1) (stream ++ []) = Some (s', [])
    /\ m_terrains s' = [restored_terrain zeroed_env 1 tr].
Proof.
  cbv zeta. eexists.
  destruct (deserializeTerrains_restores zeroed_env (create 1)
              (with_terrains (create 1)
                 [TerrainData.mk 0 0 (Some (Material.mk "t.mat")) None (at_z 0)
                    (Entity.mk 1 5) 2 TerrainQuad.NULL 3 5])
              _ [] eq_refl eq_refl) as (s' & Hrun & Ht & _).
  exists s'. repeat split; [exact Hrun | exact Ht].
Defined.

Lemma deserialize_serialize_fresh_witness :
  let s := with_lights
             (with_cameras (create 1)
                [Camera.mk (Entity.mk 1 2) 60 (800 / 600) (1 / 10) 10000 800 600 true "main"])
             [Light.mk Light.DIRECTIONAL (Entity.mk 1 4)] in
  exists stream s',
    serialize s = Some stream
    /\ deserialize zeroed_env (create 1) stream = Some (s', [])
    /\ m_cameras s' = m_cameras s
    /\ m_lights s' = m_lights s.
Proof.
  cbv zeta. eexists.
  destruct (deserialize_serialize_fresh zeroed_env
              (with_lights
                 (with_cameras (create 1)
                    [Camera.mk (Entity.mk 1 2) 60 (800 / 600) (1 / 10) 10000 800 600
                       true "main"])
                 [Light.mk Light.DIRECTIONAL (Entity.mk 1 4)])
              1 _ eq_refl) as (s' & Hrun & Hc & Hl & _).
  - intros c [<- | []]. unfold camera_restorable, Camera.MAX_SLOT_LENGTH. cbn.
    repeat split. lia.
  - intros r [].
  - intros l [<- | []]. reflexivity.
  - exists s'. repeat split; assumption.
Defined.

End RoundTripExamples.

(** * Debug shapes, cameras and the broad phase *)

Section DebugShapes.

Import RenderSceneImpl.

(** X20. [addDebugCube] appends exactly eight lines after the lines
    already there, all with the given colour and life: the four edges of
    the square at the height of [from] and the four edges of the square
    [size] above it.  Every line is horizontal: the four vertical edges of
    the cube are not among them. *)
Theorem addDebugCube_lines (s : t) (from : Vec3.t) (size : R) (color : Vec3.t) (life : R) :
  let x := Vec3.x from in
  let y := Vec3.y from in
  let z := Vec3.z from in
  let square := fun h =>
    [DebugLine.mk (Vec3.set x h z) (Vec3.set (x + size) h z) color life;
     DebugLine.mk (Vec3.set (x + size) h (z + size)) (Vec3.set (x + size) h z) color life;
     DebugLine.mk (Vec3.set (x + size) h (z + size))
       (Vec3.set (x + size - size) h (z + size)) color life;
     DebugLine.mk (Vec3.set (x + size - size) h (z + size - size))
       (Vec3.set (x + size - size) h (z + size)) color life] in
  m_debug_lines (addDebugCube s from size color life)
  = m_debug_lines s ++ square y ++ square (y + size)
  /\ with_debug_lines (addDebugCube s from size color life) (m_debug_lines s) = s
  /\ forall line, In line (square y ++ square (y + size)) ->
                  Vec3.y (DebugLine.m_from line) = Vec3.y (DebugLine.m_to line).
Proof.
  cbv zeta. split; [| split].
  - unfold addDebugCube, addDebugLine, Array.push.
    cbn [m_debug_lines with_debug_lines Vec3.x Vec3.y Vec3.z].
    rewrite <- !app_assoc. destruct from as [fx fy fz]. reflexivity.
  - destruct s. reflexivity.
  - intros line Hin. cbn in Hin.
    repeat (destruct Hin as [<- | Hin]; [reflexivity |]). contradiction.
Qed.

Lemma addDebugCircle_loop_lines (center : Vec3.t) (radius : R) (color : Vec3.t) (life : R)
  (n : nat) :
  forall (i : Z) (s : t) (prevx prevz : R),
    prevx * prevx + prevz * prevz = radius * radius ->
    exists added,
      m_debug_lines (addDebugCircle_loop n i center radius color life s prevx prevz)
      = m_debug_lines s ++ added
      /\ length added = n
      /\ with_debug_lines (addDebugCircle_loop n i center radius color life s prevx prevz)
           (m_debug_lines s) = s
      /\ forall line, In line added ->
           DebugLine.m_color line = color /\ DebugLine.m_life line = life
           /\ on_circle center radius (DebugLine.m_from line)
           /\ on_circle center radius (DebugLine.m_to line).
Proof.
  induction n as [| n IH]; intros i s prevx prevz Hprev.
  - exists []. cbn. rewrite app_nil_r. repeat split; try contradiction.
    destruct s; reflexivity.
  - cbn [addDebugCircle_loop].
    set (a := IZR i / 64 * 2 * PI).
    assert (Hxz : cos a * radius * (cos a * radius) + sin a * radius * (sin a * radius)
                  = radius * radius).
    { pose proof (sin2_cos2 a) as Hsc. unfold Rsqr in Hsc. nra. }
    destruct (IH (i + 1)%Z
                (addDebugLine s (Vec3.add center (Vec3.set (cos a * radius) 0 (sin a * radius)))
                   (Vec3.add center (Vec3.set prevx 0 prevz)) color life)
                (cos a * radius) (sin a * radius) Hxz)
      as (added & Hlines & Hlen & Hframe & Hall).
    exists (DebugLine.mk (Vec3.add center (Vec3.set (cos a * radius) 0 (sin a * radius)))
              (Vec3.add center (Vec3.set prevx 0 prevz)) color life :: added).
    split; [| split; [| split]].
    + rewrite Hlines. unfold addDebugLine, Array.push. cbn [m_debug_lines with_debug_lines].
      rewrite <- app_assoc. reflexivity.
    + cbn [length]. rewrite Hlen. reflexivity.
    + match goal with
      | |- with_debug_lines ?X (m_debug_lines s) = s =>
          change (with_debug_lines
                    (with_debug_lines X
                       (m_debug_lines
                          (addDebugLine s
                             (Vec3.add center (Vec3.set (cos a * radius) 0 (sin a * radius)))
                             (Vec3.add center (Vec3.set prevx 0 prevz)) color life)))
                    (m_debug_lines s) = s)
      end.
      rewrite Hframe. destruct s. reflexivity.
    + intros line [<- | Hin]; [| exact (Hall line Hin)].
      cbn [DebugLine.m_color DebugLine.m_life DebugLine.m_from DebugLine.m_to].
      split; [reflexivity | split; [reflexivity | split]];
        unfold on_circle, Vec3.add; cbn [Vec3.x Vec3.y Vec3.z]; (split; [lra |]).
      * rewrite <- Hxz. ring.
      * rewrite <- Hprev. ring.
Qed.

(** X21. [addDebugCircle] appends exactly 63 lines after the lines already
    there, all with the given colour and life, and both ends of each lie on
    the circle of the given radius around [center] in the plane at the
    centre's height.  (The loop runs from 1 to 63: the chord that would
    close the circle is not drawn.) *)
Theorem addDebugCircle_lines (s : t) (center : Vec3.t) (radius : R) (color : Vec3.t)
  (life : R) :
  exists added,
    m_debug_lines (addDebugCircle s center radius color life) = m_debug_lines s ++ added
    /\ length added = 63%nat
    /\ with_debug_lines (addDebugCircle s center radius color life) (m_debug_lines s) = s
    /\ forall line, In line added ->
         DebugLine.m_color line = color /\ DebugLine.m_life line = life
         /\ on_circle center radius (DebugLine.m_from line)
         /\ on_circle center radius (DebugLine.m_to line).
Proof.
  unfold addDebugCircle.
  apply (addDebugCircle_loop_lines center radius color life 63 1 s radius 0). ring.
Qed.

End DebugShapes.

Section CameraAspect.

Import RenderSceneImpl.

Lemma In_set_nat {T : Type} (l : list T) (k : nat) (v x : T) :
  In x (Array.set_nat l k v) -> x = v \/ In x l.
Proof.
  revert k. induction l as [| h l IH]; intros k Hin; [destruct k; contradiction |].
  destruct k; cbn in Hin.
  - destruct Hin as [<- | Hin]; [left; reflexivity | right; right; exact Hin].
  - destruct Hin as [<- | Hin]; [right; left; reflexivity |].
    destruct (IH k Hin) as [-> | H]; [left; reflexivity | right; right; exact H].
Qed.

(** X22. The cameras a scene holds can be written and read back exactly as
    long as they are made and resized through the scene: a camera made by
    [createComponent] for an entity of universe [u] has its aspect equal
    to width / height and an empty slot, and [setCameraSize] keeps every
    camera's aspect equal to width / height, changing the size of the
    camera addressed and no entity and no slot. *)
Theorem camera_restorable_kept (env : Environment) (s : t) (u : Z) :
  (forall c, In c (m_cameras s) -> camera_restorable u c) ->
  (forall entity,
      Entity.universe entity = u ->
      forall c, In c (m_cameras (snd (createComponent env s CAMERA_HASH entity))) ->
                camera_restorable u c)
  /\ (forall camera w h s',
        setCameraSize s camera w h = Some s' ->
        (forall c, In c (m_cameras s') -> camera_restorable u c)
        /\ exists c, Array.get (m_cameras s') (Component.index camera) = Some c
                     /\ Camera.m_width c = IZR w /\ Camera.m_height c = IZR h).
Proof.
  intros Hall. split.
  - intros entity Hu c Hin. unfold createComponent in Hin. cbn in Hin.
    unfold Array.push in Hin. apply in_app_or in Hin. destruct Hin as [Hin | [<- | []]].
    + exact (Hall c Hin).
    + unfold camera_restorable, Camera.MAX_SLOT_LENGTH. cbn. repeat split; [exact Hu | lia].
  - intros camera w h s' Hset. unfold setCameraSize in Hset.
    destruct (Array.get (m_cameras s) (Component.index camera)) as [c0 |] eqn:Hget;
      [| discriminate].
    injection Hset as <-. cbn [m_cameras with_cameras].
    assert (Hc0 : In c0 (m_cameras s)).
    { unfold Array.get in Hget. destruct (Component.index camera <? 0)%Z; [discriminate |].
      eapply nth_error_In. exact Hget. }
    split.
    + intros c Hin. unfold Array.set in Hin.
      destruct (Component.index camera <? 0)%Z; [exact (Hall c Hin) |].
      apply In_set_nat in Hin. destruct Hin as [-> | Hin]; [| exact (Hall c Hin)].
      destruct (Hall c0 Hc0) as (H1 & _ & H3).
      unfold camera_restorable. cbn. repeat split; assumption.
    + unfold Array.get, Array.set in *.
      destruct (Component.index camera <? 0)%Z; [discriminate |].
      exists (Camera.mk (Camera.m_entity c0) (Camera.m_fov c0) (IZR w / IZR h)
                (Camera.m_near c0) (Camera.m_far c0) (IZR w) (IZR h)
                (Camera.m_is_active c0) (Camera.m_slot c0)).
      split; [| split; reflexivity].
      clear Hc0 Hall. revert Hget. generalize (Z.to_nat (Component.index camera)).
      induction (m_cameras s) as [| h0 l IHl]; intros k Hk; [destruct k; discriminate |].
      destruct k; cbn in Hk |- *; [reflexivity | apply IHl; exact Hk].
Qed.

End CameraAspect.

Section BroadPhaseScaled.

Import RenderSceneImpl.


End BroadPhaseScaled.

Section MoreExamples.

Import RenderSceneImpl.

Lemma camera_restorable_kept_witness :
  (forall c, In c (m_cameras (create 1)) -> camera_restorable 1 c)
  /\ forall c,
       In c (m_cameras (snd (createComponent zeroed_env (create 1) CAMERA_HASH (Entity.mk 1 3)))) ->
       camera_restorable 1 c.
Proof.
  assert (H : forall c, In c (m_cameras (create 1)) -> camera_restorable 1 c)
    by (intros c []).
  split; [exact H |].
  exact (proj1 (camera_restorable_kept zeroed_env (create 1) 1 H) (Entity.mk 1 3) eq_refl).
Defined.


(** X24. When reading a registry succeeds on a stream that records [size]
    entries, the cameras, the renderables and the lights number exactly
    [size] afterwards, whatever the registry held before, while the
    terrains number what the registry held before plus [size]. *)
Theorem deserialize_registry_sizes
  (env : Environment) (s s' : t) (label : string) (size : Z)
  (rest st' : ISerializer.stream) :
  (deserializeCameras env s (ISerializer.Named label (ISerializer.VInt size) :: rest)
   = Some (s', st') -> Array.size (m_cameras s') = size)
  /\ (deserializeRenderables env s (ISerializer.Named label (ISerializer.VInt size) :: rest)
      = Some (s', st') -> Array.size (m_renderables s') = size)
  /\ (deserializeLights env s (ISerializer.Named label (ISerializer.VInt size) :: rest)
      = Some (s', st') -> Array.size (m_lights s') = size)
  /\ (deserializeTerrains env s (ISerializer.Named label (ISerializer.VInt size) :: rest)
      = Some (s', st') ->
      Array.size (m_terrains s') = (Array.size (m_terrains s) + Z.max 0 size)%Z).
Proof.
  split; [| split; [| split]].
  - apply deserializeCameras_size.
  - apply deserializeRenderables_size.
  - apply deserializeLights_size.
  - apply deserializeTerrains_size.
Qed.

Lemma deserialize_registry_sizes_witness :
  let s := with_lights (create 1)
             [Light.mk Light.DIRECTIONAL (Entity.mk 1 4);
              Light.mk Light.DIRECTIONAL (Entity.mk 1 9)] in
  let stream := [ISerializer.BeginArray "lights"; ISerializer.EndArray] in
  deserializeLights zeroed_env s
    (ISerializer.Named "light_count" (ISerializer.VInt 0) :: stream)
  = Some (with_lights (create 1) [], [])
  /\ Array.size (m_lights (with_lights (create 1) [])) = 0%Z.
Proof.
  cbv zeta.
  assert (H : deserializeLights zeroed_env
                (with_lights (create 1)
                   [Light.mk Light.DIRECTIONAL (Entity.mk 1 4);
                    Light.mk Light.DIRECTIONAL (Entity.mk 1 9)])
                (ISerializer.Named "light_count" (ISerializer.VInt 0)
                 :: [ISerializer.BeginArray "lights"; ISerializer.EndArray])
              = Some (with_lights (create 1) [], [])) by reflexivity.
  split; [exact H |].
  exact (proj1 (proj2 (proj2 (deserialize_registry_sizes zeroed_env _ _ _ _ _ _))) H).
Defined.

End MoreExamples.
